(** * weather-ruretse: the forecast-correction engine, embedded in Rocq

    A shallow embedding of the parts of the repository that the
    specification makes claims about:

    - [Db]         db.py and the storage helpers of collector.py: the
                   forecasts and observations tables, the loads and the
                   paired join;
    - [Frame]      the pandas tables handed between the stages;
    - [Models]     models.py: WeatherPredictor and PrecipitationPredictor;
    - [Features]   features.py: the choice of the feature columns;
    - [Runtime]    what a run prints, writes and how it ends;
    - [Predict]    predict.py: serve-time feature alignment and output;
    - [Train]      train.py: the training orchestrator;
    - [Collector]  collector.py: the backfill in chunks.

    Numbers.  REAL columns, numpy arrays and estimator outputs are modelled
    as rationals [Q] (exact arithmetic; rounding is not modelled), a missing
    value (SQL NULL, NaN in a table) as [None].  Comparison, maximum,
    minimum and clipping are exact on floats, so the order properties proved
    here do not depend on rounding.

    External toolkit.  LightGBM, scikit-learn and joblib are not part of the
    repository.  A fitted estimator is a function from a feature row to a
    number together with the feature names it was fitted on; the learners
    that produce them are parameters of the development.  What LightGBM
    checks before it computes anything is modelled with the calls: [fit]
    and [predict] raise on a table without rows, [fit] raises when early
    stopping is asked for without an evaluation set, and the classifier's
    [fit] raises on an evaluation label that is no training label. *)

From Stdlib Require Import ZArith QArith Qround Qabs String Ascii List Lia Permutation Sorted.
From stdpp Require Import base option list gmap strings pretty.
Import ListNotations.

Local Open Scope string_scope.
Local Open Scope list_scope.

(** Python's [enumerate]. *)
Definition enumerate {A : Type} (l : list A) : list (nat * A) :=
  combine (seq 0 (length l)) l.

(** ** config.py *)

Module Config.
Definition MODEL_PATH : string := "models/weather_model.pkl".
Definition PRECIP_MODEL_PATH : string := "models/precip_model.pkl".

(** [PRECIP_THRESHOLD_MM = 0.1]: minimum mm to count as rain. *)
Definition PRECIP_THRESHOLD_MM : Q := 1 # 10.

Definition HOURLY_FORECAST_VARS : list string :=
  [ "temperature_2m"; "dewpoint_2m"; "relative_humidity_2m"; "pressure_msl";
    "surface_pressure"; "wind_speed_10m"; "wind_direction_10m";
    "wind_gusts_10m"; "precipitation"; "precipitation_probability";
    "cloud_cover"; "cape"; "visibility" ].

Definition HOURLY_HISTORY_VARS : list string :=
  [ "temperature_2m"; "dewpoint_2m"; "relative_humidity_2m"; "pressure_msl";
    "surface_pressure"; "wind_speed_10m"; "wind_direction_10m";
    "precipitation"; "cloud_cover" ].

Definition HOURLY_HISTORICAL_FORECAST_VARS : list string :=
  [ "temperature_2m"; "dewpoint_2m"; "relative_humidity_2m"; "pressure_msl";
    "surface_pressure"; "wind_speed_10m"; "wind_direction_10m";
    "wind_gusts_10m"; "precipitation"; "cloud_cover"; "cape" ].
End Config.

(** A REAL cell: a number, or NULL / NaN. *)
Definition cell : Type := option Q.

(** ** db.py and the storage helpers of collector.py *)

Module Db.

(** A row of the [forecasts] table; the fields are the columns, written
    [f_col] as the paired query writes [f.col]. *)
Record ForecastRow := {
  f_fetched_at : string;
  f_valid_time : string;
  f_source : string;
  f_lead_hours : option Z;
  f_temperature_2m : cell;
  f_dewpoint_2m : cell;
  f_relative_humidity_2m : cell;
  f_pressure_msl : cell;
  f_surface_pressure : cell;
  f_wind_speed_10m : cell;
  f_wind_direction_10m : cell;
  f_wind_gusts_10m : cell;
  f_precipitation : cell;
  f_precipitation_probability : cell;
  f_cloud_cover : cell;
  f_cape : cell;
  f_visibility : cell;
}.

(** A row of the [observations] table ([o.col] in the paired query). *)
Record ObservationRow := {
  o_time : string;
  o_temperature_2m : cell;
  o_dewpoint_2m : cell;
  o_relative_humidity_2m : cell;
  o_pressure_msl : cell;
  o_surface_pressure : cell;
  o_wind_speed_10m : cell;
  o_wind_direction_10m : cell;
  o_precipitation : cell;
  o_cloud_cover : cell;
}.

(** The two tables.  A table is the list of its rows in insertion
    order. *)
Record Database := {
  forecasts : list ForecastRow;
  observations : list ObservationRow;
}.

(** [init_db] on a fresh file: both tables exist and are empty. *)
Definition empty_db : Database := {| forecasts := []; observations := [] |}.

(** PRIMARY KEY (fetched_at, valid_time, source). *)
Definition forecast_key (f : ForecastRow) : string * string * string :=
  (f_fetched_at f, f_valid_time f, f_source f).

Definition same_forecast_key (f g : ForecastRow) : bool :=
  (f_fetched_at f =? f_fetched_at g) && (f_valid_time f =? f_valid_time g)
  && (f_source f =? f_source g).

Definition pk_forecasts (db : Database) : Prop :=
  List.NoDup (List.map forecast_key (forecasts db)).

(** [time TEXT PRIMARY KEY]. *)
Definition pk_observations (db : Database) : Prop :=
  List.NoDup (List.map o_time (observations db)).

(** [INSERT OR REPLACE]: a row with the same primary key is deleted, then
    the new row is stored. *)
Definition replace_forecast (r : ForecastRow) (tbl : list ForecastRow)
  : list ForecastRow :=
  List.filter (fun x => negb (same_forecast_key x r)) tbl ++ [r].

Definition replace_observation (r : ObservationRow) (tbl : list ObservationRow)
  : list ObservationRow :=
  List.filter (fun x => negb (o_time x =? o_time r)) tbl ++ [r].

(** The row dictionaries the collector builds: ["time"], ["lead_hours"]
    (forecast rows only) and one entry per variable. *)
Record RowDict := {
  r_time : string;
  r_lead_hours : option Z;
  r_vars : gmap string cell;
}.

(** [row.get(var)]: [None] when the key is absent. *)
Definition row_get (row : RowDict) (var : string) : cell :=
  match r_vars row !! var with
  | Some v => v
  | None => None
  end.

Definition forecast_of_row (row : RowDict) (source fetched_at : string)
  : ForecastRow :=
  {| f_fetched_at := fetched_at;
     f_valid_time := r_time row;
     f_source := source;
     f_lead_hours := r_lead_hours row;
     f_temperature_2m := row_get row "temperature_2m";
     f_dewpoint_2m := row_get row "dewpoint_2m";
     f_relative_humidity_2m := row_get row "relative_humidity_2m";
     f_pressure_msl := row_get row "pressure_msl";
     f_surface_pressure := row_get row "surface_pressure";
     f_wind_speed_10m := row_get row "wind_speed_10m";
     f_wind_direction_10m := row_get row "wind_direction_10m";
     f_wind_gusts_10m := row_get row "wind_gusts_10m";
     f_precipitation := row_get row "precipitation";
     f_precipitation_probability := row_get row "precipitation_probability";
     f_cloud_cover := row_get row "cloud_cover";
     f_cape := row_get row "cape";
     f_visibility := row_get row "visibility" |}.

Definition observation_of_row (row : RowDict) : ObservationRow :=
  {| o_time := r_time row;
     o_temperature_2m := row_get row "temperature_2m";
     o_dewpoint_2m := row_get row "dewpoint_2m";
     o_relative_humidity_2m := row_get row "relative_humidity_2m";
     o_pressure_msl := row_get row "pressure_msl";
     o_surface_pressure := row_get row "surface_pressure";
     o_wind_speed_10m := row_get row "wind_speed_10m";
     o_wind_direction_10m := row_get row "wind_direction_10m";
     o_precipitation := row_get row "precipitation";
     o_cloud_cover := row_get row "cloud_cover" |}.

Definition insert_forecasts (rows : list RowDict) (source fetched_at : string)
           (db : Database) : Database :=
  {| forecasts :=
       fold_left (fun tbl row =>
                    replace_forecast (forecast_of_row row source fetched_at) tbl)
                 rows (forecasts db);
     observations := observations db |}.

Definition insert_observations (rows : list RowDict) (db : Database) : Database :=
  {| forecasts := forecasts db;
     observations :=
       fold_left (fun tbl row => replace_observation (observation_of_row row) tbl)
                 rows (observations db) |}.

(** *** collector.py: storage helpers

    [data["hourly"]] of an Open-Meteo reply: the list of times and one
    list of values per variable. *)
Record Hourly := {
  h_time : list string;
  h_series : gmap string (list cell);
}.

(** [hourly.get(var, [None] * n)[i]]; [None] is an IndexError. *)
Definition hourly_get (hourly : Hourly) (var : string) (i : nat) : option cell :=
  match h_series hourly !! var with
  | Some values => values !! i
  | None => if (i <? length (h_time hourly))%nat then Some None else None
  end.

(** [for var in vars: row[var] = hourly.get(var, ...)[i]]. *)
Fixpoint fill_vars (hourly : Hourly) (i : nat) (vars : list string)
         (row : gmap string cell) : option (gmap string cell) :=
  match vars with
  | [] => Some row
  | var :: vars' =>
      match hourly_get hourly var i with
      | Some v => fill_vars hourly i vars' (<[var := v]> row)
      | None => None
      end
  end.

(** [for var in vars: if var not in row: row[var] = None]. *)
Definition default_vars (vars : list string) (row : gmap string cell)
  : gmap string cell :=
  fold_left (fun r var => match r !! var with
                          | Some _ => r
                          | None => <[var := None]> r
                          end) vars row.

(** [store_forecast]: live rows; [fetched_at] is
    [datetime.now(timezone.utc).isoformat()], row [i] has lead [i].  The
    result is [None] when building the rows raises. *)
Definition store_forecast (now_iso : string) (hourly : Hourly) (db : Database)
  : option Database :=
  rows ← mapM (fun '(i, t) =>
                 vars ← fill_vars hourly i Config.HOURLY_FORECAST_VARS ∅;
                 Some {| r_time := t; r_lead_hours := Some (Z.of_nat i);
                         r_vars := vars |})
              (enumerate (h_time hourly));
  Some (insert_forecasts rows "best_match" now_iso db).

(** [store_historical_forecast_chunk]: the marker ["backfill"] takes the
    place of the issue time, and the lead time is NULL. *)
Definition store_historical_forecast_chunk (hourly : Hourly) (db : Database)
  : option Database :=
  let fetched_at := "backfill" in
  rows ← mapM (fun '(i, t) =>
                 vars ← fill_vars hourly i Config.HOURLY_HISTORICAL_FORECAST_VARS ∅;
                 Some {| r_time := t; r_lead_hours := None;
                         r_vars := default_vars Config.HOURLY_FORECAST_VARS vars |})
              (enumerate (h_time hourly));
  Some (insert_forecasts rows "best_match" fetched_at db).

(** [store_history]. *)
Definition store_history (hourly : Hourly) (db : Database) : option Database :=
  rows ← mapM (fun '(i, t) =>
                 vars ← fill_vars hourly i Config.HOURLY_HISTORY_VARS ∅;
                 Some {| r_time := t; r_lead_hours := None; r_vars := vars |})
              (enumerate (h_time hourly));
  Some (insert_observations rows db).

(** [backfill_forecasts_from_archive]: every observation copied into the
    forecasts table under the marker ['backfill-archive']. *)
Definition archive_forecast (o : ObservationRow) : ForecastRow :=
  {| f_fetched_at := "backfill-archive";
     f_valid_time := o_time o;
     f_source := "best_match";
     f_lead_hours := None;
     f_temperature_2m := o_temperature_2m o;
     f_dewpoint_2m := o_dewpoint_2m o;
     f_relative_humidity_2m := o_relative_humidity_2m o;
     f_pressure_msl := o_pressure_msl o;
     f_surface_pressure := o_surface_pressure o;
     f_wind_speed_10m := o_wind_speed_10m o;
     f_wind_direction_10m := o_wind_direction_10m o;
     f_wind_gusts_10m := None;
     f_precipitation := o_precipitation o;
     f_precipitation_probability := None;
     f_cloud_cover := o_cloud_cover o;
     f_cape := None;
     f_visibility := None |}.

Definition backfill_forecasts_from_archive (db : Database) : Database :=
  {| forecasts :=
       fold_left (fun tbl o => replace_forecast (archive_forecast o) tbl)
                 (observations db) (forecasts db);
     observations := observations db |}.

(** *** load_paired_data

    The window of the common table expression:
    [PARTITION BY valid_time, source ORDER BY fetched_at DESC].  TEXT
    values compare byte by byte ([String.compare]). *)
Definition same_partition (f g : ForecastRow) : bool :=
  (f_valid_time f =? f_valid_time g) && (f_source f =? f_source g).

(** Row [g] at position [j] is numbered before row [f] at position [i]:
    same partition and a greater [fetched_at]; rows with equal
    [fetched_at] (the primary key excludes them) keep the table order. *)
Definition numbered_before (i : nat) (f : ForecastRow) (jg : nat * ForecastRow)
  : bool :=
  same_partition f (snd jg)
  && ((f_fetched_at f <? f_fetched_at (snd jg))
      || ((f_fetched_at (snd jg) =? f_fetched_at f) && (fst jg <? i)%nat)).

(** [ROW_NUMBER() OVER (...)] of the row [f] at position [i]. *)
Definition row_number (tbl : list ForecastRow) (i : nat) (f : ForecastRow) : nat :=
  S (length (List.filter (numbered_before i f) (enumerate tbl))).

(** [FROM forecasts WHERE source = 'best_match']. *)
Definition best_match_rows (tbl : list ForecastRow) : list ForecastRow :=
  List.filter (fun f => f_source f =? "best_match") tbl.

(** [latest_fcst]: the best_match rows, each with its row number. *)
Definition latest_fcst (tbl : list ForecastRow) : list (ForecastRow * nat) :=
  let cand := best_match_rows tbl in
  List.map (fun '(i, f) => (f, row_number cand i f)) (enumerate cand).

(** [ON f.valid_time = o.time AND f.rn = 1]. *)
Definition join_on (o : ObservationRow) (frn : ForecastRow * nat) : bool :=
  (f_valid_time (fst frn) =? o_time o) && (snd frn =? 1)%nat.

(** [FROM observations o INNER JOIN latest_fcst f ON ...]. *)
Definition inner_join (obs : list ObservationRow) (lf : list (ForecastRow * nat))
  : list (ObservationRow * ForecastRow) :=
  flat_map (fun o => List.map (fun frn => (o, fst frn))
                              (List.filter (join_on o) lf)) obs.

(** [ORDER BY o.time]: a stable insertion sort on the time text. *)
Fixpoint insert_by_time (x : ObservationRow * ForecastRow)
         (l : list (ObservationRow * ForecastRow)) :=
  match l with
  | [] => [x]
  | y :: l' => if (o_time (fst y) <=? o_time (fst x))
               then y :: insert_by_time x l'
               else x :: l
  end.

Definition order_by_time (l : list (ObservationRow * ForecastRow)) :=
  fold_left (fun acc x => insert_by_time x acc) l [].

(** The joined rows before the column list is applied: each observation
    with the forecast issue that contributes to it. *)
Definition paired_join (db : Database) : list (ObservationRow * ForecastRow) :=
  order_by_time (inner_join (observations db) (latest_fcst (forecasts db))).

(** A row of the result: the SELECT list. *)
Record PairedRow := {
  time : string;
  obs_temp : cell;
  obs_dewpoint : cell;
  obs_humidity : cell;
  obs_pressure : cell;
  obs_wind_speed : cell;
  obs_wind_dir : cell;
  obs_precip : cell;
  obs_cloud : cell;
  fcst_temp : cell;
  fcst_dewpoint : cell;
  fcst_humidity : cell;
  fcst_pressure : cell;
  fcst_surface_pressure : cell;
  fcst_wind_speed : cell;
  fcst_wind_dir : cell;
  fcst_wind_gust : cell;
  fcst_precip : cell;
  fcst_precip_prob : cell;
  fcst_cloud : cell;
  fcst_cape : cell;
  fcst_visibility : cell;
  lead_hours : option Z;
}.

Definition select_columns (joined : ObservationRow * ForecastRow) : PairedRow :=
  let '(o, f) := joined in
  {| time := o_time o;
     obs_temp := o_temperature_2m o;
     obs_dewpoint := o_dewpoint_2m o;
     obs_humidity := o_relative_humidity_2m o;
     obs_pressure := o_pressure_msl o;
     obs_wind_speed := o_wind_speed_10m o;
     obs_wind_dir := o_wind_direction_10m o;
     obs_precip := o_precipitation o;
     obs_cloud := o_cloud_cover o;
     fcst_temp := f_temperature_2m f;
     fcst_dewpoint := f_dewpoint_2m f;
     fcst_humidity := f_relative_humidity_2m f;
     fcst_pressure := f_pressure_msl f;
     fcst_surface_pressure := f_surface_pressure f;
     fcst_wind_speed := f_wind_speed_10m f;
     fcst_wind_dir := f_wind_direction_10m f;
     fcst_wind_gust := f_wind_gusts_10m f;
     fcst_precip := f_precipitation f;
     fcst_precip_prob := f_precipitation_probability f;
     fcst_cloud := f_cloud_cover f;
     fcst_cape := f_cape f;
     fcst_visibility := f_visibility f;
     lead_hours := f_lead_hours f |}.

(** [load_paired_data]: the rows of the returned table, in order.  The
    cells are numeric or missing already, so [pd.to_numeric(...,
    errors="coerce")] leaves them as they are. *)
Definition load_paired_data (db : Database) : list PairedRow :=
  List.map select_columns (paired_join db).

(** A live issue time: [datetime.isoformat()] starts with the digits of
    the year. *)
Definition is_digit (c : ascii) : bool :=
  ((48 <=? nat_of_ascii c) && (nat_of_ascii c <=? 57))%nat.

Definition is_live (fetched_at : string) : bool :=
  match fetched_at with
  | String c _ => is_digit c
  | EmptyString => false
  end.

(** The reading of the specification: a backfilled row is used for a
    valid time only when no live issue exists for it. *)
Definition backfill_only_without_live (db : Database) : Prop :=
  forall o f, In (o, f) (paired_join db) -> f_fetched_at f = "backfill" ->
    ~ exists g, In g (forecasts db) /\ f_source g = "best_match"
                /\ f_valid_time g = o_time o /\ is_live (f_fetched_at g) = true.

(** *** load_observations and load_forecasts

    [ORDER BY]: a stable insertion sort, for the order [leb]. *)
Fixpoint insert_ordered {A : Type} (leb : A -> A -> bool) (x : A) (l : list A)
  : list A :=
  match l with
  | [] => [x]
  | y :: l' => if leb y x then y :: insert_ordered leb x l' else x :: l
  end.

Definition order_by {A : Type} (leb : A -> A -> bool) (l : list A) : list A :=
  fold_left (fun acc x => insert_ordered leb x acc) l [].

(** [if start: conditions.append("time >= ?")]: a bound that is [None] or
    the empty text is no condition. *)
Definition time_from (start : option string) (t : string) : bool :=
  match start with
  | Some (String _ _ as s) => s <=? t
  | _ => true
  end.

(** [if end: conditions.append("time <= ?")]. *)
Definition time_to (end_ : option string) (t : string) : bool :=
  match end_ with
  | Some (String _ _ as e) => t <=? e
  | _ => true
  end.

(** [load_observations(start, end)]: the rows that the query returns, in
    their order.  ([parse_dates] then turns the time text of each row into
    a timestamp, which becomes the index of the table.) *)
Definition load_observations (start end_ : option string) (db : Database)
  : list ObservationRow :=
  order_by (fun a b => o_time a <=? o_time b)
           (List.filter (fun o => time_from start (o_time o)
                                  && time_to end_ (o_time o))
                        (observations db)).

(** [ORDER BY valid_time, fetched_at]. *)
Definition by_valid_time_fetched_at (f g : ForecastRow) : bool :=
  (f_valid_time f <? f_valid_time g)
  || ((f_valid_time f =? f_valid_time g) && (f_fetched_at f <=? f_fetched_at g)).

(** [load_forecasts(source, start, end)]: the rows that the query returns,
    in their order.  ([parse_dates] then turns the two time texts of each
    row into timestamps; a marker that is no time becomes NaT.) *)
Definition load_forecasts (source : string) (start end_ : option string)
           (db : Database) : list ForecastRow :=
  order_by by_valid_time_fetched_at
           (List.filter (fun f => (f_source f =? source)
                                  && time_from start (f_valid_time f)
                                  && time_to end_ (f_valid_time f))
                        (forecasts db)).

(** The rows of a batch that are still stored when the batch has been
    written with [INSERT OR REPLACE]: of the rows with one key, the
    last. *)
Fixpoint last_of_each {A : Type} (same : A -> A -> bool) (l : list A) : list A :=
  match l with
  | [] => []
  | r :: l' => if existsb (same r) l' then last_of_each same l'
               else r :: last_of_each same l'
  end.

(** The columns of the forecasts table that hold a variable of the reply,
    by name. *)
Definition forecast_columns : list (string * (ForecastRow -> cell)) :=
  [ ("temperature_2m", f_temperature_2m); ("dewpoint_2m", f_dewpoint_2m);
    ("relative_humidity_2m", f_relative_humidity_2m);
    ("pressure_msl", f_pressure_msl); ("surface_pressure", f_surface_pressure);
    ("wind_speed_10m", f_wind_speed_10m);
    ("wind_direction_10m", f_wind_direction_10m);
    ("wind_gusts_10m", f_wind_gusts_10m); ("precipitation", f_precipitation);
    ("precipitation_probability", f_precipitation_probability);
    ("cloud_cover", f_cloud_cover); ("cape", f_cape);
    ("visibility", f_visibility) ].

(** The columns of the observations table, by name. *)
Definition observation_columns : list (string * (ObservationRow -> cell)) :=
  [ ("temperature_2m", o_temperature_2m); ("dewpoint_2m", o_dewpoint_2m);
    ("relative_humidity_2m", o_relative_humidity_2m);
    ("pressure_msl", o_pressure_msl); ("surface_pressure", o_surface_pressure);
    ("wind_speed_10m", o_wind_speed_10m);
    ("wind_direction_10m", o_wind_direction_10m);
    ("precipitation", o_precipitation); ("cloud_cover", o_cloud_cover) ].

(** The cell of a row in the column [var]. *)
Definition column_of {R : Type} (cols : list (string * (R -> cell)))
           (var : string) (r : R) : cell :=
  match List.find (fun c => fst c =? var) cols with
  | Some c => snd c r
  | None => None
  end.

End Db.

(** ** Exceptions *)

Inductive error :=
| KeyError (key : string)
| IndexError
| ValueError (msg : string)
| NotFittedError
| FileNotFoundError (path : string)
| ToolkitError (msg : string).

(** The result of a call that may raise. *)
Inductive result (A : Type) :=
| Ok (a : A)
| Raise (e : error).
Arguments Ok {A} a.
Arguments Raise {A} e.

#[global] Instance result_ret : MRet result := fun A a => Ok a.
#[global] Instance result_bind : MBind result := fun A B f m =>
  match m with
  | Ok a => f a
  | Raise e => Raise e
  end.
#[global] Instance result_fmap : FMap result := fun A B f m =>
  match m with
  | Ok a => Ok (f a)
  | Raise e => Raise e
  end.

Definition is_ok {A} (m : result A) : bool :=
  match m with
  | Ok _ => true
  | Raise _ => false
  end.

(** The value of a call that returned ([default] when it raised). *)
Definition get_ok {A} (default : A) (m : result A) : A :=
  match m with
  | Ok a => a
  | Raise _ => default
  end.

(** ** The served forecast

    One entry of ["hourly"] in latest_forecast.json. *)
Record HourlyRecord := {
  hr_time : Z;
  hr_lead_hours : Z;
  temperature_c : Q;
  humidity_pct : Q;
  wind_speed_kmh : Q;
  precip_probability_pct : Q;
  precip_expected_mm : Q;
  temperature_range_c : option (Q * Q);
  precip_range_mm : option (Q * Q);
}.

(** ** What the programs print

    One constructor per [print] of models.py, train.py and predict.py, with
    the values that the text is formatted from. *)

Inductive message :=
| MsgSkipping (target : string) (samples : nat)
| MsgValMAE (target : string) (mae : cell)
| MsgPrecipScores (brier auc : Q)
| MsgLoadingPaired
| MsgInsufficient (paired_rows : nat)
| MsgLoaded (paired_rows : nat) (first last : option Z)
| MsgEngineering
| MsgFeatureCount (n : nat)
| MsgRowsAfterDrop (n : nat)
| MsgTrainRows (n : nat) (first last : option Z)
| MsgValRows (n : nat) (first last : option Z)
| MsgTrainingWeather
| MsgTrainingPrecip
| MsgSaved (path : string)
| MsgValidationByLead
| MsgLeadTime (lead : Z) (n : nat) (ml_mae nwp_mae improvement : cell)
| MsgDone
| MsgLoadingModels
| MsgFetching
| MsgMissingFeatures (n : nat) (first_five : list string)
| MsgWrote (hours : nat)
| MsgPreviewHeader
| MsgPreviewRow (row : HourlyRecord).

(** ** Python dictionaries that are iterated

    A [dict] whose items are visited in insertion order: the list of its
    items, each key once. *)

Section Dict.
Context {K V : Type} (eqb : K -> K -> bool).

Fixpoint dict_get (k : K) (d : list (K * V)) : option V :=
  match d with
  | [] => None
  | (k', v) :: d' => if eqb k k' then Some v else dict_get k d'
  end.

(** [d[k] = v]: an existing key keeps its place. *)
Fixpoint dict_set (k : K) (v : V) (d : list (K * V)) : list (K * V) :=
  match d with
  | [] => [(k, v)]
  | (k', v') :: d' => if eqb k k' then (k, v) :: d' else (k', v') :: dict_set k v d'
  end.

Definition dict_in (k : K) (d : list (K * V)) : bool :=
  match dict_get k d with
  | Some _ => true
  | None => false
  end.
End Dict.

(** ** numpy on one element *)

(** [np.maximum(a, b)]. *)
Definition np_maximum (a b : Q) : Q := if Qle_bool a b then b else a.

(** [np.minimum(a, b)]. *)
Definition np_minimum (a b : Q) : Q := if Qle_bool a b then a else b.

(** [np.clip(a, a_min, a_max)]. *)
Definition np_clip (a a_min a_max : Q) : Q := np_minimum (np_maximum a a_min) a_max.

(** Element-wise product of two arrays of one length. *)
Definition np_multiply (a b : list Q) : list Q :=
  List.map (fun ab => (fst ab * snd ab)%Q) (combine a b).

(** [int(x)]: truncation towards zero. *)
Definition py_int (x : Q) : Z := if Qle_bool 0 x then Qfloor x else Qceiling x.

(** [round(x, ndigits)]: to the nearest multiple of [10^-ndigits], a tie
    to the even one. *)
Definition py_round (x : Q) (ndigits : nat) : Q :=
  let scale := inject_Z (10 ^ Z.of_nat ndigits) in
  let y := (x * scale)%Q in
  let f := Qfloor y in
  let r := (y - inject_Z f)%Q in
  let n := if Qle_bool (1 # 2) r
           then (if Qle_bool r (1 # 2)
                 then (if Z.even f then f else f + 1)%Z
                 else (f + 1)%Z)
           else f in
  (inject_Z n / scale)%Q.

(** [f"{n:02d}"]. *)
Definition format_02d (n : Z) : string :=
  if ((0 <=? n) && (n <? 10))%Z then ("0" ++ pretty n)%string else pretty n.

(** ** The pandas tables *)

Module Frame.

(** A [pd.Timestamp], in nanoseconds since the epoch. *)
Definition Timestamp : Type := Z.

(** One row: its index label and its cell per column. *)
Record Row := {
  ix : Timestamp;
  cells : gmap string cell;
}.

(** A DataFrame: the column names in order, and the rows in order. *)
Record DataFrame := {
  columns : list string;
  rows : list Row;
}.

(** [len(df)]. *)
Definition len (df : DataFrame) : nat := length (rows df).

(** [c in df.columns]. *)
Definition has_column (df : DataFrame) (c : string) : bool :=
  existsb (String.eqb c) (columns df).

(** One cell; a name that the row does not hold reads as NaN. *)
Definition row_cell (c : string) (r : Row) : cell :=
  match cells r !! c with
  | Some v => v
  | None => None
  end.

(** The values of a row under the given columns, in that order: one row of
    the matrix handed to an estimator. *)
Definition row_values (cols : list string) (r : Row) : list cell :=
  List.map (fun c => row_cell c r) cols.

Definition to_matrix (df : DataFrame) : list (list cell) :=
  List.map (row_values (columns df)) (rows df).

(** [df[c]]: the values of one column. *)
Definition column (df : DataFrame) (c : string) : result (list cell) :=
  if has_column df c then Ok (List.map (row_cell c) (rows df))
  else Raise (KeyError c).

Definition set_cell (c : string) (v : cell) (r : Row) : Row :=
  {| ix := ix r; cells := <[c := v]> (cells r) |}.

Definition add_column_name (c : string) (cols : list string) : list string :=
  if existsb (String.eqb c) cols then cols else cols ++ [c].

(** [df[c] = v] for a scalar [v]. *)
Definition assign_scalar (c : string) (v : Q) (df : DataFrame) : DataFrame :=
  {| columns := add_column_name c (columns df);
     rows := List.map (set_cell c (Some v)) (rows df) |}.

(** [df[c] = values] for an array of the length of the table. *)
Definition assign_values (c : string) (values : list cell) (df : DataFrame)
  : DataFrame :=
  {| columns := add_column_name c (columns df);
     rows := List.map (fun rv => set_cell c (snd rv) (fst rv))
                      (combine (rows df) values) |}.

(** The first name of [cols] that is not a column. *)
Definition first_missing (df : DataFrame) (cols : list string) : option string :=
  List.find (fun c => negb (has_column df c)) cols.

Definition restrict_row (cols : list string) (r : Row) : Row :=
  {| ix := ix r;
     cells := list_to_map (List.map (fun c => (c, row_cell c r)) cols) |}.

(** [df[cols]] for a list of names: those columns, in that order. *)
Definition select (df : DataFrame) (cols : list string) : result DataFrame :=
  match first_missing df cols with
  | Some c => Raise (KeyError c)
  | None => Ok {| columns := cols; rows := List.map (restrict_row cols) (rows df) |}
  end.

(** [df.iloc[:k]] and [df.iloc[k:]]. *)
Definition iloc_to (k : nat) (df : DataFrame) : DataFrame :=
  {| columns := columns df; rows := firstn k (rows df) |}.

Definition iloc_from (k : nat) (df : DataFrame) : DataFrame :=
  {| columns := columns df; rows := skipn k (rows df) |}.

(** [df[mask]] for a boolean array of the length of the table. *)
Definition mask_rows {A : Type} (mask : list bool) (l : list A) : list A :=
  List.map snd (List.filter fst (combine mask l)).

Definition boolean_index (mask : list bool) (df : DataFrame) : DataFrame :=
  {| columns := columns df; rows := mask_rows mask (rows df) |}.

(** The number of the given columns that are not NaN in a row. *)
Definition count_present (cols : list string) (r : Row) : nat :=
  length (List.filter (fun c => match row_cell c r with
                                | Some _ => true
                                | None => false
                                end) cols).

(** [df.dropna(subset=cols, thresh=n)]: the rows with at least [n] of the
    given columns present. *)
Definition dropna_thresh (cols : list string) (n : nat) (df : DataFrame)
  : DataFrame :=
  {| columns := columns df;
     rows := List.filter (fun r => (n <=? count_present cols r)%nat) (rows df) |}.

(** The rows are in index order. *)
Definition time_ordered (df : DataFrame) : Prop :=
  forall i j ri rj, (i <= j)%nat ->
    rows df !! i = Some ri -> rows df !! j = Some rj -> (ix ri <= ix rj)%Z.

End Frame.

(** ** models.py *)

Module Models.
Import Frame.

(** The keyword arguments of a LightGBM estimator that the code sets
    ([n_jobs] and [verbose] do not change what is fitted). *)
Record Params := {
  n_estimators : nat;
  learning_rate : Q;
  num_leaves : nat;
  max_depth : nat;
  min_child_samples : nat;
  subsample : Q;
  colsample_bytree : Q;
  reg_alpha : Q;
  reg_lambda : Q;
  objective : option string;
  metric : option string;
  alpha : option Q;
  is_unbalance : bool;
  tweedie_variance_power : option Q;
}.

Definition BASE_PARAMS : Params :=
  {| n_estimators := 1000;
     learning_rate := 5 # 100;
     num_leaves := 63;
     max_depth := 8;
     min_child_samples := 20;
     subsample := 8 # 10;
     colsample_bytree := 8 # 10;
     reg_alpha := 1 # 10;
     reg_lambda := 1;
     objective := None;
     metric := None;
     alpha := None;
     is_unbalance := false;
     tweedie_variance_power := None |}.

(** [{**BASE_PARAMS, "objective": objective, "metric": metric}]. *)
Definition target_params (objective metric : string) : Params :=
  {| n_estimators := 1000; learning_rate := 5 # 100; num_leaves := 63;
     max_depth := 8; min_child_samples := 20; subsample := 8 # 10;
     colsample_bytree := 8 # 10; reg_alpha := 1 # 10; reg_lambda := 1;
     objective := Some objective; metric := Some metric; alpha := None;
     is_unbalance := false; tweedie_variance_power := None |}.

(** [{**BASE_PARAMS, "objective": "quantile", "alpha": alpha,
      "n_estimators": 500, "num_leaves": 31}]. *)
Definition quantile_params (a : Q) : Params :=
  {| n_estimators := 500; learning_rate := 5 # 100; num_leaves := 31;
     max_depth := 8; min_child_samples := 20; subsample := 8 # 10;
     colsample_bytree := 8 # 10; reg_alpha := 1 # 10; reg_lambda := 1;
     objective := Some "quantile"; metric := None; alpha := Some a;
     is_unbalance := false; tweedie_variance_power := None |}.

(** [{**BASE_PARAMS, "objective": "binary", "is_unbalance": True}]. *)
Definition classifier_params : Params :=
  {| n_estimators := 1000; learning_rate := 5 # 100; num_leaves := 63;
     max_depth := 8; min_child_samples := 20; subsample := 8 # 10;
     colsample_bytree := 8 # 10; reg_alpha := 1 # 10; reg_lambda := 1;
     objective := Some "binary"; metric := None; alpha := None;
     is_unbalance := true; tweedie_variance_power := None |}.

(** [{**BASE_PARAMS, "objective": "tweedie", "tweedie_variance_power": 1.5}]. *)
Definition tweedie_params : Params :=
  {| n_estimators := 1000; learning_rate := 5 # 100; num_leaves := 63;
     max_depth := 8; min_child_samples := 20; subsample := 8 # 10;
     colsample_bytree := 8 # 10; reg_alpha := 1 # 10; reg_lambda := 1;
     objective := Some "tweedie"; metric := None; alpha := None;
     is_unbalance := false; tweedie_variance_power := Some (15 # 10) |}.

(** What a fitted LightGBM estimator holds: the names of the columns it was
    fitted on ([feature_name_]) and its prediction for one feature row.
    For a classifier the prediction is the probability of class 1
    ([predict_proba(X)[:, 1]]). *)
Record Booster := {
  feature_name_ : list string;
  predict_row : list cell -> Q;
}.

(** An [LGBMRegressor] or [LGBMClassifier] object. *)
Inductive Estimator :=
| Unfitted (params : Params)
| Fitted (params : Params) (booster : Booster).

(** The external numerical toolkit: what [fit] computes.  [lgbm_fit params
    X y eval_set early_stopping] is the prediction function LightGBM fits
    on tables that [fit] accepts (see [fit_refused] below), or the
    exception it raises; [isotonic_fit] is the fitted mapping of
    [IsotonicRegression(y_min=0, y_max=1, out_of_bounds="clip")]; the two
    metrics are scikit-learn's.  The fitted isotonic mapping takes its
    values between [y_min] and [y_max]. *)
Class Toolkit := {
  lgbm_fit : Params -> list (list cell) -> list Q ->
             option (list (list cell) * list Q) -> bool ->
             result (list cell -> Q);
  isotonic_fit : list Q -> list Q -> result (Q -> Q);
  isotonic_range : forall xs ys f x,
      isotonic_fit xs ys = Ok f -> (0 <= f x)%Q /\ (f x <= 1)%Q;
  brier_score_loss : list Q -> list Q -> result Q;
  roc_auc_score : list Q -> list Q -> result Q;
}.

Definition params_of (e : Estimator) : Params :=
  match e with
  | Unfitted p => p
  | Fitted p _ => p
  end.

(** LightGBM takes no table without rows, neither to fit on, nor to
    evaluate on, nor to predict for. *)
Definition EMPTY_TABLE : error :=
  ValueError "Input data must be 2 dimensional and non empty.".

(** The early-stopping callback needs an evaluation set. *)
Definition NO_EVALUATION : error :=
  ValueError "For early stopping, at least one dataset and eval metric is required for evaluation".

(** [LGBMClassifier.fit] encodes the labels of the evaluation set with the
    classes found in the training labels. *)
Definition UNSEEN_LABELS : error :=
  ValueError "y contains previously unseen labels".

(** [estimator.predict(X)]: an estimator that was never fitted raises; so
    does a table whose number of columns is not that of the fit, and then
    a table without rows. *)
Definition estimator_predict (e : Estimator) (X : DataFrame) : result (list Q) :=
  match e with
  | Unfitted _ => Raise NotFittedError
  | Fitted _ b =>
      if (length (columns X) =? length (feature_name_ b))%nat
      then match rows X with
           | [] => Raise EMPTY_TABLE
           | _ :: _ => Ok (List.map (predict_row b) (to_matrix X))
           end
      else Raise (ValueError "Number of features of the model must match the input")
  end.

(** The rows of [X] whose label is present, with the label:
    [y.dropna()], [common = yt.index.intersection(X.index)], [X.loc[common]]
    and [yt.loc[common]].  [X] and [y] are cut from one table, so the row
    [i] of one is the row [i] of the other. *)
Definition labelled (X : DataFrame) (y : list cell) : list (Row * Q) :=
  flat_map (fun ry => match snd ry with
                      | Some v => [(fst ry, v)]
                      | None => []
                      end) (combine (rows X) y).

Definition rows_matrix (cols : list string) (rs : list Row) : list (list cell) :=
  List.map (row_values cols) rs.

(** The matrix and the labels of labelled rows of a table with the columns
    [cols]. *)
Definition labelled_matrix (cols : list string) (l : list (Row * Q))
  : list (list cell) * list Q :=
  (rows_matrix cols (List.map fst l), List.map snd l).

(** [np.mean(np.abs(a - b))]; NaN for empty arrays. *)
Definition mean_abs_error (a b : list Q) : cell :=
  match a with
  | [] => None
  | _ => Some (fold_right Qplus 0 (List.map (fun ab => Qabs (fst ab - snd ab)) (combine a b))
               / inject_Z (Z.of_nat (length a)))%Q
  end.

(** *** WeatherPredictor *)

Record WeatherPredictor := {
  models : list (string * Estimator);
  quantile_models : list (string * list (Q * Estimator));
}.

(** [WeatherPredictor()]. *)
Definition new_weather_predictor : WeatherPredictor :=
  {| models := []; quantile_models := [] |}.

(** [self.targets]: target, objective, metric. *)
Definition targets : list (string * (string * string)) :=
  [ ("temperature", ("regression", "mae"));
    ("humidity", ("regression", "mae"));
    ("wind_speed", ("regression", "mae"));
    ("wind_direction", ("regression", "mae")) ].

Definition target_to_obs_col : list (string * string) :=
  [ ("temperature", "obs_temp");
    ("humidity", "obs_humidity");
    ("wind_speed", "obs_wind_speed");
    ("wind_direction", "obs_wind_dir") ].

(** An estimator fitted on exactly the columns [cols], in that order. *)
Definition has_features (cols : list string) (e : Estimator) : Prop :=
  exists params f,
    e = Fitted params {| feature_name_ := cols; predict_row := f |}.

(** The alphas of a list are different numbers. *)
Fixpoint distinct_alphas (alphas : list Q) : bool :=
  match alphas with
  | [] => true
  | a :: alphas' =>
      forallb (fun b => negb (Qeq_bool a b)) alphas' && distinct_alphas alphas'
  end.

Section WithToolkit.
Context `{Toolkit}.

(** What [fit] refuses before anything is fitted: a training table without
    rows, an evaluation table without rows, and early stopping without an
    evaluation set. *)
Definition fit_refused (train : list (Row * Q))
           (eval_set : option (list (list cell) * list Q))
           (early_stopping : bool) : option error :=
  match train with
  | [] => Some EMPTY_TABLE
  | _ :: _ =>
      match eval_set with
      | Some ([], _) => Some EMPTY_TABLE
      | Some (_ :: _, _) => None
      | None => if early_stopping then Some NO_EVALUATION else None
      end
  end.

(** [fit] of an estimator with the given parameters, on the given rows of
    a table with the columns [cols]; [eval_set] is the matrix and the
    labels of the validation rows, [early_stopping] whether the callback
    [lgb.early_stopping] is passed. *)
Definition fit_estimator (params : Params) (cols : list string)
           (train : list (Row * Q))
           (eval_set : option (list (list cell) * list Q))
           (early_stopping : bool) : result Estimator :=
  match fit_refused train eval_set early_stopping with
  | Some e => Raise e
  | None =>
      f ← lgbm_fit params
            (rows_matrix cols (List.map fst train)) (List.map snd train)
            eval_set early_stopping;
      Ok (Fitted params {| feature_name_ := cols; predict_row := f |})
  end.

(** The labels of the evaluation set that are no label of the training
    rows. *)
Definition unseen_labels (y_train y_val : list Q) : list Q :=
  List.filter (fun v => negb (existsb (Qeq_bool v) y_train)) y_val.

(** [fit] of a classifier: the labels of the evaluation set are encoded
    first, and a label that the training rows do not hold is refused. *)
Definition fit_classifier (params : Params) (cols : list string)
           (train : list (Row * Q)) (eval_set : list (list cell) * list Q)
           (early_stopping : bool) : result Estimator :=
  match unseen_labels (List.map snd train) (snd eval_set) with
  | [] => fit_estimator params cols train (Some eval_set) early_stopping
  | _ :: _ => Raise UNSEEN_LABELS
  end.

(** [for alpha in alphas: ...; quantile_models[alpha] = qmodel]. *)
Fixpoint fit_quantiles (alphas : list Q) (cols : list string)
         (train : list (Row * Q)) (acc : list (Q * Estimator))
  : result (list (Q * Estimator)) :=
  match alphas with
  | [] => Ok acc
  | a :: alphas' =>
      qmodel ← fit_estimator (quantile_params a) cols train None false;
      fit_quantiles alphas' cols train (dict_set Qeq_bool a qmodel acc)
  end.

(** [e] is the quantile model of [a] fitted on the rows [train]. *)
Definition fitted_quantile (cols : list string) (train : list (Row * Q))
           (a : Q) (e : Estimator) : Prop :=
  exists f,
    lgbm_fit (quantile_params a) (rows_matrix cols (List.map fst train))
             (List.map snd train) None false = Ok f
    /\ e = Fitted (quantile_params a) {| feature_name_ := cols; predict_row := f |}.

(** The state of [WeatherPredictor.train] while it loops over the
    targets. *)
Record WeatherTraining := {
  wt_self : WeatherPredictor;
  wt_scores : list (string * cell);
  wt_log : list message;
}.

(** One turn of the loop of [WeatherPredictor.train]. *)
Definition train_target (X_train y_train X_val y_val : DataFrame)
           (st : WeatherTraining) (target : string) (info : string * string)
  : result WeatherTraining :=
  match dict_get String.eqb target target_to_obs_col with
  | None => Raise (KeyError target)
  | Some obs_col =>
      if negb (has_column y_train obs_col) then Ok st
      else
        yt ← column y_train obs_col;
        let common := labelled X_train yt in
        if (length common <? 100)%nat
        then Ok {| wt_self := wt_self st; wt_scores := wt_scores st;
                   wt_log := wt_log st ++ [MsgSkipping target (length common)] |}
        else
          yv ← column y_val obs_col;
          let val_common := labelled X_val yv in
          model ← fit_estimator (target_params (fst info) (snd info))
                    (columns X_train) common
                    (Some (labelled_matrix (columns X_val) val_common)) true;
          preds ← estimator_predict model
                    {| columns := columns X_val; rows := List.map fst val_common |};
          let mae := mean_abs_error preds (List.map snd val_common) in
          qmodels ← fit_quantiles [1 # 10; 9 # 10] (columns X_train) common [];
          Ok {| wt_self :=
                  {| models := dict_set String.eqb target model (models (wt_self st));
                     quantile_models :=
                       dict_set String.eqb target qmodels
                                (quantile_models (wt_self st)) |};
                wt_scores := dict_set String.eqb target mae (wt_scores st);
                wt_log := wt_log st ++ [MsgValMAE target mae] |}
  end.

Fixpoint train_targets (X_train y_train X_val y_val : DataFrame)
         (ts : list (string * (string * string))) (st : WeatherTraining)
  : result WeatherTraining :=
  match ts with
  | [] => Ok st
  | (target, info) :: ts' =>
      st' ← train_target X_train y_train X_val y_val st target info;
      train_targets X_train y_train X_val y_val ts' st'
  end.

(** [WeatherPredictor.train]: the predictor after training, the scores and
    what was printed. *)
Definition weather_train (self : WeatherPredictor)
           (X_train y_train X_val y_val : DataFrame) : result WeatherTraining :=
  train_targets X_train y_train X_val y_val targets
                {| wt_self := self; wt_scores := []; wt_log := [] |}.

End WithToolkit.

(** [results[f"{target}_q10"]] and [results[f"{target}_q90"]] when the
    target has quantile models. *)
Definition predict_interval (self : WeatherPredictor) (X : DataFrame)
           (target : string) (results : gmap string (list Q))
  : result (gmap string (list Q)) :=
  match dict_get String.eqb target (quantile_models self) with
  | None => Ok results
  | Some qs =>
      match dict_get Qeq_bool (1 # 10) qs with
      | None => Raise (KeyError "0.1")
      | Some q10 =>
          lo ← estimator_predict q10 X;
          match dict_get Qeq_bool (9 # 10) qs with
          | None => Raise (KeyError "0.9")
          | Some q90 =>
              hi ← estimator_predict q90 X;
              Ok (<[(target ++ "_q90")%string := hi]>
                    (<[(target ++ "_q10")%string := lo]> results))
          end
      end
  end.

(** The loop of [WeatherPredictor.predict] over [self.models.items()]. *)
Fixpoint predict_targets (self : WeatherPredictor) (X : DataFrame)
         (items : list (string * Estimator)) (results : gmap string (list Q))
  : result (gmap string (list Q)) :=
  match items with
  | [] => Ok results
  | (target, model) :: items' =>
      point ← estimator_predict model X;
      results' ← predict_interval self X target (<[target := point]> results);
      predict_targets self X items' results'
  end.

(** The physical constraints at the end of [WeatherPredictor.predict]. *)
Definition clip_humidity (results : gmap string (list Q)) : gmap string (list Q) :=
  match results !! "humidity" with
  | Some a => <["humidity" := List.map (fun v => np_clip v 0 100) a]> results
  | None => results
  end.

Definition floor_wind_speed (results : gmap string (list Q)) : gmap string (list Q) :=
  match results !! "wind_speed" with
  | Some a => <["wind_speed" := List.map (fun v => np_maximum v 0) a]> results
  | None => results
  end.

(** [WeatherPredictor.predict]. *)
Definition weather_predict (self : WeatherPredictor) (X : DataFrame)
  : result (gmap string (list Q)) :=
  results ← predict_targets self X (models self) ∅;
  Ok (floor_wind_speed (clip_humidity results)).

(** The estimators that a weather bundle holds: the point models and the
    quantile models. *)
Definition weather_estimator (self : WeatherPredictor) (e : Estimator) : Prop :=
  (exists target, In (target, e) (models self))
  \/ (exists target qs a, In (target, qs) (quantile_models self) /\ In (a, e) qs).

(** *** PrecipitationPredictor *)

Record PrecipitationPredictor := {
  classifier : Estimator;
  regressor : Estimator;
  precip_quantile_models : list (Q * Estimator);
  calibrator : option (Q -> Q);
}.

(** [PrecipitationPredictor()]: nothing is fitted. *)
Definition new_precipitation_predictor : PrecipitationPredictor :=
  {| classifier := Unfitted classifier_params;
     regressor := Unfitted tweedie_params;
     precip_quantile_models := [];
     calibrator := None |}.

(** [(y >= PRECIP_THRESHOLD_MM)]. *)
Definition rain_mask (y : list Q) : list bool :=
  List.map (fun v => Qle_bool Config.PRECIP_THRESHOLD_MM v) y.

(** [mask.astype(int)]. *)
Definition as_int (mask : list bool) : list Q :=
  List.map (fun b : bool => if b then 1%Q else 0%Q) mask.

(** [mask.sum()]. *)
Definition mask_sum (mask : list bool) : nat :=
  length (List.filter (fun b : bool => b) mask).

(** The rows picked by a mask, with their labels:
    [X[mask]] and [y[mask]]. *)
Definition masked (mask : list bool) (X : DataFrame) (y : list Q)
  : list (Row * Q) :=
  mask_rows mask (combine (rows X) y).

Section PrecipWithToolkit.
Context `{Toolkit}.

(** Stage 2 of [PrecipitationPredictor.train]: the amount regressor and
    the quantile models, guarded by the number of rainy training rows. *)
Definition train_amount (self : PrecipitationPredictor)
           (X_train : DataFrame) (y_train_precip : list Q)
           (X_val : DataFrame) (y_val_precip : list Q)
  : result (Estimator * list (Q * Estimator)) :=
  let rain_mask_train := rain_mask y_train_precip in
  let rain_mask_val := rain_mask y_val_precip in
  if (100 <? mask_sum rain_mask_train)%nat then
    let rainy := masked rain_mask_train X_train y_train_precip in
    reg ← fit_estimator (params_of (regressor self)) (columns X_train) rainy
            (if (10 <? mask_sum rain_mask_val)%nat
             then Some (labelled_matrix (columns X_val)
                                        (masked rain_mask_val X_val y_val_precip))
             else None)
            true;
    qs ← fit_quantiles [1 # 10; 25 # 100; 5 # 10; 75 # 100; 9 # 10]
           (columns X_train) rainy (precip_quantile_models self);
    Ok (reg, qs)
  else Ok (regressor self, precip_quantile_models self).

(** [PrecipitationPredictor.train]: the predictor after training, the
    scores and what was printed. *)
Definition precip_train (self : PrecipitationPredictor)
           (X_train : DataFrame) (y_train_precip : list Q)
           (X_val : DataFrame) (y_val_precip : list Q)
  : result (PrecipitationPredictor * list (string * Q) * list message) :=
  let y_binary_train := as_int (rain_mask y_train_precip) in
  let y_binary_val := as_int (rain_mask y_val_precip) in
  clf ← fit_classifier (params_of (classifier self)) (columns X_train)
          (combine (rows X_train) y_binary_train)
          (labelled_matrix (columns X_val) (combine (rows X_val) y_binary_val))
          true;
  raw_probs ← estimator_predict clf X_val;
  cal ← isotonic_fit raw_probs y_binary_val;
  stage2 ← train_amount self X_train y_train_precip X_val y_val_precip;
  let cal_probs := List.map cal raw_probs in
  brier ← brier_score_loss y_binary_val cal_probs;
  auc ← roc_auc_score y_binary_val cal_probs;
  Ok ({| classifier := clf;
         regressor := fst stage2;
         precip_quantile_models := snd stage2;
         calibrator := Some cal |},
      [("brier", brier); ("auc", auc)],
      [MsgPrecipScores brier auc]).

End PrecipWithToolkit.

(** [f"precip_q{int(alpha*100):02d}_mm"]. *)
Definition quantile_key (a : Q) : string :=
  ("precip_q" ++ format_02d (py_int (a * 100)) ++ "_mm")%string.

(** The loop of [PrecipitationPredictor.predict] over
    [self.quantile_models.items()]. *)
Fixpoint predict_quantiles (X : DataFrame) (prob : list Q)
         (items : list (Q * Estimator)) (results : gmap string (list Q))
  : result (gmap string (list Q)) :=
  match items with
  | [] => Ok results
  | (a, qmodel) :: items' =>
      raw ← estimator_predict qmodel X;
      let q := List.map (fun v => np_maximum v 0) raw in
      predict_quantiles X prob items' (<[quantile_key a := np_multiply q prob]> results)
  end.

(** The calibrated probability of each row. *)
Definition calibrate (self : PrecipitationPredictor) (raw_probs : list Q) : list Q :=
  match calibrator self with
  | Some cal => List.map cal raw_probs
  | None => raw_probs
  end.

(** The probabilities that a predictor serves lie in the unit interval:
    the calibrator's values when there is one, else the classifier's. *)
Definition serves_probabilities (self : PrecipitationPredictor) : Prop :=
  match calibrator self with
  | Some cal => forall x, (0 <= cal x)%Q /\ (cal x <= 1)%Q
  | None => forall p b row, classifier self = Fitted p b ->
                            (0 <= predict_row b row)%Q /\ (predict_row b row <= 1)%Q
  end.

(** [PrecipitationPredictor.predict]. *)
Definition precip_predict (self : PrecipitationPredictor) (X : DataFrame)
  : result (gmap string (list Q)) :=
  raw_probs ← estimator_predict (classifier self) X;
  let prob := calibrate self raw_probs in
  raw_amount ← estimator_predict (regressor self) X;
  let raw_amount := List.map (fun v => np_maximum v 0) raw_amount in
  let results : gmap string (list Q) :=
    <["precip_if_rain_mm" := raw_amount]>
      (<["precip_expected_mm" := np_multiply prob raw_amount]>
         (<["precip_probability" := prob]> ∅)) in
  predict_quantiles X prob (precip_quantile_models self) results.

(** *** save and load

    What [joblib.dump] writes: the dictionary of one of the two
    predictors. *)
Inductive Pickle :=
| WeatherBundle (models : list (string * Estimator))
                (quantile_models : list (string * list (Q * Estimator)))
| PrecipBundle (classifier regressor : Estimator) (calibrator : option (Q -> Q))
               (quantile_models : list (Q * Estimator)).

(** The files that hold model bundles, by path. *)
Definition FileSystem : Type := gmap string Pickle.

Definition weather_save (self : WeatherPredictor) (path : string)
           (fs : gmap string Pickle) : gmap string Pickle :=
  <[path := WeatherBundle (models self) (quantile_models self)]> fs.

Definition weather_load (path : string) (fs : gmap string Pickle)
  : result WeatherPredictor :=
  match fs !! path with
  | None => Raise (FileNotFoundError path)
  | Some (WeatherBundle m q) => Ok {| models := m; quantile_models := q |}
  | Some (PrecipBundle _ _ _ _) => Raise (KeyError "models")
  end.

Definition precip_save (self : PrecipitationPredictor) (path : string)
           (fs : gmap string Pickle) : gmap string Pickle :=
  <[path := PrecipBundle (classifier self) (regressor self) (calibrator self)
                         (precip_quantile_models self)]> fs.

Definition precip_load (path : string) (fs : gmap string Pickle)
  : result PrecipitationPredictor :=
  match fs !! path with
  | None => Raise (FileNotFoundError path)
  | Some (PrecipBundle c r cal q) =>
      Ok {| classifier := c; regressor := r; precip_quantile_models := q;
            calibrator := cal |}
  | Some (WeatherBundle _ _) => Raise (KeyError "classifier")
  end.

(** Whether [WeatherPredictor.train] fits the models of a target: the
    column of its observations is in [y_train], and at least 100 training
    rows have the observation. *)
Definition trains (X_train y_train : DataFrame) (target : string) : bool :=
  match dict_get String.eqb target target_to_obs_col with
  | Some obs_col =>
      match column y_train obs_col with
      | Ok yt => (100 <=? length (labelled X_train yt))%nat
      | Raise _ => false
      end
  | None => false
  end.

End Models.

(** ** features.py *)

Module Features.
Import Frame.

(** [build_feature_set]: the engineered table.  Its columns are computed
    with sines, cosines and rolling statistics of the input; what is
    proved below holds for whatever table it returns. *)
Class FeatureBuilder := {
  build_feature_set : DataFrame -> result DataFrame;
}.

(** [needle in c]. *)
Definition contains (needle c : string) : bool :=
  match String.index 0 needle c with
  | Some _ => true
  | None => false
  end.

(** [include_even_if_obs]: the lag, rolling and bias columns. *)
Definition include_even_if_obs (c : string) : bool :=
  contains "lag_" c || contains "roll_" c || contains "bias_" c.

(** Insertion of a name into a sorted list without duplicates. *)
Fixpoint insert_sorted (c : string) (l : list string) : list string :=
  match l with
  | [] => [c]
  | d :: l' =>
      match String.compare c d with
      | Lt => c :: l
      | Eq => l
      | Gt => d :: insert_sorted c l'
      end
  end.

(** [sorted(set(l))]. *)
Definition sorted_set (l : list string) : list string :=
  fold_right insert_sorted [] l.

(** [get_feature_columns].  Every column of the tables built here holds
    numbers, so the dtype test of the last branch of the loop passes. *)
Definition get_feature_columns (df : DataFrame) : list string :=
  let feature_cols :=
    List.filter (fun col =>
                   if include_even_if_obs col then true
                   else if String.prefix "obs_" col then false
                   else if String.eqb col "lead_hours" then false
                   else true) (columns df) in
  let feature_cols :=
    if has_column df "lead_hours"
       && negb (existsb (String.eqb "lead_hours") feature_cols)
    then feature_cols ++ ["lead_hours"] else feature_cols in
  sorted_set feature_cols.

End Features.

(** ** Running a program: files, output and exits *)

Module Runtime.
Import Frame Models.

(** latest_forecast.json ([location] is constant and left out). *)
Record ForecastFile := {
  generated_at : string;
  hourly : list HourlyRecord;
}.

(** What a run of train.py or predict.py can change. *)
Record World := {
  files : gmap string Pickle;
  latest_forecast : option ForecastFile;
  stdout : list message;
}.

(** How a run ends early: [sys.exit(code)] or an exception that nothing
    catches. *)
Inductive stop :=
| SysExit (code : Z)
| Uncaught (e : error).

Inductive step (A : Type) :=
| Done (a : A)
| Stop (s : stop).
Arguments Done {A} a.
Arguments Stop {A} s.

(** A program: from the world before to its end and the world after. *)
Definition prog (A : Type) : Type := World -> step A * World.

#[global] Instance prog_ret : MRet prog := fun A a w => (Done a, w).
#[global] Instance prog_bind : MBind prog := fun A B f m w =>
  match m w with
  | (Done a, w') => f a w'
  | (Stop s, w') => (Stop s, w')
  end.

(** [print(...)]. *)
Definition print (m : message) : prog unit := fun w =>
  (Done tt, {| files := files w; latest_forecast := latest_forecast w;
               stdout := stdout w ++ [m] |}).

Definition print_all (ms : list message) : prog unit := fun w =>
  (Done tt, {| files := files w; latest_forecast := latest_forecast w;
               stdout := stdout w ++ ms |}).

(** [sys.exit(code)]. *)
Definition sys_exit {A : Type} (code : Z) : prog A := fun w => (Stop (SysExit code), w).

(** A call that may raise, inside a program. *)
Definition call {A : Type} (r : result A) : prog A := fun w =>
  match r with
  | Ok a => (Done a, w)
  | Raise e => (Stop (Uncaught e), w)
  end.

Definition read_files : prog (gmap string Pickle) := fun w => (Done (files w), w).

Definition write_files (fs : gmap string Pickle) : prog unit := fun w =>
  (Done tt, {| files := fs; latest_forecast := latest_forecast w;
               stdout := stdout w |}).

Definition write_forecast (f : ForecastFile) : prog unit := fun w =>
  (Done tt, {| files := files w; latest_forecast := Some f; stdout := stdout w |}).

(** A program that leaves the bundle files as they are, however it
    ends. *)
Definition keeps_files {A : Type} (m : prog A) : Prop :=
  forall w, files (snd (m w)) = files w.

(** The exit status of the process. *)
Definition exit_status {A : Type} (s : step A) : Z :=
  match s with
  | Done _ => 0
  | Stop (SysExit code) => code
  | Stop (Uncaught _) => 1
  end.

End Runtime.

(** ** predict.py *)

Module Predict.
Import Frame Models Features Runtime.

(** [results[key][i]]. *)
Definition result_at (results : gmap string (list Q)) (key : string) (i : nat)
  : result Q :=
  match results !! key with
  | None => Raise (KeyError key)
  | Some a => match a !! i with
              | Some v => Ok v
              | None => Raise IndexError
              end
  end.

(** [int(df["lead_hours"].iloc[i])]. *)
Definition lead_hours_at (df : DataFrame) (i : nat) : result Z :=
  col ← column df "lead_hours";
  match col !! i with
  | None => Raise IndexError
  | Some None => Raise (ValueError "cannot convert float NaN to integer")
  | Some (Some v) => Ok (py_int v)
  end.

(** [trained_features = wp.models["temperature"].feature_name_]. *)
Definition trained_features_of (wp : WeatherPredictor) : result (list string) :=
  match dict_get String.eqb "temperature" (models wp) with
  | None => Raise (KeyError "temperature")
  | Some (Unfitted _) => Raise NotFittedError
  | Some (Fitted _ b) => Ok (feature_name_ b)
  end.

(** [missing = [c for c in trained_features if c not in df.columns]]. *)
Definition missing_features (trained_features : list string) (df : DataFrame)
  : list string :=
  List.filter (fun c => negb (has_column df c)) trained_features.

(** [for col in missing: df[col] = 0]. *)
Definition fill_missing (missing : list string) (df : DataFrame) : DataFrame :=
  fold_left (fun d col => assign_scalar col 0 d) missing df.

(** The loop [for col in missing: df[col] = 0] on one row. *)
Definition fill_row (missing : list string) (r : Row) : Row :=
  fold_left (fun r col => set_cell col (Some 0%Q) r) missing r.

(** What is printed about the gap:
    [if missing: print(f"Missing {len(missing)} features, filling with 0:
    {missing[:5]}...")]. *)
Definition report_messages (missing : list string) : list message :=
  match missing with
  | [] => []
  | _ :: _ => [MsgMissingFeatures (length missing) (firstn 5 missing)]
  end.

(** The world after the report of the gap. *)
Definition reported (missing : list string) (w : World) : World :=
  {| files := files w; latest_forecast := latest_forecast w;
     stdout := stdout w ++ report_messages missing |}.

(** The alignment of the engineered table to the trained features: the
    table with the missing columns filled, and [X = df[trained_features]]. *)
Definition align (trained_features : list string) (df : DataFrame)
  : prog (DataFrame * DataFrame) :=
  let missing := missing_features trained_features df in
  df' ← match missing with
        | [] => mret df
        | _ :: _ =>
            _ ← print (MsgMissingFeatures (length missing) (firstn 5 missing));
            mret (fill_missing missing df)
        end;
  X ← call (select df' trained_features);
  mret (df', X).

(** A row [x] of the aligned table against the row [r] of the engineered
    table: every trained feature holds the engineered value, or zero when
    the engineered table has no such column, and nothing else is kept. *)
Definition aligned_row (trained_features : list string) (df : DataFrame)
           (r x : Row) : Prop :=
  ix x = ix r
  /\ (forall c, In c trained_features ->
                row_cell c x = if has_column df c then row_cell c r else Some 0%Q)
  /\ (forall c, ~ In c trained_features -> cells x !! c = None).

(** One entry of [forecast_rows]. *)
Definition forecast_row (df : DataFrame) (weather precip : gmap string (list Q))
           (it : nat * Row) : result HourlyRecord :=
  let i := fst it in
  lead ← lead_hours_at df i;
  temperature ← result_at weather "temperature" i;
  humidity ← result_at weather "humidity" i;
  wind_speed ← result_at weather "wind_speed" i;
  probability ← result_at precip "precip_probability" i;
  expected ← result_at precip "precip_expected_mm" i;
  temperature_range ←
    match weather !! "temperature_q10" with
    | None => Ok None
    | Some _ =>
        lo ← result_at weather "temperature_q10" i;
        hi ← result_at weather "temperature_q90" i;
        Ok (Some (py_round lo 1, py_round hi 1))
    end;
  precip_range ←
    match precip !! "precip_q10_mm" with
    | None => Ok None
    | Some _ =>
        lo ← result_at precip "precip_q10_mm" i;
        hi ← result_at precip "precip_q90_mm" i;
        Ok (Some (py_round lo 2, py_round hi 2))
    end;
  Ok {| hr_time := ix (snd it);
        hr_lead_hours := lead;
        temperature_c := py_round temperature 1;
        humidity_pct := py_round humidity 0;
        wind_speed_kmh := py_round wind_speed 1;
        precip_probability_pct := py_round (probability * 100) 0;
        precip_expected_mm := py_round expected 2;
        temperature_range_c := temperature_range;
        precip_range_mm := precip_range |}.

(** [main] from the two predictions on: [df] is the engineered table with
    the missing columns filled, [X] the aligned table. *)
Definition serve_aligned (wp : WeatherPredictor) (pp : PrecipitationPredictor)
           (df X : DataFrame) (now : string) : prog unit :=
  weather ← call (weather_predict wp X);
  precip ← call (precip_predict pp X);
  forecast_rows ← call (mapM (forecast_row df weather precip) (enumerate (rows df)));
  _ ← write_forecast {| generated_at := now; hourly := forecast_rows |};
  _ ← print (MsgWrote (length forecast_rows));
  _ ← print MsgPreviewHeader;
  print_all (List.map MsgPreviewRow (firstn 24 forecast_rows)).

(** [main] from the engineered table on.  ([feature_cols] and [available]
    are computed and not used.) *)
Definition main_on_features (wp : WeatherPredictor) (pp : PrecipitationPredictor)
           (df : DataFrame) (now : string) : prog unit :=
  trained_features ← call (trained_features_of wp);
  aligned ← align trained_features df;
  serve_aligned wp pp (fst aligned) (snd aligned) now.

(** An estimator fitted on [n] features. *)
Definition fitted_on (n : nat) (e : Estimator) : Prop :=
  exists params booster,
    e = Fitted params booster /\ length (feature_name_ booster) = n.

(** A weather bundle that serves: its models are those of targets of
    [WeatherPredictor], temperature, humidity and wind speed among them,
    every estimator is fitted on [n] features, and every set of quantile
    models holds the two alphas. *)
Definition weather_serves (n : nat) (wp : WeatherPredictor) : Prop :=
  (forall target e, In (target, e) (models wp) ->
                    In target (List.map fst targets) /\ fitted_on n e)
  /\ (forall target, In target ["temperature"; "humidity"; "wind_speed"] ->
                     exists e, In (target, e) (models wp))
  /\ (forall target qs, In (target, qs) (quantile_models wp) ->
        exists q10 q90,
          dict_get Qeq_bool (1 # 10) qs = Some q10
          /\ dict_get Qeq_bool (9 # 10) qs = Some q90
          /\ fitted_on n q10 /\ fitted_on n q90).

(** A precipitation bundle that serves: the classifier, the regressor and
    the quantile models are fitted on [n] features, and the quantile models
    are none or those of the five alphas of training. *)
Definition precip_serves (n : nat) (pp : PrecipitationPredictor) : Prop :=
  fitted_on n (classifier pp)
  /\ fitted_on n (regressor pp)
  /\ (forall a e, In (a, e) (precip_quantile_models pp) -> fitted_on n e)
  /\ (List.map fst (precip_quantile_models pp) = []
      \/ List.map fst (precip_quantile_models pp)
         = [1 # 10; 25 # 100; 5 # 10; 75 # 100; 9 # 10]).

(** The engineered table carries the lead time of every hour. *)
Definition lead_hours_known (df : DataFrame) : Prop :=
  has_column df "lead_hours" = true
  /\ forall r, In r (rows df) -> exists v, row_cell "lead_hours" r = Some v.

Section WithFeatures.
Context `{FeatureBuilder}.

(** [main].  [fetched] is what [fetch_current_forecast()] returns, or the
    exception it raises; [now] is the time of the run. *)
Definition main (fetched : result DataFrame) (now : string) : prog unit :=
  _ ← print MsgLoadingModels;
  fs ← read_files;
  wp ← call (weather_load Config.MODEL_PATH fs);
  pp ← call (precip_load Config.PRECIP_MODEL_PATH fs);
  _ ← print MsgFetching;
  df ← call fetched;
  df ← call (build_feature_set df);
  main_on_features wp pp df now.

End WithFeatures.

End Predict.

(** ** train.py *)

Module Train.
Import Frame Models Features Runtime.

(** pandas' parser of the time text ([parse_dates=["time"]]). *)
Class Pandas := {
  to_datetime : string -> Timestamp;
}.

(** The names of the columns of the paired table, in the order of the
    SELECT list ([time] is the index). *)
Definition paired_columns : list string :=
  [ "obs_temp"; "obs_dewpoint"; "obs_humidity"; "obs_pressure";
    "obs_wind_speed"; "obs_wind_dir"; "obs_precip"; "obs_cloud";
    "fcst_temp"; "fcst_dewpoint"; "fcst_humidity"; "fcst_pressure";
    "fcst_surface_pressure"; "fcst_wind_speed"; "fcst_wind_dir";
    "fcst_wind_gust"; "fcst_precip"; "fcst_precip_prob"; "fcst_cloud";
    "fcst_cape"; "fcst_visibility"; "lead_hours" ].

Definition paired_cells (p : Db.PairedRow) : gmap string cell :=
  list_to_map
    [ ("obs_temp", Db.obs_temp p); ("obs_dewpoint", Db.obs_dewpoint p);
      ("obs_humidity", Db.obs_humidity p); ("obs_pressure", Db.obs_pressure p);
      ("obs_wind_speed", Db.obs_wind_speed p); ("obs_wind_dir", Db.obs_wind_dir p);
      ("obs_precip", Db.obs_precip p); ("obs_cloud", Db.obs_cloud p);
      ("fcst_temp", Db.fcst_temp p); ("fcst_dewpoint", Db.fcst_dewpoint p);
      ("fcst_humidity", Db.fcst_humidity p); ("fcst_pressure", Db.fcst_pressure p);
      ("fcst_surface_pressure", Db.fcst_surface_pressure p);
      ("fcst_wind_speed", Db.fcst_wind_speed p);
      ("fcst_wind_dir", Db.fcst_wind_dir p);
      ("fcst_wind_gust", Db.fcst_wind_gust p);
      ("fcst_precip", Db.fcst_precip p);
      ("fcst_precip_prob", Db.fcst_precip_prob p);
      ("fcst_cloud", Db.fcst_cloud p); ("fcst_cape", Db.fcst_cape p);
      ("fcst_visibility", Db.fcst_visibility p);
      ("lead_hours", option_map inject_Z (Db.lead_hours p)) ].

(** [int(n * 0.8)].  The double nearest to [0.8 * n] has the integer part
    of [4 * n / 5] for every table that fits in memory. *)
Definition split_index (n : nat) : nat := (4 * n / 5)%nat.

(** The time-based split: [train_df = df.iloc[:split_idx]] and
    [val_df = df.iloc[split_idx:]]. *)
Definition time_split (df : DataFrame) : DataFrame * DataFrame :=
  let split_idx := split_index (len df) in
  (iloc_to split_idx df, iloc_from split_idx df).

(** [df.index.min()] and [df.index.max()]; [None] for an empty table. *)
Definition index_min (df : DataFrame) : option Z :=
  match rows df with
  | [] => None
  | r :: rs => Some (fold_left Z.min (List.map ix rs) (ix r))
  end.

Definition index_max (df : DataFrame) : option Z :=
  match rows df with
  | [] => None
  | r :: rs => Some (fold_left Z.max (List.map ix rs) (ix r))
  end.

(** [obs_cols = [c for c in df.columns if c.startswith("obs_")]]. *)
Definition obs_columns (df : DataFrame) : list string :=
  List.filter (String.prefix "obs_") (columns df).

(** [np.mean(np.abs(a - b))] on arrays that may hold NaN. *)
Definition mean_abs_error_cells (a b : list cell) : cell :=
  ab ← mapM (fun xy => x ← fst xy; y ← snd xy; Some (x, y)) (combine a b);
  mean_abs_error (List.map fst ab) (List.map snd ab).

(** [(1 - temp_mae / nwp_mae) * 100 if nwp_mae > 0 else 0]. *)
Definition improvement (temp_mae nwp_mae : cell) : cell :=
  match nwp_mae with
  | Some n =>
      if Qle_bool n 0 then Some 0%Q
      else match temp_mae with
           | Some t => Some ((1 - t / n) * 100)%Q
           | None => None
           end
  | None => Some 0%Q
  end.

(** One turn of the loop over the lead times of the summary. *)
Definition lead_time_line (val_df : DataFrame) (preds : gmap string (list Q))
           (lead : Z) : prog unit :=
  leads ← call (column val_df "lead_hours");
  let mask := List.map (fun v : cell => match v with
                                        | Some q => Qeq_bool q (inject_Z lead)
                                        | None => false
                                        end) leads in
  let n := mask_sum mask in
  if (n <? 10)%nat then mret tt
  else
    temperature ← call (match preds !! "temperature" with
                        | Some a => Ok a
                        | None => Raise (KeyError "temperature")
                        end);
    obs_temp ← call (column val_df "obs_temp");
    let temp_mae := mean_abs_error_cells
                      (List.map Some (mask_rows mask temperature))
                      (mask_rows mask obs_temp) in
    fcst_temp ← call (column val_df "fcst_temp");
    let nwp_mae := mean_abs_error_cells (mask_rows mask fcst_temp)
                                        (mask_rows mask obs_temp) in
    print (MsgLeadTime lead n temp_mae nwp_mae (improvement temp_mae nwp_mae)).

Fixpoint lead_time_lines (val_df : DataFrame) (preds : gmap string (list Q))
         (leads : list Z) : prog unit :=
  match leads with
  | [] => mret tt
  | lead :: leads' =>
      _ ← lead_time_line val_df preds lead;
      lead_time_lines val_df preds leads'
  end.

Section WithToolkit.
Context `{Toolkit} `{FeatureBuilder} `{Pandas}.

(** The table that [db.load_paired_data()] returns. *)
Definition paired_frame (db : Db.Database) : DataFrame :=
  {| columns := paired_columns;
     rows := List.map (fun p => {| ix := to_datetime (Db.time p);
                                   cells := paired_cells p |})
                      (Db.load_paired_data db) |}.

(** The summary by lead time at the end of [main]. *)
Definition lead_time_summary (val_df X_val : DataFrame) : prog unit :=
  _ ← print MsgValidationByLead;
  if has_column val_df "lead_hours" then
    fs ← read_files;
    wp_loaded ← call (weather_load Config.MODEL_PATH fs);
    preds ← call (weather_predict wp_loaded X_val);
    lead_time_lines val_df preds [1; 3; 6; 12; 24; 48]%Z
  else mret tt.

(** [main] from the engineered table on: the sparse rows are dropped, the
    table is split, and the two predictors are trained and saved. *)
Definition train_and_save (df : DataFrame) : prog unit :=
  let feature_cols := get_feature_columns df in
  _ ← print (MsgFeatureCount (length feature_cols));
  let df := dropna_thresh feature_cols (length feature_cols / 2) df in
  _ ← print (MsgRowsAfterDrop (len df));
  let train_df := fst (time_split df) in
  let val_df := snd (time_split df) in
  _ ← print (MsgTrainRows (len train_df) (index_min train_df) (index_max train_df));
  _ ← print (MsgValRows (len val_df) (index_min val_df) (index_max val_df));
  X_train ← call (select train_df feature_cols);
  X_val ← call (select val_df feature_cols);
  _ ← print MsgTrainingWeather;
  let obs_cols := obs_columns df in
  y_train ← call (select train_df obs_cols);
  y_val ← call (select val_df obs_cols);
  trained ← call (weather_train new_weather_predictor X_train y_train X_val y_val);
  _ ← print_all (wt_log trained);
  fs ← read_files;
  _ ← write_files (weather_save (wt_self trained) Config.MODEL_PATH fs);
  _ ← print (MsgSaved Config.MODEL_PATH);
  _ ← print MsgTrainingPrecip;
  precip_train_col ← call (column train_df "obs_precip");
  precip_val_col ← call (column val_df "obs_precip");
  let common_train := labelled X_train precip_train_col in
  let common_val := labelled X_val precip_val_col in
  ptrained ← call (precip_train new_precipitation_predictor
                     {| columns := columns X_train; rows := List.map fst common_train |}
                     (List.map snd common_train)
                     {| columns := columns X_val; rows := List.map fst common_val |}
                     (List.map snd common_val));
  _ ← print_all (snd ptrained);
  fs ← read_files;
  _ ← write_files (precip_save (fst (fst ptrained)) Config.PRECIP_MODEL_PATH fs);
  _ ← print (MsgSaved Config.PRECIP_MODEL_PATH);
  _ ← lead_time_summary val_df X_val;
  print MsgDone.

(** [main].  [db.init_db()] creates the tables when they are missing and
    leaves their rows as they are. *)
Definition main (db : Db.Database) : prog unit :=
  _ ← print MsgLoadingPaired;
  let df := paired_frame db in
  if (len df <? 500)%nat then
    _ ← print (MsgInsufficient (len df));
    sys_exit 1
  else
    _ ← print (MsgLoaded (len df) (index_min df) (index_max df));
    _ ← print MsgEngineering;
    df ← call (build_feature_set df);
    train_and_save df.

End WithToolkit.

End Train.

(** ** collector.py: the backfill in chunks *)

Module Collector.
Import Db.

(** A [datetime] in UTC, in microseconds since the epoch;
    [timedelta(days=n)] is [n * day]. *)
Definition day : Z := 86400000000%Z.

Definition timedelta_days (n : Z) : Z := (n * day)%Z.

(** The date of a datetime, by the number of its day:
    [strftime("%Y-%m-%d")] writes one text for each day. *)
Definition date_of (t : Z) : Z := (t / day)%Z.

(** The turns of the loop [while chunk_start < end] of [_chunked_fetch]:
    the bounds [(chunk_start, chunk_end)] of each turn, in order.  [fuel]
    bounds the number of turns. *)
Fixpoint chunk_bounds (fuel : nat) (chunk_start end_ chunk_days : Z)
  : list (Z * Z) :=
  match fuel with
  | O => []
  | S fuel' =>
      if (chunk_start <? end_)%Z then
        let chunk_end := Z.min (chunk_start + timedelta_days chunk_days)%Z end_ in
        (chunk_start, chunk_end)
          :: chunk_bounds fuel' (chunk_end + timedelta_days 1)%Z end_ chunk_days
      else []
  end.

(** A number of turns that the loop does not exceed when [chunk_days] is
    not negative: every turn moves [chunk_start] by a day at least.  (With
    a negative [chunk_days] the loop of the source need not end; no caller
    passes one, the default is 30.) *)
Definition turns (start end_ : Z) : nat := Z.to_nat ((end_ - start) / day + 1)%Z.

(** One turn: [data = fetch_fn(s, e); store_fn(data)] inside
    [try ... except Exception]; a chunk that raises is skipped, and the
    database is as before the turn.  The two dates are handed to
    [fetch_fn] by the number of their day; what is printed is left out. *)
Definition try_chunk (fetch_fn : Z -> Z -> result Hourly)
           (store_fn : Hourly -> Database -> option Database)
           (chunk : Z * Z) (db : Database) : Database :=
  match fetch_fn (date_of (fst chunk)) (date_of (snd chunk)) with
  | Ok data => match store_fn data db with
               | Some db' => db'
               | None => db
               end
  | Raise _ => db
  end.

(** [_chunked_fetch(start, end, fetch_fn, store_fn, label, chunk_days)]:
    the database after the loop. *)
Definition _chunked_fetch (start end_ : Z)
           (fetch_fn : Z -> Z -> result Hourly)
           (store_fn : Hourly -> Database -> option Database)
           (chunk_days : Z) (db : Database) : Database :=
  fold_left (fun db chunk => try_chunk fetch_fn store_fn chunk db)
            (chunk_bounds (turns start end_) start end_ chunk_days) db.

(** [backfill_history()], run at the instant [now] with
    [config.HISTORY_YEARS = years]. *)
Definition backfill_history (now years : Z)
           (fetch_history : Z -> Z -> result Hourly) (db : Database) : Database :=
  let end_ := (now - timedelta_days 5)%Z in
  let start := (end_ - timedelta_days (365 * years))%Z in
  _chunked_fetch start end_ fetch_history store_history 30%Z db.

(** The chunk [c] asks for the day [d]: the archive returns the days from
    the start date to the end date, both included. *)
Definition requests_day (c : Z * Z) (d : Z) : Prop :=
  (date_of (fst c) <= d <= date_of (snd c))%Z.

End Collector.

(** ** Concrete inputs used by the examples below *)

Module Examples.
Import Frame Models Features Runtime Train.

(** One hour, 2024-05-01 12:00 UTC, as Open-Meteo replies. *)
Definition one_hour (temperature : Q) : Db.Hourly :=
  {| Db.h_time := ["2024-05-01T12:00"];
     Db.h_series := {[ "temperature_2m" := [Some temperature] ]} |}.

(** The observation of that hour, a live forecast issued the day before,
    and then the historical-forecast backfill of the same hour. *)
Definition db_live_then_backfill : option Db.Database :=
  db1 ← Db.store_history (one_hour 22) Db.empty_db;
  db2 ← Db.store_forecast "2024-04-30T06:00:00.000000+00:00" (one_hour 20) db1;
  Db.store_historical_forecast_chunk (one_hour 23) db2.

Definition db_mixed : Db.Database :=
  match db_live_then_backfill with
  | Some db => db
  | None => Db.empty_db
  end.

(** An estimator that predicts one value for every row, fitted on one
    feature. *)
Definition constant_model (v : Q) : Estimator :=
  Fitted BASE_PARAMS
         {| feature_name_ := ["fcst_temp"]; predict_row := fun _ => v |}.

(** A served table of one hour with the one feature. *)
Definition one_row_table : DataFrame :=
  {| columns := ["fcst_temp"];
     rows := [ {| ix := 0%Z; cells := {[ "fcst_temp" := Some 21%Q ]} |} ] |}.

(** A weather bundle whose humidity and wind-speed quantile models
    predict values outside the physical ranges. *)
Definition wp_wide_intervals : WeatherPredictor :=
  {| models := [ ("humidity", constant_model 50); ("wind_speed", constant_model 10) ];
     quantile_models :=
       [ ("humidity", [ (1 # 10, constant_model (-5)); (9 # 10, constant_model 130) ]);
         ("wind_speed", [ (1 # 10, constant_model (-3)); (9 # 10, constant_model 20) ]) ] |}.

(** A weather bundle whose humidity models all predict more than 100. *)
Definition wp_humid : WeatherPredictor :=
  {| models := [ ("humidity", constant_model 104) ];
     quantile_models :=
       [ ("humidity", [ (1 # 10, constant_model 101); (9 # 10, constant_model 107) ]) ] |}.

(** A precipitation bundle with every stage fitted: calibrated
    probability 1/2, conditional amount 4 mm, raw quantiles -1 and 6. *)
Definition pp_fitted : PrecipitationPredictor :=
  {| classifier := constant_model (7 # 10);
     regressor := constant_model 4;
     precip_quantile_models :=
       [ (1 # 10, constant_model (-1)); (9 # 10, constant_model 6) ];
     calibrator := Some (fun _ => 1 # 2) |}.

(** A toolkit for the examples: every fit that is not refused returns the
    constant 1/2; both scores are 0. *)
Definition toy_toolkit : Toolkit.
Proof.
  refine {| lgbm_fit := fun _ _ _ _ _ => Ok (fun _ => 1 # 2);
            isotonic_fit := fun _ _ => Ok (fun _ => 1 # 2);
            brier_score_loss := fun _ _ => Ok 0%Q;
            roc_auc_score := fun _ _ => Ok 0%Q |}.
  intros xs ys f x Hf. inversion Hf; subst. split; discriminate.
Defined.

(** A table of [n] hours with the one feature. *)
Definition hours_table (n : nat) : DataFrame :=
  {| columns := ["fcst_temp"];
     rows := List.map (fun i => {| ix := Z.of_nat i;
                                   cells := {[ "fcst_temp" := Some 21%Q ]} |})
                      (seq 0 n) |}.

(** [n] hours from the hour [start] on, with the one feature: the forecast
    temperature follows the hour of the day. *)
Definition varied_hours (start n : nat) : DataFrame :=
  {| columns := ["fcst_temp"];
     rows := List.map (fun i => {| ix := Z.of_nat i;
                                   cells := {[ "fcst_temp" :=
                                                 Some (inject_Z (15 + Z.of_nat (i mod 12))) ]} |})
                      (seq start n) |}.

(** The observed precipitation of [rainy] hours of rain, 0.5 mm each,
    and then of [dry] hours without rain. *)
Definition rain_then_dry (rainy dry : nat) : list Q :=
  repeat (1 # 2) rainy ++ repeat 0%Q dry.

(** A fresh precipitation predictor trained on [rainy] hours of rain and
    20 dry hours, validated on 12 hours of rain and 4 dry hours. *)
Definition trained_on_rain (rainy : nat) :=
  precip_train (H := toy_toolkit) new_precipitation_predictor
               (varied_hours 0 (rainy + 20)) (rain_then_dry rainy 20)
               (varied_hours (rainy + 20) 16) (rain_then_dry 12 4).

(** The same training with 8 hours of rain to validate on. *)
Definition trained_on_rain_few_validation (rainy : nat) :=
  precip_train (H := toy_toolkit) new_precipitation_predictor
               (varied_hours 0 (rainy + 20)) (rain_then_dry rainy 20)
               (varied_hours (rainy + 20) 12) (rain_then_dry 8 4).

(** An estimator fitted on the two features of the serving examples. *)
Definition constant_on_two (v : Q) : Estimator :=
  Fitted BASE_PARAMS
         {| feature_name_ := ["fcst_temp"; "gust_ratio"]; predict_row := fun _ => v |}.

(** A weather bundle and a precipitation bundle with everything fitted on
    the two features. *)
Definition wp_serving : WeatherPredictor :=
  {| models := [ ("temperature", constant_on_two 25);
                 ("humidity", constant_on_two 40);
                 ("wind_speed", constant_on_two 12) ];
     quantile_models :=
       [ ("temperature", [ (1 # 10, constant_on_two 23); (9 # 10, constant_on_two 27) ]) ] |}.

Definition pp_serving : PrecipitationPredictor :=
  {| classifier := constant_on_two (7 # 10);
     regressor := constant_on_two 4;
     precip_quantile_models := [];
     calibrator := Some (fun _ => 1 # 2) |}.

(** The precipitation bundle of a training run that skipped the regression
    stage. *)
Definition pp_skipped : PrecipitationPredictor :=
  {| classifier := constant_on_two (7 # 10);
     regressor := Unfitted tweedie_params;
     precip_quantile_models := [];
     calibrator := Some (fun _ => 1 # 2) |}.

Definition hour_row (i : Z) (cs : list (string * cell)) : Row :=
  {| ix := i; cells := list_to_map cs |}.

(** Two engineered hours that lack the trained feature "gust_ratio" and
    carry a column that was not trained on. *)
Definition table_without_gust_ratio : DataFrame :=
  {| columns := ["fcst_temp"; "fcst_cloud"; "lead_hours"];
     rows := [ hour_row 0 [ ("fcst_temp", Some 21%Q); ("fcst_cloud", Some 50%Q);
                            ("lead_hours", Some 0%Q) ];
               hour_row 1 [ ("fcst_temp", Some 22%Q); ("fcst_cloud", Some 60%Q);
                            ("lead_hours", Some 1%Q) ] ] |}.

(** Two engineered hours with every trained feature. *)
Definition table_complete : DataFrame :=
  {| columns := ["fcst_temp"; "gust_ratio"; "lead_hours"];
     rows := [ hour_row 0 [ ("fcst_temp", Some 21%Q); ("gust_ratio", Some 1%Q);
                            ("lead_hours", Some 0%Q) ];
               hour_row 1 [ ("fcst_temp", Some 22%Q); ("gust_ratio", Some 1%Q);
                            ("lead_hours", Some 1%Q) ] ] |}.

(** A feature builder that returns its input. *)
Definition identity_builder : FeatureBuilder :=
  {| build_feature_set := fun df => Ok df |}.

(** A feature builder that raises, and a parser that knows one date. *)
Definition failing_builder : FeatureBuilder :=
  {| build_feature_set := fun _ => Raise (ValueError "no features") |}.

Definition toy_pandas : Pandas :=
  {| to_datetime := fun s => Z.of_nat (String.length s) |}.

(** The world before a run: no bundle, no forecast, nothing printed. *)
Definition fresh_world : World :=
  {| files := ∅; latest_forecast := None; stdout := [] |}.

(** Five hours in time order. *)
Definition five_hours : DataFrame := hours_table 5.

(** Rain falls in every hour but each eighth: of 150 hours, 120 are
    trained on, 105 of them with rain, and 30 validated on, 26 of them with
    rain. *)
Definition rains (i : nat) : bool := negb (i mod 8 =? 0)%nat.

(** The hour [i] of a paired and engineered table: the forecast
    temperature and precipitation, the lead time [lead], the observed
    precipitation and, when [observed], the observed temperature, humidity,
    wind speed and wind direction; these four are missing otherwise. *)
Definition engineered_hour (observed : bool) (lead : Q) (i : nat) : Row :=
  let obs (v : Q) : cell := if observed then Some v else None in
  let rain : Q := if rains i then 1 # 2 else 0%Q in
  hour_row (Z.of_nat i)
    [ ("fcst_temp", Some (inject_Z (15 + Z.of_nat (i mod 12))));
      ("fcst_precip", Some rain);
      ("lead_hours", Some lead);
      ("obs_temp", obs (inject_Z (16 + Z.of_nat (i mod 12))));
      ("obs_humidity", obs 50%Q);
      ("obs_wind_speed", obs 10%Q);
      ("obs_wind_dir", obs 180%Q);
      ("obs_precip", Some rain) ].

Definition engineered_table (observed : bool) (lead : Q) (n : nat) : DataFrame :=
  {| columns := ["fcst_temp"; "fcst_precip"; "lead_hours"; "obs_temp";
                 "obs_humidity"; "obs_wind_speed"; "obs_wind_dir"; "obs_precip"];
     rows := List.map (engineered_hour observed lead) (seq 0 n) |}.

(** A training run on 150 hours of which only the precipitation was
    observed. *)
Definition precipitation_only_run : step unit * World :=
  train_and_save (H := toy_toolkit) (engineered_table false 0 150) fresh_world.

(** The labels of [n] hours from the hour [start] on: the observed
    temperature only. *)
Definition temperature_labels (start n : nat) : DataFrame :=
  {| columns := ["obs_temp"];
     rows := List.map (fun i => hour_row (Z.of_nat i)
                                  [ ("obs_temp", Some (inject_Z (16 + Z.of_nat (i mod 12)))) ])
                      (seq start n) |}.

(** A weather predictor trained on 100 hours whose labels hold the
    temperature only, validated on 20 hours. *)
Definition trained_on_temperature :=
  weather_train (H := toy_toolkit) new_weather_predictor
                (varied_hours 0 100) (temperature_labels 0 100)
                (varied_hours 100 20) (temperature_labels 100 20).

End Examples.
(** * Properties *)

Import Frame Models Features Runtime.

(** ** Small list facts shared by the modules *)

Section ListFacts.
Context {A B : Type}.

Lemma enumerate_NoDup (l : list A) : List.NoDup (enumerate l).
Proof.
  unfold enumerate. generalize 0%nat.
  induction l as [|a l IH]; intros n; simpl.
  - constructor.
  - constructor; [|apply IH].
    intros Hin. apply in_combine_l in Hin.
    apply in_seq in Hin. lia.
Qed.

Lemma enumerate_fst_inj (l : list A) i a b :
  In (i, a) (enumerate l) -> In (i, b) (enumerate l) -> a = b.
Proof.
  unfold enumerate. generalize 0%nat.
  induction l as [|x l IH]; intros n; simpl; [tauto|].
  intros [H1|H1] [H2|H2].
  - congruence.
  - inversion H1; subst. apply in_combine_l in H2. apply in_seq in H2. lia.
  - inversion H2; subst. apply in_combine_l in H1. apply in_seq in H1. lia.
  - eapply IH; eauto.
Qed.

Lemma enumerate_snd (l : list A) : List.map snd (enumerate l) = l.
Proof.
  unfold enumerate. generalize 0%nat.
  induction l as [|x l IH]; intros n; simpl; [reflexivity|].
  now rewrite IH.
Qed.

Lemma enumerate_In (l : list A) i a : In (i, a) (enumerate l) -> In a l.
Proof. intros H. now apply in_combine_r in H. Qed.

Lemma In_enumerate (l : list A) a : In a l -> exists i, In (i, a) (enumerate l).
Proof.
  intros H. rewrite <- (enumerate_snd l) in H.
  apply in_map_iff in H. destruct H as [[i b] [Hb Hin]]. simpl in Hb. subst.
  now exists i.
Qed.

(** A filter whose hits are pairwise equal keeps at most one element of a
    duplicate-free list. *)
Lemma filter_at_most_one (p : A -> bool) (l : list A) :
  List.NoDup l ->
  (forall x y, In x l -> In y l -> p x = true -> p y = true -> x = y) ->
  (length (List.filter p l) <= 1)%nat.
Proof.
  induction l as [|a l IH]; intros Hnd Huniq; simpl; [lia|].
  inversion Hnd as [|? ? Hnotin Hnd']; subst.
  destruct (p a) eqn:Hpa.
  - assert (Hnil : List.filter p l = []).
    { destruct (List.filter p l) as [|b r] eqn:Hf; [reflexivity|].
      assert (Hb : In b (List.filter p l)) by (rewrite Hf; now left).
      apply filter_In in Hb. destruct Hb as [Hbl Hpb].
      assert (a = b) by (apply Huniq; simpl; auto).
      subst. contradiction. }
    rewrite Hnil. simpl. lia.
  - apply IH; [assumption|].
    intros x y Hx Hy. apply Huniq; simpl; auto.
Qed.

(** Concatenating blocks of at most one element each, whose keys are the
    (distinct) keys of the blocks, gives distinct keys. *)
Lemma flat_map_keys_NoDup {K : Type} (ka : A -> K) (kb : B -> K)
      (g : A -> list B) (l : list A) :
  List.NoDup (List.map ka l) ->
  (forall a, (length (g a) <= 1)%nat) ->
  (forall a b, In b (g a) -> kb b = ka a) ->
  List.NoDup (List.map kb (flat_map g l)).
Proof.
  intros Hnd Hlen Hkey.
  induction l as [|a l IH]; simpl; [constructor|].
  simpl in Hnd. inversion Hnd as [|? ? Hnotin Hnd']; subst.
  rewrite List.map_app.
  specialize (IH Hnd').
  specialize (Hlen a).
  destruct (g a) as [|b [|b' r]] eqn:Hga; simpl in *; [assumption| |lia].
  constructor; [|assumption].
  intros Hin. apply Hnotin.
  apply in_map_iff in Hin. destruct Hin as [y [Hy Hyin]].
  apply in_flat_map in Hyin. destruct Hyin as [a' [Ha' Hya']].
  apply in_map_iff. exists a'. split; [|assumption].
  rewrite <- (Hkey a' y Hya'), Hy.
  apply Hkey. rewrite Hga. now left.
Qed.
End ListFacts.

Lemma lookup_map {A B : Type} (f : A -> B) (l : list A) (i : nat) :
  List.map f l !! i = f <$> (l !! i).
Proof.
  revert i. induction l as [|a l IH]; intros [|i]; simpl; try reflexivity.
  apply IH.
Qed.

Lemma enumerate_lookup {A : Type} (l : list A) i a :
  In (i, a) (enumerate l) -> l !! i = Some a.
Proof.
  unfold enumerate.
  assert (G : forall s, In (i, a) (combine (seq s (length l)) l) ->
                        (s <= i)%nat /\ l !! (i - s)%nat = Some a).
  { induction l as [|x l IH]; intros s; simpl; [tauto|].
    intros [Heq|Hin].
    - inversion Heq; subst. split; [lia|]. now rewrite Nat.sub_diag.
    - destruct (IH _ Hin) as [Hle Hl]. split; [lia|].
      replace (i - s)%nat with (S (i - S s)) by lia. exact Hl. }
  intros Hin. destruct (G 0%nat Hin) as [_ Hl].
  now rewrite Nat.sub_0_r in Hl.
Qed.


(** ** The paired join *)

Section DbFacts.
Import Db.

(** *** The order on TEXT values *)

Lemma ltb_false_leb (a b : string) : (a <? b) = false <-> (b <=? a) = true.
Proof.
  unfold String.ltb, String.leb. rewrite (String.compare_antisym b a).
  destruct (String.compare a b); simpl; split; congruence.
Qed.

Lemma ltb_trichotomy (a b : string) :
  (a <? b) = false -> (b <? a) = false -> a = b.
Proof.
  unfold String.ltb. rewrite (String.compare_antisym b a).
  destruct (String.compare a b) eqn:E; simpl; try discriminate.
  intros _ _. now apply String.compare_eq_iff.
Qed.

(** Every live issue time sorts before the marker. *)
Lemma live_before_backfill (s : string) :
  is_live s = true -> (s <? "backfill") = true.
Proof.
  destruct s as [|c s]; simpl; [discriminate|].
  unfold is_digit. intros H.
  apply andb_true_iff in H. destruct H as [_ H].
  apply Nat.leb_le in H.
  unfold String.ltb. simpl.
  unfold Ascii.compare.
  assert (Hc : (N_of_ascii c ?= N_of_ascii "b")%N = Lt).
  { apply N.compare_lt_iff. unfold nat_of_ascii in H.
    change (N_of_ascii "b") with 98%N. lia. }
  now rewrite Hc.
Qed.

(** *** ORDER BY keeps the rows *)

Lemma insert_by_time_perm x l : Permutation (insert_by_time x l) (x :: l).
Proof.
  induction l as [|y l IH]; simpl; [reflexivity|].
  destruct (o_time (fst y) <=? o_time (fst x)).
  - rewrite IH. apply perm_swap.
  - reflexivity.
Qed.

Lemma order_by_time_perm l : Permutation (order_by_time l) l.
Proof.
  unfold order_by_time.
  assert (G : forall acc, Permutation
                (fold_left (fun acc x => insert_by_time x acc) l acc) (acc ++ l)).
  { induction l as [|x l IH]; intros acc; simpl.
    - now rewrite List.app_nil_r.
    - rewrite IH, insert_by_time_perm.
      change (x :: acc) with ([x] ++ acc).
      rewrite (Permutation_app_comm [x] acc), <- List.app_assoc. reflexivity. }
  apply (G []).
Qed.

(** *** Row numbers *)

Lemma row_number_first tbl i f :
  row_number tbl i f = 1%nat ->
  forall j g, In (j, g) (enumerate tbl) -> numbered_before i f (j, g) = false.
Proof.
  unfold row_number. intros H j g Hin.
  destruct (numbered_before i f (j, g)) eqn:E; [|reflexivity].
  assert (Hf : In (j, g) (List.filter (numbered_before i f) (enumerate tbl)))
    by (apply filter_In; auto).
  destruct (List.filter (numbered_before i f) (enumerate tbl)); simpl in *;
    [contradiction | discriminate].
Qed.

Lemma best_match_rows_In tbl f :
  In f (best_match_rows tbl) <-> In f tbl /\ f_source f = "best_match".
Proof.
  unfold best_match_rows. rewrite filter_In, String.eqb_eq. reflexivity.
Qed.

(** Membership in the joined rows, before ordering. *)
Lemma inner_join_In tbl obs o f :
  In (o, f) (inner_join obs (latest_fcst tbl)) <->
  In o obs /\
  exists i, In (i, f) (enumerate (best_match_rows tbl))
            /\ f_valid_time f = o_time o
            /\ row_number (best_match_rows tbl) i f = 1%nat.
Proof.
  unfold inner_join, latest_fcst. cbv zeta.
  rewrite in_flat_map. split.
  - intros [o' [Ho' Hin]].
    apply in_map_iff in Hin. destruct Hin as [[g rn] [Heq Hin]].
    simpl in Heq. inversion Heq; subst o' g. clear Heq.
    apply filter_In in Hin. destruct Hin as [Hin Hon].
    apply in_map_iff in Hin. destruct Hin as [[i g] [Heq Hin]].
    inversion Heq; subst g rn. clear Heq.
    unfold join_on in Hon. cbn [fst snd] in Hon.
    apply andb_true_iff in Hon. destruct Hon as [Hvt Hrn].
    apply String.eqb_eq in Hvt. apply Nat.eqb_eq in Hrn.
    split; [assumption|]. exists i. repeat split; assumption.
  - intros [Ho [i [Hin [Hvt Hrn]]]].
    exists o. split; [assumption|].
    apply in_map_iff.
    exists (f, row_number (best_match_rows tbl) i f). split; [reflexivity|].
    apply filter_In. split.
    + apply in_map_iff. exists (i, f). auto.
    + unfold join_on. cbn [fst snd]. rewrite Hrn.
      apply andb_true_iff. split; [now apply String.eqb_eq | reflexivity].
Qed.

(** Two rows of one partition cannot both be numbered 1. *)
Lemma row_number_first_unique tbl i f j g :
  In (i, f) (enumerate tbl) -> In (j, g) (enumerate tbl) ->
  same_partition f g = true ->
  row_number tbl i f = 1%nat -> row_number tbl j g = 1%nat ->
  (i, f) = (j, g).
Proof.
  intros Hi Hj Hsp Hf Hg.
  pose proof (row_number_first _ _ _ Hf _ _ Hj) as Hfg.
  pose proof (row_number_first _ _ _ Hg _ _ Hi) as Hgf.
  unfold numbered_before in Hfg, Hgf. simpl in Hfg, Hgf.
  assert (Hsp' : same_partition g f = true).
  { unfold same_partition in *. apply andb_true_iff in Hsp.
    destruct Hsp as [H1 H2]. apply String.eqb_eq in H1, H2.
    rewrite H1, H2, !String.eqb_refl. reflexivity. }
  rewrite Hsp in Hfg. rewrite Hsp' in Hgf. simpl in Hfg, Hgf.
  apply orb_false_iff in Hfg, Hgf.
  destruct Hfg as [Hlt1 He1], Hgf as [Hlt2 He2].
  assert (Heq : f_fetched_at f = f_fetched_at g) by now apply ltb_trichotomy.
  rewrite Heq, String.eqb_refl in He1. rewrite Heq, String.eqb_refl in He2.
  simpl in He1, He2. apply Nat.ltb_ge in He1, He2.
  assert (i = j) by lia. subst j.
  f_equal. eapply enumerate_fst_inj; eauto.
Qed.

Lemma filter_map_comm {A B : Type} (p : B -> bool) (h : A -> B) (l : list A) :
  List.filter p (List.map h l) = List.map h (List.filter (fun a => p (h a)) l).
Proof.
  induction l as [|a l IH]; simpl; [reflexivity|].
  destruct (p (h a)); simpl; now rewrite IH.
Qed.

(** Each observation is joined to at most one forecast row. *)
Lemma join_on_at_most_one tbl o :
  (length (List.filter (join_on o) (latest_fcst tbl)) <= 1)%nat.
Proof.
  unfold latest_fcst. cbv zeta.
  rewrite filter_map_comm, length_map.
  apply filter_at_most_one; [apply enumerate_NoDup|].
  intros [i f] [j g] Hi Hj Hf Hg.
  unfold join_on in Hf, Hg. cbn [fst snd] in Hf, Hg.
  apply andb_true_iff in Hf, Hg.
  destruct Hf as [Hf1 Hf2], Hg as [Hg1 Hg2].
  apply String.eqb_eq in Hf1, Hg1. apply Nat.eqb_eq in Hf2, Hg2.
  apply (row_number_first_unique (best_match_rows tbl)); try assumption.
  unfold same_partition.
  pose proof (enumerate_In _ _ _ Hi) as Hif.
  pose proof (enumerate_In _ _ _ Hj) as Hjg.
  apply best_match_rows_In in Hif, Hjg.
  destruct Hif as [_ Hsf], Hjg as [_ Hsg].
  rewrite Hf1, Hg1, Hsf, Hsg, !String.eqb_refl. reflexivity.
Qed.

Lemma paired_join_In db o f :
  In (o, f) (paired_join db) <->
  In o (observations db) /\
  exists i, In (i, f) (enumerate (best_match_rows (forecasts db)))
            /\ f_valid_time f = o_time o
            /\ row_number (best_match_rows (forecasts db)) i f = 1%nat.
Proof.
  unfold paired_join. rewrite <- inner_join_In.
  split; apply Permutation_in;
    [apply order_by_time_perm | symmetry; apply order_by_time_perm].
Qed.

(** The times of the result are those of the joined observations. *)
Lemma load_paired_data_times db :
  List.map time (load_paired_data db)
  = List.map (fun joined => o_time (fst joined)) (paired_join db).
Proof.
  unfold load_paired_data. rewrite List.map_map.
  apply List.map_ext. now intros [o f].
Qed.

Lemma paired_times_NoDup db :
  pk_observations db -> List.NoDup (List.map time (load_paired_data db)).
Proof.
  intros Hpk. rewrite load_paired_data_times.
  unfold paired_join.
  eapply Permutation_NoDup.
  { apply Permutation_map. symmetry. apply order_by_time_perm. }
  unfold inner_join.
  apply (flat_map_keys_NoDup o_time); [exact Hpk | |].
  - intros o. rewrite length_map. apply join_on_at_most_one.
  - intros o [o' f] Hin. apply in_map_iff in Hin.
    destruct Hin as [frn [Heq _]]. now inversion Heq.
Qed.

(** The forecast side of a joined row is a best_match issue for that valid
    time, and no issue of that partition has a greater [fetched_at]. *)
Lemma paired_join_latest db o f :
  In (o, f) (paired_join db) ->
  In f (forecasts db) /\ f_source f = "best_match"
  /\ f_valid_time f = o_time o
  /\ forall g, In g (forecasts db) -> f_source g = f_source f ->
               f_valid_time g = f_valid_time f ->
               (f_fetched_at g <=? f_fetched_at f) = true.
Proof.
  intros Hin. apply paired_join_In in Hin.
  destruct Hin as [Ho [i [Hi [Hvt Hrn]]]].
  pose proof (enumerate_In _ _ _ Hi) as Hf.
  apply best_match_rows_In in Hf. destruct Hf as [Hf Hsrc].
  repeat split; try assumption.
  intros g Hg Hgs Hgv.
  assert (Hgc : In g (best_match_rows (forecasts db))).
  { apply best_match_rows_In. split; congruence. }
  apply In_enumerate in Hgc. destruct Hgc as [j Hj].
  pose proof (row_number_first _ _ _ Hrn _ _ Hj) as Hnb.
  unfold numbered_before, same_partition in Hnb. simpl in Hnb.
  rewrite Hgv, Hgs, !String.eqb_refl in Hnb. simpl in Hnb.
  apply orb_false_iff in Hnb. destruct Hnb as [Hlt _].
  now apply ltb_false_leb.
Qed.

End DbFacts.

(** *** The primary keys are kept by every write *)

Section PrimaryKeys.
Import Db.

Lemma NoDup_map_filter {A K : Type} (key : A -> K) (p : A -> bool) (l : list A) :
  List.NoDup (List.map key l) -> List.NoDup (List.map key (List.filter p l)).
Proof.
  induction l as [|a l IH]; simpl; intros Hnd; [constructor|].
  inversion Hnd as [|? ? Hnotin Hnd']; subst.
  destruct (p a); simpl; [|auto].
  constructor; [|auto].
  intros Hin. apply Hnotin.
  apply in_map_iff in Hin. destruct Hin as [x [Hx Hin]].
  apply filter_In in Hin. apply in_map_iff. exists x. tauto.
Qed.

Lemma replace_pk {A K : Type} (key : A -> K) (same : A -> A -> bool)
      (r : A) (tbl : list A) :
  (forall x, same x r = false -> key x <> key r) ->
  List.NoDup (List.map key tbl) ->
  List.NoDup (List.map key (List.filter (fun x => negb (same x r)) tbl ++ [r])).
Proof.
  intros Hsame Hnd. rewrite List.map_app. simpl.
  apply List.NoDup_app;
    [now apply NoDup_map_filter | constructor; [intros []|constructor] |].
  intros k Hk [<-|[]].
  apply in_map_iff in Hk. destruct Hk as [x [Hx Hin]].
  apply filter_In in Hin. destruct Hin as [_ Hneg].
  apply negb_true_iff in Hneg. now apply (Hsame x).
Qed.

Lemma replace_observation_pk r tbl :
  List.NoDup (List.map o_time tbl) ->
  List.NoDup (List.map o_time (replace_observation r tbl)).
Proof.
  apply (replace_pk o_time (fun x r => o_time x =? o_time r)).
  intros x Hx. now apply String.eqb_neq.
Qed.

Lemma replace_forecast_pk r tbl :
  List.NoDup (List.map forecast_key tbl) ->
  List.NoDup (List.map forecast_key (replace_forecast r tbl)).
Proof.
  apply (replace_pk forecast_key same_forecast_key).
  intros x Hx Heq. unfold forecast_key in Heq. inversion Heq as [[H1 H2 H3]].
  unfold same_forecast_key in Hx. now rewrite H1, H2, H3, !String.eqb_refl in Hx.
Qed.

Lemma insert_observations_pk rows db :
  pk_observations db -> pk_observations (insert_observations rows db).
Proof.
  unfold pk_observations, insert_observations. simpl.
  generalize (observations db).
  induction rows as [|row rows IH]; intros tbl Hnd; simpl; [assumption|].
  apply IH. now apply replace_observation_pk.
Qed.

Lemma insert_forecasts_pk rows source fetched_at db :
  pk_forecasts db -> pk_forecasts (insert_forecasts rows source fetched_at db).
Proof.
  unfold pk_forecasts, insert_forecasts. simpl.
  generalize (forecasts db).
  induction rows as [|row rows IH]; intros tbl Hnd; simpl; [assumption|].
  apply IH. now apply replace_forecast_pk.
Qed.

(** Every state that the storage helpers reach from the empty database
    respects the primary key of the observations. *)
Lemma store_history_pk hourly db db' :
  pk_observations db -> store_history hourly db = Some db' -> pk_observations db'.
Proof.
  unfold store_history. intros Hpk Hs.
  destruct (mapM _ _) as [rows|]; simpl in Hs; [|discriminate].
  inversion Hs; subst. now apply insert_observations_pk.
Qed.

Lemma store_forecast_pk now_iso hourly db db' :
  pk_observations db -> store_forecast now_iso hourly db = Some db' ->
  pk_observations db'.
Proof.
  unfold store_forecast. intros Hpk Hs.
  destruct (mapM _ _) as [rows|]; simpl in Hs; [|discriminate].
  now inversion Hs; subst.
Qed.

Lemma store_historical_forecast_chunk_pk hourly db db' :
  pk_observations db -> store_historical_forecast_chunk hourly db = Some db' ->
  pk_observations db'.
Proof.
  unfold store_historical_forecast_chunk. intros Hpk Hs.
  destruct (mapM _ _) as [rows|]; simpl in Hs; [|discriminate].
  now inversion Hs; subst.
Qed.

Lemma empty_db_pk : pk_observations empty_db /\ pk_forecasts empty_db.
Proof. split; constructor. Qed.

End PrimaryKeys.

(** ** C1: one forecast issue per valid time *)

Import Db.

(** C1, as amended.  In every state of the two tables that respects the
    primary key of the observations, [load_paired_data] emits each valid
    time at most once; every emitted row is built from one observation and
    one best_match forecast issue for that valid time, and no issue of that
    (valid_time, source) pair has a greater [fetched_at] in the byte order
    of the TEXT values.  The marker ['backfill'] is greater than every live
    timestamp in that order: when a backfilled row exists for a valid time,
    the row that is selected is not a live issue. *)
Theorem load_paired_data_latest_issue (db : Database) :
  pk_observations db ->
  List.NoDup (List.map time (load_paired_data db))
  /\ (forall p, In p (load_paired_data db) ->
        exists o f, In (o, f) (paired_join db) /\ p = select_columns (o, f))
  /\ (forall o f, In (o, f) (paired_join db) ->
        In o (observations db) /\ In f (forecasts db)
        /\ f_source f = "best_match" /\ f_valid_time f = o_time o
        /\ forall g, In g (forecasts db) -> f_source g = f_source f ->
                     f_valid_time g = f_valid_time f ->
                     (f_fetched_at g <=? f_fetched_at f) = true)
  /\ (forall o f g, In (o, f) (paired_join db) ->
        In g (forecasts db) -> f_source g = "best_match" ->
        f_valid_time g = o_time o -> f_fetched_at g = "backfill" ->
        is_live (f_fetched_at f) = false).
Proof.
  intros Hpk. split; [|split; [|split]].
  - now apply paired_times_NoDup.
  - intros p Hp. unfold load_paired_data in Hp.
    apply in_map_iff in Hp. destruct Hp as [[o f] [Heq Hin]].
    exists o, f. auto.
  - intros o f Hin.
    pose proof (paired_join_latest _ _ _ Hin) as (Hf & Hs & Hv & Hmax).
    apply paired_join_In in Hin. destruct Hin as [Ho _].
    repeat split; assumption.
  - intros o f g Hin Hg Hgs Hgv Hgf.
    pose proof (paired_join_latest _ _ _ Hin) as (Hf & Hs & Hv & Hmax).
    assert (Hle : (f_fetched_at g <=? f_fetched_at f) = true)
      by (apply Hmax; congruence).
    rewrite Hgf in Hle.
    destruct (is_live (f_fetched_at f)) eqn:Hlive; [|reflexivity].
    apply live_before_backfill in Hlive.
    apply ltb_false_leb in Hle. congruence.
Qed.

(** The theorem at the state reached by storing one observation, a live
    forecast and a backfilled forecast of the same hour. *)
Lemma load_paired_data_latest_issue_witness :
  pk_observations Examples.db_mixed
  /\ List.NoDup (List.map time (load_paired_data Examples.db_mixed)).
Proof.
  assert (Hpk : pk_observations Examples.db_mixed).
  { unfold pk_observations. vm_compute. repeat constructor. intros []. }
  split; [exact Hpk|].
  exact (proj1 (load_paired_data_latest_issue Examples.db_mixed Hpk)).
Defined.

(** C1, as stated, fails: with a live issue and a backfilled row for the
    same hour, the join selects the backfilled row. *)
Lemma backfill_selected_despite_live_issue :
  ~ backfill_only_without_live Examples.db_mixed.
Proof.
  unfold backfill_only_without_live. intros Hclaim.
  assert (Hex : exists o f, In (o, f) (paired_join Examples.db_mixed)
                            /\ f_fetched_at f = "backfill"
                            /\ o_time o = "2024-05-01T12:00").
  { vm_compute. eexists. eexists.
    split; [left; reflexivity | split; reflexivity]. }
  destruct Hex as (o & f & Hin & Hbf & Hot).
  apply (Hclaim o f Hin Hbf).
  eexists. split; [|split; [|split]].
  - vm_compute. left. reflexivity.
  - reflexivity.
  - rewrite Hot. reflexivity.
  - reflexivity.
Qed.


(** ** The predictors *)

Section ResultFacts.

Lemma bind_Ok_inv {A B : Type} (m : result A) (f : A -> result B) (b : B) :
  (m ≫= f) = Ok b -> exists a, m = Ok a /\ f a = Ok b.
Proof. destruct m as [a|e]; simpl; [eauto | discriminate]. Qed.

Lemma dict_get_In {K V : Type} (eqb : K -> K -> bool) (k : K) (d : list (K * V)) v :
  dict_get eqb k d = Some v -> exists k', In (k', v) d.
Proof.
  induction d as [|[k' v'] d IH]; simpl; [discriminate|].
  destruct (eqb k k').
  - intros [= ->]. eauto.
  - intros Hd. destruct (IH Hd) as [k'' Hin]. eauto.
Qed.

Lemma is_ok_get_ok {A : Type} (default : A) (m : result A) :
  is_ok m = true -> m = Ok (get_ok default m).
Proof. destruct m; [reflexivity | discriminate]. Qed.

End ResultFacts.

(** Unfold one [x ← m; k] that returned. *)
Ltac bind_ok H a Ha :=
  apply bind_Ok_inv in H; destruct H as [a [Ha H]].

Section NumpyFacts.

Lemma np_maximum_lower (a b : Q) : (b <= np_maximum a b)%Q.
Proof.
  unfold np_maximum. destruct (Qle_bool a b) eqn:E.
  - apply Qle_refl.
  - apply Qlt_le_weak, Qnot_le_lt. intros Hle.
    apply Qle_bool_iff in Hle. congruence.
Qed.

Lemma np_minimum_upper (a b : Q) : (np_minimum a b <= b)%Q.
Proof.
  unfold np_minimum. destruct (Qle_bool a b) eqn:E.
  - now apply Qle_bool_iff.
  - apply Qle_refl.
Qed.

Lemma np_minimum_lower (a b c : Q) :
  (c <= a)%Q -> (c <= b)%Q -> (c <= np_minimum a b)%Q.
Proof. unfold np_minimum. now destruct (Qle_bool a b). Qed.

Lemma np_clip_range (v : Q) : (0 <= np_clip v 0 100)%Q /\ (np_clip v 0 100 <= 100)%Q.
Proof.
  unfold np_clip. split.
  - apply np_minimum_lower; [apply np_maximum_lower | discriminate].
  - apply np_minimum_upper.
Qed.

Lemma np_multiply_nonneg (a b : list Q) :
  List.Forall (fun v => 0 <= v)%Q a -> List.Forall (fun v => 0 <= v)%Q b ->
  List.Forall (fun v => 0 <= v)%Q (np_multiply a b).
Proof.
  unfold np_multiply. intros Ha. revert b.
  induction Ha as [|x a Hx Ha IH]; intros b Hb; simpl; [constructor|].
  destruct Hb as [|y b Hy Hb]; simpl; constructor.
  - now apply Qmult_le_0_compat.
  - now apply IH.
Qed.

End NumpyFacts.

Section WeatherPredict.
Import Frame Models.

(** Every array that the loop of [predict] stores is the prediction of one
    of the estimators of the bundle, as the estimator returned it. *)
Lemma predict_interval_raw self X target results results' (P : list Q -> Prop) :
  (forall e a, weather_estimator self e -> estimator_predict e X = Ok a -> P a) ->
  predict_interval self X target results = Ok results' ->
  (forall k a, results !! k = Some a -> P a) ->
  forall k a, results' !! k = Some a -> P a.
Proof.
  intros HP Hpi Hres. unfold predict_interval in Hpi.
  destruct (dict_get String.eqb target (quantile_models self)) as [qs|] eqn:Hqs;
    [|inversion Hpi; subst; exact Hres].
  destruct (dict_get_In _ _ _ _ Hqs) as [t' Hin].
  destruct (dict_get Qeq_bool (1 # 10) qs) as [q10|] eqn:H10; [|discriminate].
  bind_ok Hpi lo Hlo.
  destruct (dict_get Qeq_bool (9 # 10) qs) as [q90|] eqn:H90; [|discriminate].
  bind_ok Hpi hi Hhi.
  inversion Hpi; subst. clear Hpi.
  destruct (dict_get_In _ _ _ _ H10) as [a10 Hin10].
  destruct (dict_get_In _ _ _ _ H90) as [a90 Hin90].
  intros k a Hk.
  destruct (decide ((target ++ "_q90")%string = k)) as [Heq|Hne90].
  { subst k. rewrite lookup_insert_eq in Hk. inversion Hk; subst.
    apply (HP q90); [|assumption]. right. eauto. }
  rewrite lookup_insert_ne in Hk by assumption.
  destruct (decide ((target ++ "_q10")%string = k)) as [Heq|Hne10].
  { subst k. rewrite lookup_insert_eq in Hk. inversion Hk; subst.
    apply (HP q10); [|assumption]. right. eauto. }
  rewrite lookup_insert_ne in Hk by assumption.
  eauto.
Qed.

Lemma predict_targets_raw self X (P : list Q -> Prop) :
  (forall e a, weather_estimator self e -> estimator_predict e X = Ok a -> P a) ->
  forall items results results',
    (forall te, In te items -> In te (models self)) ->
    predict_targets self X items results = Ok results' ->
    (forall k a, results !! k = Some a -> P a) ->
    forall k a, results' !! k = Some a -> P a.
Proof.
  intros HP items.
  induction items as [|[target model] items IH]; intros results results' Hsub Hpt Hres.
  - simpl in Hpt. inversion Hpt; subst. exact Hres.
  - simpl in Hpt.
    bind_ok Hpt point Hpoint. bind_ok Hpt mid Hmid.
    apply (IH mid results'); [intros te Hte; apply Hsub; now right | assumption |].
    apply (predict_interval_raw self X target _ _ P HP Hmid).
    intros k a Hk.
    destruct (decide (target = k)) as [Heq|Hne].
    + subst k. rewrite lookup_insert_eq in Hk. inversion Hk; subst.
      apply (HP model); [|assumption]. left. exists target. apply Hsub. now left.
    + rewrite lookup_insert_ne in Hk by assumption. eauto.
Qed.

(** The two physical constraints touch their own key only. *)
Lemma clip_humidity_lookup results k :
  clip_humidity results !! k
  = if decide (k = "humidity")
    then List.map (fun v => np_clip v 0 100) <$> results !! "humidity"
    else results !! k.
Proof.
  unfold clip_humidity. destruct (decide (k = "humidity")) as [->|Hne].
  - destruct (results !! "humidity") as [a|] eqn:E.
    + now rewrite lookup_insert_eq.
    + now rewrite E.
  - destruct (results !! "humidity") as [a|]; [|reflexivity].
    rewrite lookup_insert_ne; [reflexivity | congruence].
Qed.

Lemma floor_wind_speed_lookup results k :
  floor_wind_speed results !! k
  = if decide (k = "wind_speed")
    then List.map (fun v => np_maximum v 0) <$> results !! "wind_speed"
    else results !! k.
Proof.
  unfold floor_wind_speed. destruct (decide (k = "wind_speed")) as [->|Hne].
  - destruct (results !! "wind_speed") as [a|] eqn:E.
    + now rewrite lookup_insert_eq.
    + now rewrite E.
  - destruct (results !! "wind_speed") as [a|]; [|reflexivity].
    rewrite lookup_insert_ne; [reflexivity | congruence].
Qed.

Lemma weather_predict_inv self X results :
  weather_predict self X = Ok results ->
  exists raw, predict_targets self X (models self) ∅ = Ok raw
              /\ results = floor_wind_speed (clip_humidity raw).
Proof.
  unfold weather_predict. intros Hp. bind_ok Hp raw Hraw.
  inversion Hp; subst. eauto.
Qed.

End WeatherPredict.

(** ** C7 and C10: the physical ranges of WeatherPredictor.predict *)


(** C7, as amended.  For every bundle and every feature table on which
    [WeatherPredictor.predict] returns, the point estimates stored under
    the key "humidity" lie in [0, 100] and the point estimates stored under
    the key "wind_speed" are at least 0, whatever the estimators
    predicted. *)
Theorem weather_predict_point_estimates_in_range
        (self : WeatherPredictor) (X : DataFrame) (results : gmap string (list Q)) :
  weather_predict self X = Ok results ->
  (forall a, results !! "humidity" = Some a ->
             List.Forall (fun v => 0 <= v /\ v <= 100)%Q a)
  /\ (forall a, results !! "wind_speed" = Some a ->
                List.Forall (fun v => 0 <= v)%Q a).
Proof.
  intros Hp. apply weather_predict_inv in Hp. destruct Hp as [raw [_ ->]].
  split; intros a Ha.
  - rewrite floor_wind_speed_lookup in Ha.
    destruct (decide ("humidity" = "wind_speed")) as [E|_]; [discriminate E|].
    rewrite clip_humidity_lookup in Ha.
    destruct (decide ("humidity" = "humidity")) as [_|E]; [|congruence].
    destruct (raw !! "humidity") as [r|]; simpl in Ha; [|discriminate].
    inversion Ha; subst. apply List.Forall_forall. intros v Hv.
    apply in_map_iff in Hv. destruct Hv as [x [<- _]]. apply np_clip_range.
  - rewrite floor_wind_speed_lookup in Ha.
    destruct (decide ("wind_speed" = "wind_speed")) as [_|E]; [|congruence].
    destruct (clip_humidity raw !! "wind_speed") as [r|]; simpl in Ha; [|discriminate].
    inversion Ha; subst. apply List.Forall_forall. intros v Hv.
    apply in_map_iff in Hv. destruct Hv as [x [<- _]]. apply np_maximum_lower.
Qed.

(** The theorem at a bundle whose humidity model predicts 104: the served
    point estimate is 100. *)
Lemma weather_predict_point_estimates_in_range_witness :
  exists results,
    weather_predict Examples.wp_humid Examples.one_row_table = Ok results
    /\ results !! "humidity" = Some [100%Q]
    /\ forall a, results !! "humidity" = Some a ->
                 List.Forall (fun v => 0 <= v /\ v <= 100)%Q a.
Proof.
  assert (Hok : is_ok (weather_predict Examples.wp_humid Examples.one_row_table)
                = true) by (vm_compute; reflexivity).
  pose proof (is_ok_get_ok ∅ _ Hok) as Hr.
  exists (get_ok ∅ (weather_predict Examples.wp_humid Examples.one_row_table)).
  split; [exact Hr|]. split; [vm_compute; reflexivity|].
  exact (proj1 (weather_predict_point_estimates_in_range _ _ _ Hr)).
Defined.

(** C7, as stated, fails: the upper bound of the humidity interval of the
    same prediction is 107. *)
Lemma humidity_interval_bound_out_of_range :
  exists results a,
    weather_predict Examples.wp_humid Examples.one_row_table = Ok results
    /\ results !! "humidity_q90" = Some a
    /\ ~ List.Forall (fun v => 0 <= v /\ v <= 100)%Q a.
Proof.
  assert (Hok : is_ok (weather_predict Examples.wp_humid Examples.one_row_table)
                = true) by (vm_compute; reflexivity).
  exists (get_ok ∅ (weather_predict Examples.wp_humid Examples.one_row_table)).
  exists [107%Q]. split; [exact (is_ok_get_ok ∅ _ Hok)|].
  split; [vm_compute; reflexivity|].
  intros Hall. inversion Hall as [|v l [_ Hle] _]; subst.
  revert Hle. vm_compute. intros Hle. now apply Hle.
Qed.

Section IntervalKeys.
Import Frame Models.

Lemma string_length_app (s t : string) :
  String.length (s ++ t) = (String.length s + String.length t)%nat.
Proof. induction s as [|c s IH]; simpl; [reflexivity | now rewrite IH]. Qed.

(** Two names with suffixes of one length are equal only when the stems
    and the suffixes are. *)
Lemma app_suffix_inj (t1 t2 s1 s2 : string) :
  String.length s1 = String.length s2 ->
  (t1 ++ s1)%string = (t2 ++ s2)%string -> t1 = t2 /\ s1 = s2.
Proof.
  revert t2. induction t1 as [|c t1 IH]; intros [|d t2] Hlen Heq; simpl in Heq.
  - auto.
  - apply (f_equal String.length) in Heq.
    rewrite ?string_length_app in Heq. simpl in Heq.
    rewrite ?string_length_app in Heq. lia.
  - apply (f_equal String.length) in Heq.
    rewrite ?string_length_app in Heq. simpl in Heq.
    rewrite ?string_length_app in Heq. lia.
  - injection Heq as -> Heq. destruct (IH t2 Hlen Heq) as [-> ->]. auto.
Qed.

Lemma interval_keys_apart (t t' : string) :
  (t ++ "_q10")%string <> (t' ++ "_q90")%string
  /\ ((t ++ "_q10")%string = (t' ++ "_q10")%string -> t = t')
  /\ ((t ++ "_q90")%string = (t' ++ "_q90")%string -> t = t').
Proof.
  split; [|split]; intros Heq; apply app_suffix_inj in Heq; try reflexivity.
  - destruct Heq as [_ Heq]. discriminate Heq.
  - tauto.
  - tauto.
Qed.

(** No target of [WeatherPredictor], and neither of the two clipped keys,
    is the key of an interval bound. *)
Lemma interval_key_not_target (t suffix name : string) :
  In suffix ["_q10"; "_q90"] ->
  In name ["temperature"; "humidity"; "wind_speed"; "wind_direction"] ->
  (t ++ suffix)%string <> name.
Proof.
  intros Hs Hn Heq.
  assert (Hsplit : exists stem last, name = (stem ++ last)%string
                                     /\ String.length last = 4%nat
                                     /\ last <> "_q10" /\ last <> "_q90").
  { simpl in Hn. destruct Hn as [<-|[<-|[<-|[<-|[]]]]].
    - exists "tempera", "ture". repeat split; discriminate.
    - exists "humi", "dity". repeat split; discriminate.
    - exists "wind_s", "peed". repeat split; discriminate.
    - exists "wind_direc", "tion". repeat split; discriminate. }
  destruct Hsplit as (stem & last & -> & Hlen & N10 & N90).
  apply app_suffix_inj in Heq.
  - destruct Heq as [_ <-]. simpl in Hs. destruct Hs as [<-|[<-|[]]]; congruence.
  - rewrite Hlen. simpl in Hs. destruct Hs as [<-|[<-|[]]]; reflexivity.
Qed.

Lemma dict_get_key_In {V : Type} (k : string) (d : list (string * V)) v :
  dict_get String.eqb k d = Some v -> In (k, v) d.
Proof.
  induction d as [|[k' v'] d IH]; simpl; [discriminate|].
  destruct (String.eqb k k') eqn:E.
  - apply String.eqb_eq in E. subst k'. intros [= ->]. now left.
  - intros Hd. right. now apply IH.
Qed.

(** What one interval step of the loop of [predict] does. *)
Lemma predict_interval_inv self X target results results' :
  predict_interval self X target results = Ok results' ->
  match dict_get String.eqb target (quantile_models self) with
  | None => results' = results
  | Some qs =>
      exists q10 q90 lo hi,
        dict_get Qeq_bool (1 # 10) qs = Some q10
        /\ dict_get Qeq_bool (9 # 10) qs = Some q90
        /\ estimator_predict q10 X = Ok lo
        /\ estimator_predict q90 X = Ok hi
        /\ results' = <[(target ++ "_q90")%string := hi]>
                        (<[(target ++ "_q10")%string := lo]> results)
  end.
Proof.
  unfold predict_interval. intros Hpi.
  destruct (dict_get String.eqb target (quantile_models self)) as [qs|];
    [|now inversion Hpi].
  destruct (dict_get Qeq_bool (1 # 10) qs) as [q10|]; [|discriminate].
  bind_ok Hpi lo Hlo.
  destruct (dict_get Qeq_bool (9 # 10) qs) as [q90|]; [|discriminate].
  bind_ok Hpi hi Hhi. inversion Hpi; subst.
  exists q10, q90, lo, hi. auto.
Qed.

(** The loop of [predict] leaves under the two interval keys of a target
    what the two quantile models of the target predict, unless a point
    model goes by the name of the key. *)
Lemma predict_targets_bounds self X target qs q10 q90 lo hi :
  dict_get String.eqb target (quantile_models self) = Some qs ->
  dict_get Qeq_bool (1 # 10) qs = Some q10 ->
  dict_get Qeq_bool (9 # 10) qs = Some q90 ->
  estimator_predict q10 X = Ok lo ->
  estimator_predict q90 X = Ok hi ->
  forall key bound,
    (key, bound) = ((target ++ "_q10")%string, lo)
    \/ (key, bound) = ((target ++ "_q90")%string, hi) ->
    forall items results results',
      predict_targets self X items results = Ok results' ->
      ~ In key (List.map fst items) ->
      In target (List.map fst items) \/ results !! key = Some bound ->
      results' !! key = Some bound.
Proof.
  intros Hqs H10 H90 Hlo Hhi key bound Hkey items.
  induction items as [|[t model] items IH]; intros results results' Hp Hfree Hstart.
  - simpl in Hp. inversion Hp; subst. destruct Hstart as [[]|Hr]. exact Hr.
  - simpl in Hp. bind_ok Hp point Hpoint. bind_ok Hp mid Hmid.
    simpl in Hfree.
    apply (IH mid results' Hp); [tauto|].
    apply predict_interval_inv in Hmid.
    destruct (decide (t = target)) as [->|Hne].
    + right. rewrite Hqs in Hmid.
      destruct Hmid as (q10' & q90' & lo' & hi' & E10 & E90 & Elo & Ehi & ->).
      rewrite H10 in E10. inversion E10; subst q10'.
      rewrite H90 in E90. inversion E90; subst q90'.
      rewrite Hlo in Elo. inversion Elo; subst lo'.
      rewrite Hhi in Ehi. inversion Ehi; subst hi'.
      destruct Hkey as [Hk|Hk]; inversion Hk; subst key bound.
      * rewrite lookup_insert_ne
          by (intros E; symmetry in E; revert E; apply interval_keys_apart).
        apply lookup_insert_eq.
      * apply lookup_insert_eq.
    + destruct Hstart as [[Heq|Hin]|Hr]; [simpl in Heq; congruence | now left |].
      right.
      assert (Hpt : (<[t := point]> results) !! key = Some bound).
      { rewrite lookup_insert_ne by tauto. exact Hr. }
      destruct (dict_get String.eqb t (quantile_models self)) as [qs'|];
        [|now subst mid].
      destruct Hmid as (q10' & q90' & lo' & hi' & _ & _ & _ & _ & ->).
      destruct (interval_keys_apart t target) as (A1 & A2 & A3).
      destruct (interval_keys_apart target t) as (B1 & B2 & B3).
      destruct Hkey as [Hk|Hk]; inversion Hk; subst key bound.
      * rewrite lookup_insert_ne by (intros E; symmetry in E; now apply B1 in E).
        rewrite lookup_insert_ne by (intros E; apply A2 in E; contradiction).
        exact Hpt.
      * rewrite lookup_insert_ne by (intros E; apply A3 in E; contradiction).
        rewrite lookup_insert_ne by (intros E; now apply A1 in E).
        exact Hpt.
Qed.

(** The loop of [predict] returns only when the quantile models of each
    of its targets that has any have predicted. *)
Lemma predict_targets_quantiles self X target qs :
  dict_get String.eqb target (quantile_models self) = Some qs ->
  forall items results results',
    predict_targets self X items results = Ok results' ->
    In target (List.map fst items) ->
    exists q10 q90 lo hi,
      dict_get Qeq_bool (1 # 10) qs = Some q10
      /\ dict_get Qeq_bool (9 # 10) qs = Some q90
      /\ estimator_predict q10 X = Ok lo
      /\ estimator_predict q90 X = Ok hi.
Proof.
  intros Hqs items.
  induction items as [|[t model] items IH]; intros results results' Hp Hin;
    [destruct Hin|].
  simpl in Hp. bind_ok Hp point Hpoint. bind_ok Hp mid Hmid.
  destruct Hin as [Heq|Hin]; [|exact (IH _ _ Hp Hin)].
  simpl in Heq. subst t.
  apply predict_interval_inv in Hmid. rewrite Hqs in Hmid.
  destruct Hmid as (q10 & q90 & lo & hi & E10 & E90 & Elo & Ehi & _).
  exists q10, q90, lo, hi. auto.
Qed.

End IntervalKeys.

(** C10.  [WeatherPredictor.predict] returns the interval bounds as the
    quantile models predict them.  For every target that has a point model
    and quantile models, the arrays under the keys <target>_q10 and
    <target>_q90 are the predictions of its quantile models of 0.1 and
    0.9, entry by entry, unclipped, also for humidity and wind speed
    (unless a point model goes by the name of the key, which no target of
    [WeatherPredictor] does).  The physical constraints change the arrays
    stored under "humidity" and "wind_speed" and nothing else: every other
    array that is returned is the prediction of one of the estimators of
    the bundle as that estimator returned it.  There are a bundle with the
    point models of humidity and wind speed and a table for which the lower
    humidity bound is negative, the upper humidity bound exceeds 100 and
    the lower wind-speed bound is negative. *)
Theorem weather_predict_intervals_unclipped :
  (forall (self : WeatherPredictor) (X : DataFrame) (results : gmap string (list Q)),
      weather_predict self X = Ok results ->
      forall target model qs,
        dict_get String.eqb target (models self) = Some model ->
        dict_get String.eqb target (quantile_models self) = Some qs ->
        exists q10 q90 lo hi,
          dict_get Qeq_bool (1 # 10) qs = Some q10
          /\ dict_get Qeq_bool (9 # 10) qs = Some q90
          /\ estimator_predict q10 X = Ok lo
          /\ estimator_predict q90 X = Ok hi
          /\ (~ In (target ++ "_q10")%string (List.map fst (models self)) ->
              results !! (target ++ "_q10")%string = Some lo)
          /\ (~ In (target ++ "_q90")%string (List.map fst (models self)) ->
              results !! (target ++ "_q90")%string = Some hi))
  /\ (forall (self : WeatherPredictor) (target : string),
        (forall t, In t (List.map fst (models self)) ->
                   In t (List.map fst targets)) ->
        ~ In (target ++ "_q10")%string (List.map fst (models self))
        /\ ~ In (target ++ "_q90")%string (List.map fst (models self)))
  /\ (forall (self : WeatherPredictor) (X : DataFrame) (results : gmap string (list Q)),
        weather_predict self X = Ok results ->
        forall k a, k <> "humidity" -> k <> "wind_speed" ->
                    results !! k = Some a ->
                    exists e, weather_estimator self e /\ estimator_predict e X = Ok a)
  /\ (exists self X results,
         List.map fst (models self) = ["humidity"; "wind_speed"]
         /\ weather_predict self X = Ok results
         /\ results !! "humidity_q10" = Some [(-5)%Q]
         /\ results !! "humidity_q90" = Some [130%Q]
         /\ results !! "wind_speed_q10" = Some [(-3)%Q]).
Proof.
  split; [|split; [|split]].
  - intros self X results Hp target model qs Hmodel Hqs.
    apply weather_predict_inv in Hp. destruct Hp as [raw [Hraw ->]].
    assert (Hin : In target (List.map fst (models self))).
    { apply dict_get_key_In in Hmodel. now apply (in_map fst) in Hmodel. }
    destruct (predict_targets_quantiles self X target qs Hqs _ _ _ Hraw Hin)
      as (q10 & q90 & lo & hi & H10 & H90 & Hlo & Hhi).
    exists q10, q90, lo, hi. repeat (split; [assumption|]).
    split; intros Hfree.
    + rewrite floor_wind_speed_lookup.
      destruct (decide ((target ++ "_q10")%string = "wind_speed")) as [E|_];
        [exfalso; revert E; apply interval_key_not_target; simpl; tauto|].
      rewrite clip_humidity_lookup.
      destruct (decide ((target ++ "_q10")%string = "humidity")) as [E|_];
        [exfalso; revert E; apply interval_key_not_target; simpl; tauto|].
      apply (predict_targets_bounds self X target qs q10 q90 lo hi
               Hqs H10 H90 Hlo Hhi _ _ (or_introl eq_refl) _ _ _ Hraw Hfree).
      now left.
    + rewrite floor_wind_speed_lookup.
      destruct (decide ((target ++ "_q90")%string = "wind_speed")) as [E|_];
        [exfalso; revert E; apply interval_key_not_target; simpl; tauto|].
      rewrite clip_humidity_lookup.
      destruct (decide ((target ++ "_q90")%string = "humidity")) as [E|_];
        [exfalso; revert E; apply interval_key_not_target; simpl; tauto|].
      apply (predict_targets_bounds self X target qs q10 q90 lo hi
               Hqs H10 H90 Hlo Hhi _ _ (or_intror eq_refl) _ _ _ Hraw Hfree).
      now left.
  - intros self target Hnames.
    split; intros Hin; apply Hnames in Hin;
      revert Hin; generalize (eq_refl (List.map fst targets)); simpl;
      intros _ Hin;
      (eapply interval_key_not_target; [| exact Hin | reflexivity]); simpl; tauto.
  - intros self X results Hp k a Hh Hw Hk.
    apply weather_predict_inv in Hp. destruct Hp as [raw [Hraw ->]].
    rewrite floor_wind_speed_lookup in Hk.
    destruct (decide (k = "wind_speed")) as [E|_]; [contradiction|].
    rewrite clip_humidity_lookup in Hk.
    destruct (decide (k = "humidity")) as [E|_]; [contradiction|].
    apply (predict_targets_raw self X
             (fun a => exists e, weather_estimator self e
                                 /\ estimator_predict e X = Ok a))
      with (items := models self) (results := ∅) (results' := raw) (k := k);
      try assumption.
    + intros e b He Hb. eauto.
    + auto.
    + intros k' a' Hk'. rewrite lookup_empty in Hk'. discriminate.
  - assert (Hok : is_ok (weather_predict Examples.wp_wide_intervals
                                          Examples.one_row_table) = true)
      by (vm_compute; reflexivity).
    exists Examples.wp_wide_intervals, Examples.one_row_table.
    exists (get_ok ∅ (weather_predict Examples.wp_wide_intervals
                                      Examples.one_row_table)).
    split; [reflexivity|].
    split; [exact (is_ok_get_ok ∅ _ Hok)|].
    repeat split; vm_compute; reflexivity.
Qed.

(** The theorem at a bundle whose quantile models of humidity predict -5
    and 130: the lower bound that is returned is -5. *)
Lemma weather_predict_intervals_unclipped_witness :
  exists results,
    weather_predict Examples.wp_wide_intervals Examples.one_row_table = Ok results
    /\ results !! "humidity_q10" = Some [(-5)%Q].
Proof.
  assert (Hok : is_ok (weather_predict Examples.wp_wide_intervals
                                        Examples.one_row_table) = true)
    by (vm_compute; reflexivity).
  pose proof (is_ok_get_ok ∅ _ Hok) as Hr.
  exists (get_ok ∅ (weather_predict Examples.wp_wide_intervals
                                    Examples.one_row_table)).
  split; [exact Hr|].
  destruct (proj1 weather_predict_intervals_unclipped _ _ _ Hr
                  "humidity" _ _ eq_refl eq_refl)
    as (q10 & q90 & lo & hi & H10 & _ & Hlo & _ & Hres & _).
  injection H10 as <-. injection Hlo as <-.
  apply Hres. simpl. intros [E|[E|[]]]; discriminate E.
Defined.

(** ** C2: the composition law of PrecipitationPredictor.predict *)


Lemma np_multiply_lookup (a b : list Q) (i : nat) (e : Q) :
  np_multiply a b !! i = Some e ->
  exists x y, a !! i = Some x /\ b !! i = Some y /\ e = (x * y)%Q.
Proof.
  unfold np_multiply. revert b i.
  induction a as [|x a IH]; intros [|y b] [|i]; simpl; try discriminate.
  - intros [= <-]. eauto.
  - apply IH.
Qed.

Lemma quantile_key_not_base (a : Q) :
  quantile_key a <> "precip_probability"
  /\ quantile_key a <> "precip_expected_mm"
  /\ quantile_key a <> "precip_if_rain_mm".
Proof. unfold quantile_key. simpl. repeat split; discriminate. Qed.

Lemma classic_key (items : list (Q * Estimator)) (k : string) :
  (exists alpha qmodel, In (alpha, qmodel) items /\ quantile_key alpha = k)
  \/ (forall alpha qmodel, In (alpha, qmodel) items -> quantile_key alpha <> k).
Proof.
  induction items as [|[al qm] items IH].
  - right. intros ? ? [].
  - destruct (decide (quantile_key al = k)) as [Heq|Hne].
    + left. exists al, qm. split; [now left | assumption].
    + destruct IH as [(al' & qm' & Hi & Hk)|Hnone].
      * left. exists al', qm'. split; [now right | assumption].
      * right. intros al' qm' [Heq|Hi].
        -- inversion Heq; subst. assumption.
        -- exact (Hnone al' qm' Hi).
Qed.

(** What the loop over the quantile models stores. *)
Lemma predict_quantiles_spec X prob items :
  forall results results',
    predict_quantiles X prob items results = Ok results' ->
    (forall k a, results' !! k = Some a ->
       results !! k = Some a
       \/ exists alpha qmodel raw,
            In (alpha, qmodel) items /\ k = quantile_key alpha
            /\ estimator_predict qmodel X = Ok raw
            /\ a = np_multiply (List.map (fun v => np_maximum v 0) raw) prob)
    /\ (forall k, (forall alpha qmodel, In (alpha, qmodel) items ->
                                        quantile_key alpha <> k) ->
                  results' !! k = results !! k)
    /\ (forall alpha qmodel, In (alpha, qmodel) items ->
                             is_Some (results' !! quantile_key alpha)
                             /\ is_ok (estimator_predict qmodel X) = true).
Proof.
  induction items as [|[alpha qmodel] items IH]; intros results results' Hp.
  - simpl in Hp. inversion Hp; subst. split; [|split].
    + intros k a Hk. now left.
    + reflexivity.
    + intros ? ? [].
  - simpl in Hp. bind_ok Hp raw Hraw.
    destruct (IH _ _ Hp) as (Hin & Hout & Hserved). clear IH.
    split; [|split].
    + intros k a Hk. destruct (Hin k a Hk) as [Hprev|(al & qm & rw & Hi & Hrest)].
      * destruct (decide (quantile_key alpha = k)) as [Heq|Hne].
        -- subst k. rewrite lookup_insert_eq in Hprev. inversion Hprev; subst.
           right. exists alpha, qmodel, raw. simpl. auto.
        -- rewrite lookup_insert_ne in Hprev by assumption. now left.
      * right. exists al, qm, rw. simpl. tauto.
    + intros k Hk. rewrite Hout.
      * apply lookup_insert_ne. apply (Hk alpha qmodel). now left.
      * intros al qm Hi. apply (Hk al qm). now right.
    + intros al qm [Heq|Hi].
      * inversion Heq; subst. split; [|now rewrite Hraw].
        destruct (classic_key items (quantile_key al)) as [Hlater|Hnone].
        -- destruct Hlater as (al' & qm' & Hi' & Hk'). rewrite <- Hk'.
           apply (Hserved al' qm' Hi').
        -- rewrite Hout by exact Hnone. rewrite lookup_insert_eq. eauto.
      * apply (Hserved al qm Hi).
Qed.

Lemma calibrate_nonneg self X raw_probs :
  serves_probabilities self ->
  estimator_predict (classifier self) X = Ok raw_probs ->
  List.Forall (fun v => 0 <= v)%Q (calibrate self raw_probs).
Proof.
  unfold serves_probabilities, calibrate. intros Hs Hraw.
  destruct (calibrator self) as [cal|].
  - apply List.Forall_forall. intros v Hv.
    apply in_map_iff in Hv. destruct Hv as [x [<- _]]. apply Hs.
  - unfold estimator_predict in Hraw.
    destruct (classifier self) as [p|p b] eqn:Hc; [discriminate|].
    destruct (length (columns X) =? length (feature_name_ b))%nat; [|discriminate].
    destruct (rows X); [discriminate|].
    inversion Hraw; subst.
    apply List.Forall_forall. intros v Hv.
    apply in_map_iff in Hv. destruct Hv as [x [<- _]]. now apply (Hs p b).
Qed.

Lemma floor_nonneg (raw : list Q) :
  List.Forall (fun v => 0 <= v)%Q (List.map (fun v => np_maximum v 0) raw).
Proof.
  apply List.Forall_forall. intros v Hv.
  apply in_map_iff in Hv. destruct Hv as [x [<- _]]. apply np_maximum_lower.
Qed.

(** C2.  Whenever [PrecipitationPredictor.predict] returns, for a
    predictor whose probabilities lie in the unit interval: the served
    probability is the calibrated one; the expected precipitation is, row
    by row, that probability times the conditional amount that is served
    with it; every quantile model of the bundle is served; every array that
    is served besides those three is the raw prediction of a quantile model
    floored at zero and then multiplied by the calibrated probability, and
    all its entries are at least 0. *)
Theorem precip_predict_composition
        (self : PrecipitationPredictor) (X : DataFrame)
        (results : gmap string (list Q)) :
  precip_predict self X = Ok results ->
  serves_probabilities self ->
  exists raw_probs raw_amount,
    estimator_predict (classifier self) X = Ok raw_probs
    /\ estimator_predict (regressor self) X = Ok raw_amount
    /\ let prob := calibrate self raw_probs in
       let amount := List.map (fun v => np_maximum v 0) raw_amount in
       results !! "precip_probability" = Some prob
       /\ results !! "precip_if_rain_mm" = Some amount
       /\ results !! "precip_expected_mm" = Some (np_multiply prob amount)
       /\ (forall i e, np_multiply prob amount !! i = Some e ->
              exists p a, prob !! i = Some p /\ amount !! i = Some a
                          /\ e = (p * a)%Q)
       /\ (forall alpha qmodel,
              In (alpha, qmodel) (precip_quantile_models self) ->
              is_Some (results !! quantile_key alpha))
       /\ (forall k band,
              results !! k = Some band ->
              k <> "precip_probability" -> k <> "precip_if_rain_mm" ->
              k <> "precip_expected_mm" ->
              (exists alpha qmodel raw,
                  In (alpha, qmodel) (precip_quantile_models self)
                  /\ k = quantile_key alpha
                  /\ estimator_predict qmodel X = Ok raw
                  /\ band = np_multiply (List.map (fun v => np_maximum v 0) raw) prob)
              /\ List.Forall (fun v => 0 <= v)%Q band).
Proof.
  intros Hp Hs. unfold precip_predict in Hp.
  bind_ok Hp raw_probs Hprobs. bind_ok Hp raw_amount Hamount.
  exists raw_probs, raw_amount. split; [assumption|]. split; [assumption|].
  cbv zeta.
  destruct (predict_quantiles_spec _ _ _ _ _ Hp) as (Hin & Hout & Hserved).
  assert (Hbase : forall k, k = "precip_probability" \/ k = "precip_if_rain_mm"
                            \/ k = "precip_expected_mm" ->
                            forall alpha (qmodel : Estimator),
                              In (alpha, qmodel) (precip_quantile_models self) ->
                              quantile_key alpha <> k).
  { intros k Hk alpha qmodel _.
    destruct (quantile_key_not_base alpha) as (H1 & H2 & H3).
    destruct Hk as [->| [->| ->]]; assumption. }
  split; [|split; [|split; [|split; [|split]]]].
  - rewrite Hout by (apply Hbase; auto).
    rewrite lookup_insert_ne by discriminate.
    rewrite lookup_insert_ne by discriminate.
    apply lookup_insert_eq.
  - rewrite Hout by (apply Hbase; auto). apply lookup_insert_eq.
  - rewrite Hout by (apply Hbase; auto).
    rewrite lookup_insert_ne by discriminate. apply lookup_insert_eq.
  - intros i e. apply np_multiply_lookup.
  - intros alpha qmodel Hi. apply (Hserved alpha qmodel Hi).
  - intros k band Hk H1 H2 H3.
    destruct (Hin k band Hk) as [Hprev|(al & qm & rw & Hi & Hkey & Hrw & Hband)].
    + rewrite lookup_insert_ne in Hprev by congruence.
      rewrite lookup_insert_ne in Hprev by congruence.
      rewrite lookup_insert_ne in Hprev by congruence.
      rewrite lookup_empty in Hprev. discriminate.
    + split; [exists al, qm, rw; auto|].
      subst band. apply np_multiply_nonneg; [apply floor_nonneg|].
      now apply (calibrate_nonneg self X).
Qed.

(** The theorem at a bundle with probability 1/2, amount 4 mm and raw
    10th-percentile prediction -1: the expected amount is 1/2 times 4 and
    the served 10th percentile is 0 times 1/2. *)
Lemma precip_predict_composition_witness :
  exists results raw_probs raw_amount,
    precip_predict Examples.pp_fitted Examples.one_row_table = Ok results
    /\ estimator_predict (classifier Examples.pp_fitted) Examples.one_row_table
       = Ok raw_probs
    /\ estimator_predict (regressor Examples.pp_fitted) Examples.one_row_table
       = Ok raw_amount
    /\ results !! "precip_expected_mm" = Some [((1 # 2) * 4)%Q]
    /\ results !! "precip_q10_mm" = Some [(0 * (1 # 2))%Q].
Proof.
  assert (Hs : serves_probabilities Examples.pp_fitted).
  { intros x. simpl. split; discriminate. }
  assert (Hok : is_ok (precip_predict Examples.pp_fitted Examples.one_row_table)
                = true) by (vm_compute; reflexivity).
  pose proof (is_ok_get_ok ∅ _ Hok) as Hr.
  destruct (precip_predict_composition _ _ _ Hr Hs)
    as (raw_probs & raw_amount & Hp & Ha & _).
  exists (get_ok ∅ (precip_predict Examples.pp_fitted Examples.one_row_table)).
  exists raw_probs, raw_amount.
  split; [exact Hr|]. split; [exact Hp|]. split; [exact Ha|].
  split; vm_compute; reflexivity.
Defined.

(** ** C5 and C9: the regression stage of PrecipitationPredictor *)

Section DictFacts.
Context {K V : Type} (eqb : K -> K -> bool).

Lemma dict_get_set_eq (k : K) (v : V) (d : list (K * V)) :
  eqb k k = true -> dict_get eqb k (dict_set eqb k v d) = Some v.
Proof.
  intros Hrefl. induction d as [|[k' v'] d IH]; simpl.
  - now rewrite Hrefl.
  - destruct (eqb k k') eqn:E; simpl.
    + now rewrite Hrefl.
    + now rewrite E.
Qed.

Lemma dict_get_set_ne (j k : K) (v : V) (d : list (K * V)) :
  eqb j k = false ->
  (forall k', eqb k k' = true -> eqb j k' = false) ->
  dict_get eqb j (dict_set eqb k v d) = dict_get eqb j d.
Proof.
  intros Hjk Hcompat. induction d as [|[k' v'] d IH]; simpl.
  - now rewrite Hjk.
  - destruct (eqb k k') eqn:E; simpl.
    + now rewrite Hjk, (Hcompat k' E).
    + now rewrite IH.
Qed.

End DictFacts.

Section PrecipTrain.
Import Frame Models.
Context `{Toolkit}.

Lemma Qeq_bool_compat (j k k' : Q) :
  Qeq_bool j k = false -> Qeq_bool k k' = true -> Qeq_bool j k' = false.
Proof.
  intros Hjk Hkk'. apply Qeq_bool_iff in Hkk'.
  destruct (Qeq_bool j k') eqn:E; [|reflexivity].
  apply Qeq_bool_iff in E.
  assert (Hq : (j == k)%Q) by (rewrite E, Hkk'; reflexivity).
  apply Qeq_bool_iff in Hq. congruence.
Qed.

(** A mask computed from the labels picks the rows whose label passes. *)
Lemma mask_rows_map {A : Type} (f : Q -> bool) (rs : list A) (y : list Q) :
  mask_rows (List.map f y) (combine rs y)
  = List.filter (fun rv => f (snd rv)) (combine rs y).
Proof.
  unfold mask_rows. revert rs.
  induction y as [|v y IH]; intros [|r rs]; simpl; try reflexivity.
  destruct (f v); simpl; now rewrite IH.
Qed.

(** The rainy rows are the training rows whose label meets the
    threshold. *)
Lemma masked_rain X y r v :
  In (r, v) (masked (rain_mask y) X y)
  <-> In (r, v) (combine (rows X) y) /\ (Config.PRECIP_THRESHOLD_MM <= v)%Q.
Proof.
  unfold masked, rain_mask. rewrite mask_rows_map, filter_In. simpl.
  now rewrite Qle_bool_iff.
Qed.

Lemma fit_estimator_inv params cols train eval_set early e :
  fit_estimator params cols train eval_set early = Ok e ->
  exists f,
    lgbm_fit params (rows_matrix cols (List.map fst train)) (List.map snd train)
             eval_set early = Ok f
    /\ e = Fitted params {| feature_name_ := cols; predict_row := f |}.
Proof.
  unfold fit_estimator. intros Hf.
  destruct (fit_refused train eval_set early); [discriminate|].
  bind_ok Hf f Hfit. inversion Hf; subst. eauto.
Qed.

(** A fit that returned was given rows to fit on, and an evaluation set
    when early stopping was asked for. *)
Lemma fit_estimator_accepted params cols train eval_set early e :
  fit_estimator params cols train eval_set early = Ok e ->
  train <> []
  /\ (early = true -> exists Xv yv, eval_set = Some (Xv, yv) /\ Xv <> []).
Proof.
  unfold fit_estimator, fit_refused. intros Hf.
  destruct train as [|r train]; [discriminate|]. split; [discriminate|].
  intros ->. destruct eval_set as [[[|x Xv] yv]|]; try discriminate.
  exists (x :: Xv), yv. split; [reflexivity | discriminate].
Qed.

Lemma fit_classifier_inv params cols train eval_set early e :
  fit_classifier params cols train eval_set early = Ok e ->
  fit_estimator params cols train (Some eval_set) early = Ok e
  /\ unseen_labels (List.map snd train) (snd eval_set) = [].
Proof.
  unfold fit_classifier. intros Hf.
  destruct (unseen_labels (List.map snd train) (snd eval_set));
    [auto | discriminate].
Qed.

(** The model of one alpha after the quantile loop, for an alpha that the
    loop visits once. *)
Lemma fit_quantiles_get alphas cols train :
  forall acc qs a,
    fit_quantiles alphas cols train acc = Ok qs ->
    (forall b, In b alphas -> Qeq_bool a b = false) ->
    dict_get Qeq_bool a qs = dict_get Qeq_bool a acc.
Proof.
  induction alphas as [|b alphas IH]; intros acc qs a Hfit Hne; simpl in Hfit.
  - now inversion Hfit.
  - bind_ok Hfit qmodel Hq.
    rewrite (IH _ _ a Hfit) by (intros c Hc; apply Hne; now right).
    apply dict_get_set_ne; [apply Hne; now left|].
    intros k' Hk'. apply (Qeq_bool_compat a b k'); [apply Hne; now left | exact Hk'].
Qed.

Lemma fit_quantiles_spec alphas cols train :
  forall acc qs,
    fit_quantiles alphas cols train acc = Ok qs ->
    distinct_alphas alphas = true ->
    forall a, In a alphas ->
              exists e, dict_get Qeq_bool a qs = Some e
                        /\ fitted_quantile cols train a e.
Proof.
  induction alphas as [|b alphas IH]; intros acc qs Hfit Hd a Ha;
    [destruct Ha|].
  simpl in Hfit. bind_ok Hfit qmodel Hq.
  simpl in Hd. apply andb_true_iff in Hd. destruct Hd as [Hb Hd].
  destruct Ha as [<-|Ha].
  - exists qmodel. split.
    + rewrite (fit_quantiles_get _ _ _ _ _ b Hfit).
      * apply dict_get_set_eq. apply Qeq_bool_iff. reflexivity.
      * intros c Hc. rewrite forallb_forall in Hb.
        specialize (Hb c Hc). now apply negb_true_iff in Hb.
    + apply fit_estimator_inv in Hq. exact Hq.
  - apply (IH _ _ Hfit Hd a Ha).
Qed.

Lemma precip_train_inv self X_train y_train X_val y_val pp scores log :
  precip_train self X_train y_train X_val y_val = Ok (pp, scores, log) ->
  exists clf raw_probs cal stage2,
    fit_estimator (params_of (classifier self)) (columns X_train)
                  (combine (rows X_train) (as_int (rain_mask y_train)))
                  (Some (labelled_matrix (columns X_val)
                           (combine (rows X_val) (as_int (rain_mask y_val))))) true
    = Ok clf
    /\ estimator_predict clf X_val = Ok raw_probs
    /\ isotonic_fit raw_probs (as_int (rain_mask y_val)) = Ok cal
    /\ train_amount self X_train y_train X_val y_val = Ok stage2
    /\ pp = {| classifier := clf; regressor := fst stage2;
               precip_quantile_models := snd stage2; calibrator := Some cal |}.
Proof.
  unfold precip_train. intros Ht.
  bind_ok Ht clf Hclf. bind_ok Ht raw Hraw. bind_ok Ht cal Hcal.
  bind_ok Ht stage2 Hst. bind_ok Ht brier Hb. bind_ok Ht auc Ha.
  inversion Ht; subst. exists clf, raw, cal, stage2.
  apply fit_classifier_inv in Hclf. destruct Hclf as [Hclf _]. auto.
Qed.

Lemma train_amount_fit self X_train y_train X_val y_val stage2 :
  train_amount self X_train y_train X_val y_val = Ok stage2 ->
  (100 < mask_sum (rain_mask y_train))%nat ->
  (10 < mask_sum (rain_mask y_val))%nat
  /\ (exists f,
         lgbm_fit (params_of (regressor self))
                  (rows_matrix (columns X_train)
                               (List.map fst (masked (rain_mask y_train) X_train y_train)))
                  (List.map snd (masked (rain_mask y_train) X_train y_train))
                  (Some (labelled_matrix (columns X_val)
                           (masked (rain_mask y_val) X_val y_val)))
                  true = Ok f
         /\ fst stage2 = Fitted (params_of (regressor self))
                                {| feature_name_ := columns X_train; predict_row := f |})
  /\ (forall a, In a [1 # 10; 25 # 100; 5 # 10; 75 # 100; 9 # 10] ->
        exists e, dict_get Qeq_bool a (snd stage2) = Some e
                  /\ fitted_quantile (columns X_train)
                                     (masked (rain_mask y_train) X_train y_train) a e).
Proof.
  unfold train_amount. intros Ht Hgt.
  apply Nat.ltb_lt in Hgt. rewrite Hgt in Ht.
  bind_ok Ht reg Hreg. bind_ok Ht qs Hqs.
  inversion Ht; subst. simpl.
  destruct (10 <? mask_sum (rain_mask y_val))%nat eqn:Hval.
  - apply Nat.ltb_lt in Hval. split; [exact Hval|].
    apply fit_estimator_inv in Hreg. destruct Hreg as [f [Hf ->]].
    split; [eauto|].
    apply (fit_quantiles_spec _ _ _ _ _ Hqs). reflexivity.
  - apply fit_estimator_accepted in Hreg. destruct Hreg as [_ Hreg].
    destruct (Hreg eq_refl) as (Xv & yv & Heq & _). discriminate Heq.
Qed.

Lemma train_amount_skip self X_train y_train X_val y_val stage2 :
  train_amount self X_train y_train X_val y_val = Ok stage2 ->
  (mask_sum (rain_mask y_train) <= 100)%nat ->
  stage2 = (regressor self, precip_quantile_models self).
Proof.
  unfold train_amount. intros Ht Hle.
  apply Nat.ltb_ge in Hle. rewrite Hle in Ht. now inversion Ht.
Qed.

(** With more than 100 rainy training rows and 10 rainy validation rows or
    fewer, the regressor is fitted with early stopping and without an
    evaluation set. *)
Lemma train_amount_no_evaluation self X_train y_train X_val y_val :
  (100 < mask_sum (rain_mask y_train))%nat ->
  (mask_sum (rain_mask y_val) <= 10)%nat ->
  exists e, train_amount self X_train y_train X_val y_val = Raise e.
Proof.
  intros Hgt Hle. unfold train_amount.
  apply Nat.ltb_lt in Hgt. rewrite Hgt.
  apply Nat.ltb_ge in Hle. rewrite Hle.
  unfold fit_estimator, fit_refused.
  destruct (masked (rain_mask y_train) X_train y_train); simpl; eauto.
Qed.


(** C9.  [PrecipitationPredictor.predict] returns only for a predictor
    whose amount regressor is fitted.  A fresh predictor whose training
    skipped the regression stage fails on every table: on a table with the
    number of columns of the training table, with the error of the
    regressor that was never fitted when the table has rows, and with the
    error of the classifier when it has none. *)
Theorem precip_predict_needs_regressor :
  (forall (self : PrecipitationPredictor) (X : DataFrame)
          (results : gmap string (list Q)),
      precip_predict self X = Ok results ->
      exists params booster, regressor self = Fitted params booster)
  /\ (forall (X_train : DataFrame) (y_train : list Q) (X_val : DataFrame)
             (y_val : list Q) (pp : PrecipitationPredictor)
             (scores : list (string * Q)) (log : list message),
        precip_train new_precipitation_predictor X_train y_train X_val y_val
        = Ok (pp, scores, log) ->
        (mask_sum (rain_mask y_train) <= 100)%nat ->
        forall X : DataFrame,
          is_ok (precip_predict pp X) = false
          /\ (length (columns X) = length (columns X_train) ->
              precip_predict pp X
              = Raise (match rows X with
                       | [] => EMPTY_TABLE
                       | _ :: _ => NotFittedError
                       end))).
Proof.
  split.
  - intros self X results Hp. unfold precip_predict in Hp.
    bind_ok Hp raw_probs Hprobs. bind_ok Hp raw_amount Hamount.
    unfold estimator_predict in Hamount.
    destruct (regressor self) as [p|p b]; [discriminate|]. eauto.
  - intros X_train y_train X_val y_val pp scores log Ht Hle X.
    apply precip_train_inv in Ht.
    destruct Ht as (clf & raw & cal & stage2 & Hclf & _ & _ & Hst & ->).
    apply (train_amount_skip _ _ _ _ _ _ Hst) in Hle. subst stage2.
    apply fit_estimator_inv in Hclf. destruct Hclf as [f [_ ->]].
    unfold precip_predict. simpl.
    destruct (length (columns X) =? length (columns X_train))%nat eqn:E; simpl.
    + destruct (rows X); simpl; split; reflexivity.
    + split; [reflexivity|]. intros Hlen. apply Nat.eqb_neq in E. contradiction.
Qed.

End PrecipTrain.




(** The theorem at 60 hours of rain to train on: the trained predictor
    fails on the served table. *)
Lemma precip_predict_needs_regressor_witness :
  exists pp scores log,
    Examples.trained_on_rain 60 = Ok (pp, scores, log)
    /\ precip_predict pp Examples.one_row_table = Raise NotFittedError.
Proof.
  assert (Hok : is_ok (Examples.trained_on_rain 60) = true)
    by (vm_compute; reflexivity).
  pose proof (is_ok_get_ok (new_precipitation_predictor, [], []) _ Hok) as Ht.
  destruct (get_ok (new_precipitation_predictor, [], [])
                   (Examples.trained_on_rain 60)) as [[pp scores] log].
  exists pp, scores, log. split; [exact Ht|].
  refine (proj2 (proj2 (precip_predict_needs_regressor (H := Examples.toy_toolkit))
                       _ _ _ _ _ _ _ Ht _ Examples.one_row_table) _).
  - vm_compute. lia.
  - reflexivity.
Defined.

(** ** The training orchestrator *)

Section TrainAbort.
Import Frame Models Features Runtime Train.
Context `{Toolkit} `{FeatureBuilder} `{Pandas}.

Lemma len_paired_frame db : len (paired_frame db) = length (Db.load_paired_data db).
Proof. unfold len, paired_frame. simpl. apply length_map. Qed.

(** C3.  With fewer than 500 paired rows, [main] prints the two messages
    and exits with status 1: the files of the model bundles are the files
    before the run, and nothing of feature engineering, fitting or saving
    has happened, whatever the feature builder and the toolkit would have
    done. *)
Theorem main_aborts_on_insufficient_data (db : Db.Database) (w : World) :
  (length (Db.load_paired_data db) < 500)%nat ->
  main db w
  = (Stop (SysExit 1),
     {| files := files w;
        latest_forecast := latest_forecast w;
        stdout := stdout w ++ [MsgLoadingPaired;
                               MsgInsufficient (length (Db.load_paired_data db))] |})
  /\ exit_status (fst (main db w)) <> 0%Z
  /\ files (snd (main db w)) = files w.
Proof.
  intros Hlt.
  assert (Hmain : main db w
                  = (Stop (SysExit 1),
                     {| files := files w;
                        latest_forecast := latest_forecast w;
                        stdout := stdout w
                                  ++ [MsgLoadingPaired;
                                      MsgInsufficient
                                        (length (Db.load_paired_data db))] |})).
  { unfold main. rewrite len_paired_frame.
    apply Nat.ltb_lt in Hlt.
    unfold mbind, prog_bind, print, sys_exit. simpl. rewrite Hlt. simpl.
    now rewrite <- List.app_assoc. }
  rewrite Hmain. simpl. repeat split. discriminate.
Qed.

End TrainAbort.

Import Train.

(** The theorem at the database of one paired hour, with a feature builder
    that would raise. *)
Lemma main_aborts_on_insufficient_data_witness :
  exit_status
    (fst (main (H := Examples.toy_toolkit) (H0 := Examples.failing_builder)
               (H1 := Examples.toy_pandas) Examples.db_mixed Examples.fresh_world))
  = 1%Z
  /\ files (snd (main (H := Examples.toy_toolkit) (H0 := Examples.failing_builder)
                      (H1 := Examples.toy_pandas)
                      Examples.db_mixed Examples.fresh_world))
     = ∅.
Proof.
  assert (Hlt : (length (Db.load_paired_data Examples.db_mixed) < 500)%nat)
    by (vm_compute; lia).
  destruct (main_aborts_on_insufficient_data
              (H := Examples.toy_toolkit) (H0 := Examples.failing_builder)
              (H1 := Examples.toy_pandas) Examples.db_mixed Examples.fresh_world Hlt)
    as (Hmain & _ & Hfiles).
  split; [now rewrite Hmain | exact Hfiles].
Defined.


(** ** C6: the chronological split *)


Lemma firstn_skipn_ordered {A : Type} (l : list A) (k : nat) a b :
  In a (firstn k l) -> In b (skipn k l) ->
  exists i j, (i <= j)%nat /\ l !! i = Some a /\ l !! j = Some b.
Proof.
  intros Ha Hb.
  apply list_elem_of_In, list_elem_of_lookup in Ha. destruct Ha as [i Hi].
  apply list_elem_of_In, list_elem_of_lookup in Hb. destruct Hb as [j Hj].
  pose proof (lookup_lt_Some _ _ _ Hi) as Hlen.
  rewrite length_firstn in Hlen.
  exists i, (k + j)%nat. split; [lia|]. split.
  - rewrite <- (firstn_skipn k l). rewrite lookup_app_l; [assumption|].
    rewrite length_firstn. lia.
  - pose proof (lookup_lt_Some _ _ _ Hj) as Hlenj.
    rewrite length_skipn in Hlenj.
    assert (Hl : (length (firstn k l) <= k + j)%nat)
      by (rewrite length_firstn; lia).
    rewrite <- (firstn_skipn k l) at 1.
    rewrite (lookup_app_r _ _ _ Hl), length_firstn.
    replace (k + j - Nat.min k (length l))%nat with j by lia. assumption.
Qed.

(** C6.  The split keeps the order of the rows: the training slice is the
    first [4 * n / 5] rows of the [n] rows of the table (rounded down), the
    validation slice is the rest, and the two slices one after the other are
    the table.  For a table in time order, no training row is later than a
    validation row. *)
Theorem time_split_chronological (df : DataFrame) :
  time_ordered df ->
  let train_df := fst (time_split df) in
  let val_df := snd (time_split df) in
  rows train_df ++ rows val_df = rows df
  /\ rows train_df = firstn (len train_df) (rows df)
  /\ rows val_df = skipn (len train_df) (rows df)
  /\ (5 * len train_df <= 4 * len df < 5 * (len train_df + 1))%nat
  /\ (len train_df + len val_df = len df)%nat
  /\ columns train_df = columns df /\ columns val_df = columns df
  /\ forall a b, In a (rows train_df) -> In b (rows val_df) -> (ix a <= ix b)%Z.
Proof.
  intros Hord. unfold time_split, split_index, len, iloc_to, iloc_from.
  cbn [fst snd rows columns].
  set (n := length (rows df)).
  set (k := (4 * n / 5)%nat).
  assert (Hk : (5 * k <= 4 * n < 5 * (k + 1))%nat).
  { unfold k. pose proof (Nat.div_mod_eq (4 * n) 5) as Hdm.
    pose proof (Nat.mod_upper_bound (4 * n) 5). lia. }
  assert (Hkn : (k <= n)%nat) by lia.
  assert (Hlen : length (firstn k (rows df)) = k)
    by (rewrite length_firstn; fold n; lia).
  rewrite Hlen. repeat split; try reflexivity; try lia.
  - apply firstn_skipn.
  - rewrite length_skipn. fold n. lia.
  - intros a b Ha Hb.
    destruct (firstn_skipn_ordered _ _ _ _ Ha Hb) as (i & j & Hij & Hi & Hj).
    exact (Hord i j a b Hij Hi Hj).
Qed.

Lemma hours_table_ordered (n : nat) : time_ordered (Examples.hours_table n).
Proof.
  intros i j ri rj Hij Hi Hj. unfold Examples.hours_table in Hi, Hj.
  simpl in Hi, Hj. rewrite lookup_map in Hi, Hj.
  destruct (seq 0 n !! i) as [a|] eqn:Ea; [|discriminate].
  destruct (seq 0 n !! j) as [b|] eqn:Eb; [|discriminate].
  apply lookup_seq in Ea, Eb. simpl in Hi, Hj.
  inversion Hi; inversion Hj; subst. simpl. lia.
Qed.

(** The theorem at a table of five hours: four train, one validates. *)
Lemma time_split_chronological_witness :
  time_ordered Examples.five_hours
  /\ len (fst (time_split Examples.five_hours)) = 4%nat
  /\ len (snd (time_split Examples.five_hours)) = 1%nat
  /\ forall a b, In a (rows (fst (time_split Examples.five_hours))) ->
                 In b (rows (snd (time_split Examples.five_hours))) ->
                 (ix a <= ix b)%Z.
Proof.
  assert (Hord : time_ordered Examples.five_hours).
  { apply hours_table_ordered. }
  split; [exact Hord|]. split; [reflexivity|]. split; [reflexivity|].
  exact (proj2 (proj2 (proj2 (proj2 (proj2 (proj2 (proj2
           (time_split_chronological Examples.five_hours Hord)))))))).
Defined.


(** ** Serve-time alignment *)

Section FrameFacts.
Import Frame.

Lemma existsb_eqb_In (c : string) (l : list string) :
  existsb (String.eqb c) l = true <-> In c l.
Proof.
  rewrite existsb_exists. split.
  - intros [x [Hx Heq]]. apply String.eqb_eq in Heq. now subst.
  - intros Hin. exists c. split; [assumption | apply String.eqb_refl].
Qed.

Lemma has_column_In df c : has_column df c = true <-> In c (columns df).
Proof. apply existsb_eqb_In. Qed.

Lemma add_column_name_In c d cols :
  In c (add_column_name d cols) <-> In c cols \/ c = d.
Proof.
  unfold add_column_name. destruct (existsb (String.eqb d) cols) eqn:E.
  - apply existsb_eqb_In in E. split; [tauto|]. intros [?| ->]; assumption.
  - rewrite in_app_iff. simpl. intuition congruence.
Qed.

Lemma row_cell_set_cell c d v r :
  row_cell c (set_cell d v r) = if String.eqb c d then v else row_cell c r.
Proof.
  unfold row_cell, set_cell. simpl.
  destruct (String.eqb_spec c d) as [->|Hne].
  - now rewrite lookup_insert_eq.
  - rewrite lookup_insert_ne by congruence. reflexivity.
Qed.

Lemma restrict_row_lookup cols r c :
  cells (restrict_row cols r) !! c
  = if existsb (String.eqb c) cols then Some (row_cell c r) else None.
Proof.
  unfold restrict_row. simpl.
  induction cols as [|d cols IH]; simpl; [apply lookup_empty|].
  destruct (String.eqb_spec c d) as [->|Hne]; simpl.
  - apply lookup_insert_eq.
  - rewrite lookup_insert_ne by congruence. exact IH.
Qed.

Lemma select_ok df cols :
  (forall c, In c cols -> has_column df c = true) ->
  select df cols
  = Ok {| columns := cols; rows := List.map (restrict_row cols) (rows df) |}.
Proof.
  intros Hall. unfold select, first_missing.
  destruct (List.find (fun c => negb (has_column df c)) cols) as [c|] eqn:E;
    [|reflexivity].
  apply find_some in E. destruct E as [Hin Hneg].
  rewrite (Hall c Hin) in Hneg. discriminate.
Qed.

End FrameFacts.

Section Alignment.
Import Frame Models Features Runtime Predict.

Lemma missing_features_In names df c :
  In c (missing_features names df) <-> In c names /\ has_column df c = false.
Proof.
  unfold missing_features. rewrite filter_In, negb_true_iff. reflexivity.
Qed.

Lemma fill_missing_rows missing : forall df,
  rows (fill_missing missing df) = List.map (fill_row missing) (rows df).
Proof.
  unfold fill_missing, fill_row.
  induction missing as [|m missing IH]; intros df; simpl.
  - now rewrite List.map_id.
  - rewrite IH. simpl. now rewrite List.map_map.
Qed.

Lemma fill_missing_columns missing : forall df c,
  In c (columns (fill_missing missing df)) <-> In c (columns df) \/ In c missing.
Proof.
  unfold fill_missing.
  induction missing as [|m missing IH]; intros df c; simpl; [tauto|].
  rewrite IH. simpl. rewrite add_column_name_In. intuition congruence.
Qed.

Lemma fill_row_ix missing : forall r, ix (fill_row missing r) = ix r.
Proof.
  unfold fill_row. induction missing as [|m missing IH]; intros r; simpl;
    [reflexivity|]. now rewrite IH.
Qed.

Lemma fill_row_cell missing c : forall r,
  row_cell c (fill_row missing r)
  = if existsb (String.eqb c) missing then Some 0%Q else row_cell c r.
Proof.
  unfold fill_row. induction missing as [|m missing IH]; intros r; simpl;
    [reflexivity|].
  rewrite IH, row_cell_set_cell.
  destruct (String.eqb c m); simpl; [|reflexivity].
  now destruct (existsb (String.eqb c) missing).
Qed.

(** The row of the aligned table, cell by cell. *)
Lemma aligned_row_spec names df r :
  aligned_row names df r
              (restrict_row names (fill_row (missing_features names df) r)).
Proof.
  unfold aligned_row. split; [|split].
  - simpl. apply fill_row_ix.
  - intros c Hc. unfold row_cell at 1. rewrite restrict_row_lookup.
    apply existsb_eqb_In in Hc. rewrite Hc. rewrite fill_row_cell.
    destruct (has_column df c) eqn:Hcol.
    + destruct (existsb (String.eqb c) (missing_features names df)) eqn:E;
        [|reflexivity].
      apply existsb_eqb_In, missing_features_In in E. destruct E. congruence.
    + assert (E : existsb (String.eqb c) (missing_features names df) = true).
      { apply existsb_eqb_In, missing_features_In. split; [|assumption].
        now apply existsb_eqb_In. }
      now rewrite E.
  - intros c Hc. rewrite restrict_row_lookup.
    destruct (existsb (String.eqb c) names) eqn:E; [|reflexivity].
    apply existsb_eqb_In in E. contradiction.
Qed.

(** The alignment never raises. *)
Lemma align_spec names df w :
  align names df w
  = (Done (fill_missing (missing_features names df) df,
           {| columns := names;
              rows := List.map (fun r => restrict_row names
                                           (fill_row (missing_features names df) r))
                               (rows df) |}),
     reported (missing_features names df) w).
Proof.
  unfold align.
  set (missing := missing_features names df).
  assert (Hsel : select (fill_missing missing df) names
                 = Ok {| columns := names;
                         rows := List.map (fun r => restrict_row names (fill_row missing r))
                                          (rows df) |}).
  { rewrite select_ok.
    - now rewrite fill_missing_rows, List.map_map.
    - intros c Hc. apply has_column_In, fill_missing_columns.
      destruct (has_column df c) eqn:E.
      + left. now apply has_column_In.
      + right. now apply missing_features_In. }
  assert (Hfill : missing = [] -> fill_missing missing df = df)
    by (intros ->; reflexivity).
  unfold reported, report_messages.
  remember (fill_missing missing df) as filled eqn:Hfilled in *.
  clear Hfilled.
  destruct missing as [|m ms].
  - specialize (Hfill eq_refl). subst filled.
    unfold mbind, prog_bind, mret, prog_ret, call. cbv beta iota.
    rewrite Hsel. rewrite List.app_nil_r. now destruct w.
  - unfold mbind, prog_bind, mret, prog_ret, call, print. cbv beta iota.
    rewrite Hsel. reflexivity.
Qed.

End Alignment.

Section Serving.
Import Frame Models Features Runtime Predict.

Lemma estimator_predict_length e X a :
  estimator_predict e X = Ok a -> length a = length (rows X).
Proof.
  unfold estimator_predict. destruct e as [p|p b]; [discriminate|].
  destruct (length (columns X) =? length (feature_name_ b))%nat; [|discriminate].
  destruct (rows X) eqn:E; [discriminate|].
  intros [= <-]. unfold to_matrix. now rewrite !length_map, E.
Qed.

Lemma estimator_predict_fitted n e X :
  fitted_on n e -> length (columns X) = n -> rows X <> [] ->
  exists a, estimator_predict e X = Ok a.
Proof.
  intros (p & b & -> & Hn) Hcols Hrows. unfold estimator_predict.
  rewrite Hcols, Hn, Nat.eqb_refl.
  destruct (rows X); [contradiction | eauto].
Qed.

(** On a table without rows a fitted estimator raises. *)
Lemma estimator_predict_empty n e X :
  fitted_on n e -> length (columns X) = n -> rows X = [] ->
  estimator_predict e X = Raise EMPTY_TABLE.
Proof.
  intros (p & b & -> & Hn) Hcols Hrows. unfold estimator_predict.
  now rewrite Hcols, Hn, Nat.eqb_refl, Hrows.
Qed.

(** A property of the results that every assignment of the loop of
    [WeatherPredictor.predict] keeps holds at its end. *)
Lemma predict_targets_invariant wp X (Inv : gmap string (list Q) -> Prop) :
  (forall target model point r,
      In (target, model) (models wp) -> estimator_predict model X = Ok point ->
      Inv r -> Inv (<[target := point]> r)) ->
  (forall target model lo hi r,
      In (target, model) (models wp) ->
      length lo = length (rows X) -> length hi = length (rows X) ->
      Inv r ->
      Inv (<[(target ++ "_q90")%string := hi]> (<[(target ++ "_q10")%string := lo]> r))) ->
  forall items r r',
    (forall te, In te items -> In te (models wp)) ->
    predict_targets wp X items r = Ok r' -> Inv r -> Inv r'.
Proof.
  intros Hpoint Hint items.
  induction items as [|[target model] items IH]; intros r r' Hsub Hp Hr.
  - simpl in Hp. now inversion Hp; subst.
  - simpl in Hp. bind_ok Hp point Hpt. bind_ok Hp mid Hmid.
    apply (IH mid r'); [intros te Hte; apply Hsub; now right | assumption |].
    assert (Hin : In (target, model) (models wp)) by (apply Hsub; now left).
    specialize (Hpoint target model point r Hin Hpt Hr).
    unfold predict_interval in Hmid.
    destruct (dict_get String.eqb target (quantile_models wp)) as [qs|];
      [|now inversion Hmid; subst].
    destruct (dict_get Qeq_bool (1 # 10) qs) as [q10|]; [|discriminate].
    bind_ok Hmid lo Hlo.
    destruct (dict_get Qeq_bool (9 # 10) qs) as [q90|]; [|discriminate].
    bind_ok Hmid hi Hhi. inversion Hmid; subst.
    apply (Hint target model); try assumption.
    + exact (estimator_predict_length _ _ _ Hlo).
    + exact (estimator_predict_length _ _ _ Hhi).
Qed.

Lemma predict_targets_ok n wp X :
  weather_serves n wp -> length (columns X) = n -> rows X <> [] ->
  forall items r,
    (forall te, In te items -> In te (models wp)) ->
    exists r', predict_targets wp X items r = Ok r'.
Proof.
  intros (Hmodels & _ & Hq) Hcols Hrows items.
  induction items as [|[target model] items IH]; intros r Hsub; simpl; [eauto|].
  destruct (Hmodels target model) as [_ Hfit]; [apply Hsub; now left|].
  destruct (estimator_predict_fitted n model X Hfit Hcols Hrows) as [point ->]. simpl.
  assert (Hmid : exists mid, predict_interval wp X target (<[target := point]> r)
                             = Ok mid).
  { unfold predict_interval.
    destruct (dict_get String.eqb target (quantile_models wp)) as [qs|] eqn:E;
      [|eauto].
    destruct (dict_get_In _ _ _ _ E) as [t' Hin].
    destruct (Hq t' qs Hin) as (q10 & q90 & -> & -> & H10 & H90).
    destruct (estimator_predict_fitted n q10 X H10 Hcols Hrows) as [lo ->].
    destruct (estimator_predict_fitted n q90 X H90 Hcols Hrows) as [hi ->].
    simpl. eauto. }
  destruct Hmid as [mid ->]. simpl.
  apply IH. intros te Hte. apply Hsub. now right.
Qed.

(** A target of [WeatherPredictor] is none of the keys of the temperature
    interval, and only the temperature gives them. *)
Lemma target_interval_keys target (lo hi : list Q) (r : gmap string (list Q)) :
  In target (List.map fst targets) ->
  target <> "temperature_q10" /\ target <> "temperature_q90"
  /\ (target = "temperature"
      \/ ((target ++ "_q10")%string <> "temperature_q10"
          /\ (target ++ "_q10")%string <> "temperature_q90"
          /\ (target ++ "_q90")%string <> "temperature_q10"
          /\ (target ++ "_q90")%string <> "temperature_q90")).
Proof.
  simpl. intros [<-|[<-|[<-|[<-|[]]]]]; simpl;
    (split; [discriminate|]); (split; [discriminate|]);
    first [left; reflexivity | right; repeat split; discriminate].
Qed.

(** What the weather results hold when the bundle serves. *)
Lemma weather_predict_serves n wp X :
  weather_serves n wp -> length (columns X) = n -> rows X <> [] ->
  exists weather,
    weather_predict wp X = Ok weather
    /\ (forall k a, weather !! k = Some a -> length a = length (rows X))
    /\ (forall target, In target ["temperature"; "humidity"; "wind_speed"] ->
                       is_Some (weather !! target))
    /\ (is_Some (weather !! "temperature_q10") ->
        is_Some (weather !! "temperature_q90")).
Proof.
  intros Hserves Hcols Hrows.
  destruct (predict_targets_ok n wp X Hserves Hcols Hrows (models wp) ∅)
    as [raw Hraw]; [auto|].
  exists (floor_wind_speed (clip_humidity raw)).
  split; [unfold weather_predict; now rewrite Hraw|].
  assert (Hkeys : forall k, is_Some (floor_wind_speed (clip_humidity raw) !! k)
                            <-> is_Some (raw !! k)).
  { intros k. rewrite floor_wind_speed_lookup.
    destruct (decide (k = "wind_speed")) as [->|_].
    - rewrite clip_humidity_lookup.
      destruct (decide ("wind_speed" = "humidity")) as [E|_]; [discriminate E|].
      now rewrite fmap_is_Some.
    - rewrite clip_humidity_lookup.
      destruct (decide (k = "humidity")) as [->|_]; [|reflexivity].
      now rewrite fmap_is_Some. }
  destruct Hserves as (Hmodels & Hthree & Hq).
  split; [|split].
  - assert (Hlen : forall k a, raw !! k = Some a -> length a = length (rows X)).
    { apply (predict_targets_raw wp X (fun a => length a = length (rows X)))
        with (items := models wp) (results := ∅); auto.
      - intros e a _. apply estimator_predict_length.
      - intros k a Hk. rewrite lookup_empty in Hk. discriminate. }
    intros k a. rewrite floor_wind_speed_lookup.
    destruct (decide (k = "wind_speed")) as [->|_].
    + destruct (clip_humidity raw !! "wind_speed") as [b|] eqn:E; simpl;
        [|discriminate].
      intros [= <-]. rewrite length_map.
      rewrite clip_humidity_lookup in E.
      destruct (decide ("wind_speed" = "humidity")) as [E'|_]; [discriminate E'|].
      eauto.
    + rewrite clip_humidity_lookup.
      destruct (decide (k = "humidity")) as [->|_]; [|apply Hlen].
      destruct (raw !! "humidity") as [b|] eqn:E; simpl; [|discriminate].
      intros [= <-]. rewrite length_map. eauto.
  - intros target Ht. apply Hkeys.
    destruct (Hthree target Ht) as [e He].
    assert (G : forall items r r',
               predict_targets wp X items r = Ok r' ->
               (forall te, In te items -> In te (models wp)) ->
               (is_Some (r !! target) \/ exists e', In (target, e') items) ->
               is_Some (r' !! target)).
    { induction items as [|[t m] items IH]; intros r r' Hp Hsub Hor.
      - simpl in Hp. inversion Hp; subst.
        destruct Hor as [?|[e' []]]. assumption.
      - simpl in Hp. bind_ok Hp point Hpt. bind_ok Hp mid Hmid.
        apply (IH mid r' Hp); [intros te Hte; apply Hsub; now right|].
        assert (Hkeep : is_Some (<[t := point]> r !! target) ->
                        is_Some (mid !! target)).
        { revert Hmid. unfold predict_interval.
          destruct (dict_get String.eqb t (quantile_models wp)) as [qs|];
            [|now intros [= <-]].
          destruct (dict_get Qeq_bool (1 # 10) qs) as [q10|]; [|discriminate].
          intros Hmid. bind_ok Hmid lo Hlo.
          destruct (dict_get Qeq_bool (9 # 10) qs) as [q90|]; [|discriminate].
          bind_ok Hmid hi Hhi. inversion Hmid; subst.
          rewrite !lookup_insert_is_Some'. auto. }
        destruct Hor as [Hsome|[e' [Heq|Hin]]].
        + left. apply Hkeep. rewrite lookup_insert_is_Some'. auto.
        + inversion Heq; subst. left. apply Hkeep.
          rewrite lookup_insert_eq. eauto.
        + right. eauto. }
    apply (G (models wp) ∅ raw Hraw); [auto | eauto].
  - rewrite !Hkeys.
    apply (predict_targets_invariant wp X
             (fun r => is_Some (r !! "temperature_q10") ->
                       is_Some (r !! "temperature_q90")))
      with (items := models wp) (r := ∅); [| |auto|exact Hraw|].
    + intros target model point r Hin _ Hr.
      destruct (Hmodels target model Hin) as [Ht _].
      destruct (target_interval_keys target [] [] ∅ Ht) as (H10 & H90 & _).
      rewrite !lookup_insert_ne by assumption. exact Hr.
    + intros target model lo hi r Hin _ _ Hr.
      destruct (Hmodels target model Hin) as [Ht _].
      destruct (target_interval_keys target [] [] ∅ Ht)
        as (_ & _ & [->|(A & B & C & D)]).
      * intros _. simpl. rewrite lookup_insert_eq. eauto.
      * rewrite !lookup_insert_ne by assumption. exact Hr.
    + rewrite lookup_empty. intros [? ?]. discriminate.
Qed.

Lemma np_multiply_length (a b : list Q) :
  length (np_multiply a b) = Nat.min (length a) (length b).
Proof. unfold np_multiply. now rewrite length_map, length_combine. Qed.

Lemma calibrate_length pp raw : length (calibrate pp raw) = length raw.
Proof.
  unfold calibrate. destruct (calibrator pp); [apply length_map | reflexivity].
Qed.

Lemma predict_quantiles_ok n X prob items :
  length (columns X) = n -> rows X <> [] ->
  (forall a e, In (a, e) items -> fitted_on n e) ->
  forall r, exists r', predict_quantiles X prob items r = Ok r'.
Proof.
  intros Hcols Hrows. induction items as [|[a e] items IH]; intros Hfit r; simpl;
    [eauto|].
  destruct (estimator_predict_fitted n e X) as [raw ->];
    [apply (Hfit a); now left | assumption | assumption |].
  simpl. apply IH. intros a' e' Hin. apply (Hfit a'). now right.
Qed.

(** What the precipitation results hold when the bundle serves. *)
Lemma precip_predict_serves n pp X :
  precip_serves n pp -> length (columns X) = n -> rows X <> [] ->
  exists precip,
    precip_predict pp X = Ok precip
    /\ (forall k a, precip !! k = Some a -> length a = length (rows X))
    /\ is_Some (precip !! "precip_probability")
    /\ is_Some (precip !! "precip_expected_mm")
    /\ (is_Some (precip !! "precip_q10_mm") -> is_Some (precip !! "precip_q90_mm")).
Proof.
  intros (Hclf & Hreg & Hqs & Hkeys) Hcols Hrows.
  destruct (estimator_predict_fitted n _ X Hclf Hcols Hrows) as [raw_probs Hprobs].
  destruct (estimator_predict_fitted n _ X Hreg Hcols Hrows)
    as [raw_amount Hamount].
  pose proof (estimator_predict_length _ _ _ Hprobs) as Lp.
  pose proof (estimator_predict_length _ _ _ Hamount) as La.
  unfold precip_predict. rewrite Hprobs, Hamount. simpl.
  set (prob := calibrate pp raw_probs).
  set (amount := List.map (fun v => np_maximum v 0) raw_amount).
  set (r0 := <["precip_if_rain_mm" := amount]>
               (<["precip_expected_mm" := np_multiply prob amount]>
                  (<["precip_probability" := prob]> (∅ : gmap string (list Q))))).
  destruct (predict_quantiles_ok n X prob (precip_quantile_models pp)
                                 Hcols Hrows Hqs r0) as [precip Hp].
  exists precip. split; [exact Hp|].
  destruct (predict_quantiles_spec _ _ _ _ _ Hp) as (Hin & Hout & Hserved).
  assert (Lprob : length prob = length (rows X))
    by (unfold prob; now rewrite calibrate_length).
  assert (Lamount : length amount = length (rows X))
    by (unfold amount; now rewrite length_map).
  assert (Hbase : forall k, k = "precip_probability" \/ k = "precip_expected_mm" ->
                            precip !! k = r0 !! k).
  { intros k Hk. apply Hout. intros alpha qmodel _.
    destruct (quantile_key_not_base alpha) as (H1 & H2 & H3).
    destruct Hk as [->| ->]; assumption. }
  split; [|split; [|split]].
  - intros k a Hk.
    destruct (Hin k a Hk) as [Hprev|(al & qm & rw & Hi & _ & Hrw & ->)].
    + unfold r0 in Hprev.
      destruct (decide (k = "precip_if_rain_mm")) as [->|N1].
      { rewrite lookup_insert_eq in Hprev. now inversion Hprev; subst. }
      rewrite lookup_insert_ne in Hprev by congruence.
      destruct (decide (k = "precip_expected_mm")) as [->|N2].
      { rewrite lookup_insert_eq in Hprev. inversion Hprev; subst.
        rewrite np_multiply_length. lia. }
      rewrite lookup_insert_ne in Hprev by congruence.
      destruct (decide (k = "precip_probability")) as [->|N3].
      { rewrite lookup_insert_eq in Hprev. now inversion Hprev; subst. }
      rewrite lookup_insert_ne in Hprev by congruence.
      rewrite lookup_empty in Hprev. discriminate.
    + rewrite np_multiply_length, length_map.
      rewrite (estimator_predict_length _ _ _ Hrw). lia.
  - rewrite Hbase by auto. unfold r0.
    rewrite lookup_insert_ne by discriminate.
    rewrite lookup_insert_ne by discriminate.
    rewrite lookup_insert_eq. eauto.
  - rewrite Hbase by auto. unfold r0.
    rewrite lookup_insert_ne by discriminate.
    rewrite lookup_insert_eq. eauto.
  - intros [a Ha].
    destruct (Hin _ a Ha) as [Hprev|(al & qm & rw & Hi & _)].
    + unfold r0 in Hprev.
      rewrite lookup_insert_ne in Hprev by discriminate.
      rewrite lookup_insert_ne in Hprev by discriminate.
      rewrite lookup_insert_ne in Hprev by discriminate.
      rewrite lookup_empty in Hprev. discriminate.
    + destruct Hkeys as [Hnone|Hfive].
      * apply (in_map fst) in Hi. rewrite Hnone in Hi. destruct Hi.
      * assert (H90 : In (9 # 10) (List.map fst (precip_quantile_models pp)))
          by (rewrite Hfive; simpl; tauto).
        apply in_map_iff in H90. destruct H90 as [[a90 e90] [Heq Hi90]].
        simpl in Heq. subst a90.
        apply (Hserved _ _ Hi90).
Qed.

Lemma result_at_ok (results : gmap string (list Q)) key i n :
  (forall k a, results !! k = Some a -> length a = n) ->
  is_Some (results !! key) -> (i < n)%nat ->
  exists v, result_at results key i = Ok v.
Proof.
  intros Hlen [a Ha] Hi. unfold result_at. rewrite Ha.
  destruct (a !! i) as [v|] eqn:E; [eauto|].
  apply lookup_ge_None in E. rewrite (Hlen _ _ Ha) in E. lia.
Qed.

Lemma mapM_ok {A B : Type} (f : A -> result B) (l : list A) :
  (forall x, In x l -> exists b, f x = Ok b) ->
  exists bs, mapM f l = Ok bs /\ length bs = length l.
Proof.
  induction l as [|x l IH]; intros Hall; simpl.
  - exists []. split; reflexivity.
  - destruct (Hall x) as [b Hb]; [now left|].
    destruct IH as [bs [Hbs Hlen]]; [intros y Hy; apply Hall; now right|].
    exists (b :: bs). split; [|simpl; now rewrite Hlen].
    rewrite Hb. simpl. rewrite Hbs. reflexivity.
Qed.

Lemma forecast_row_ok df weather precip i r :
  (i < len df)%nat ->
  lead_hours_known df ->
  (forall k a, weather !! k = Some a -> length a = len df) ->
  (forall target, In target ["temperature"; "humidity"; "wind_speed"] ->
                  is_Some (weather !! target)) ->
  (is_Some (weather !! "temperature_q10") -> is_Some (weather !! "temperature_q90")) ->
  (forall k a, precip !! k = Some a -> length a = len df) ->
  is_Some (precip !! "precip_probability") ->
  is_Some (precip !! "precip_expected_mm") ->
  (is_Some (precip !! "precip_q10_mm") -> is_Some (precip !! "precip_q90_mm")) ->
  exists record, forecast_row df weather precip (i, r) = Ok record.
Proof.
  intros Hi [Hcol Hlead] Wlen Wthree Wq Plen Pprob Pexp Pq.
  unfold forecast_row. cbn [fst snd].
  assert (Hl : exists lead, lead_hours_at df i = Ok lead).
  { unfold lead_hours_at, column. rewrite Hcol. simpl. rewrite lookup_map.
    destruct (rows df !! i) as [ri|] eqn:E.
    - assert (Hin : In ri (rows df))
        by (apply list_elem_of_In, list_elem_of_lookup; eauto).
      destruct (Hlead ri Hin) as [v Hv].
      change (row_cell "lead_hours" <$> Some ri)
        with (Some (row_cell "lead_hours" ri)).
      rewrite Hv. eauto.
    - apply lookup_ge_None in E. unfold len in Hi. lia. }
  destruct Hl as [lead ->]. simpl.
  destruct (result_at_ok weather "temperature" i _ Wlen) as [t ->];
    [apply Wthree; simpl; tauto | assumption |]. simpl.
  destruct (result_at_ok weather "humidity" i _ Wlen) as [h ->];
    [apply Wthree; simpl; tauto | assumption |]. simpl.
  destruct (result_at_ok weather "wind_speed" i _ Wlen) as [ws ->];
    [apply Wthree; simpl; tauto | assumption |]. simpl.
  destruct (result_at_ok precip "precip_probability" i _ Plen) as [p ->];
    [assumption | assumption |]. simpl.
  destruct (result_at_ok precip "precip_expected_mm" i _ Plen) as [e ->];
    [assumption | assumption |]. simpl.
  assert (Ht : exists tr,
             match weather !! "temperature_q10" with
             | Some _ =>
                 lo ← result_at weather "temperature_q10" i;
                 hi ← result_at weather "temperature_q90" i;
                 Ok (Some (py_round lo 1, py_round hi 1))
             | None => Ok None
             end = Ok tr).
  { destruct (weather !! "temperature_q10") as [a|] eqn:E; [|eauto].
    destruct (result_at_ok weather "temperature_q10" i _ Wlen) as [lo ->];
      [try rewrite E; eauto | assumption |].
    destruct (result_at_ok weather "temperature_q90" i _ Wlen) as [hi ->];
      [apply Wq; try rewrite E; eauto | assumption |].
    simpl. eauto. }
  destruct Ht as [tr ->]. simpl.
  assert (Hp : exists pr,
             match precip !! "precip_q10_mm" with
             | Some _ =>
                 lo ← result_at precip "precip_q10_mm" i;
                 hi ← result_at precip "precip_q90_mm" i;
                 Ok (Some (py_round lo 2, py_round hi 2))
             | None => Ok None
             end = Ok pr).
  { destruct (precip !! "precip_q10_mm") as [a|] eqn:E; [|eauto].
    destruct (result_at_ok precip "precip_q10_mm" i _ Plen) as [lo ->];
      [try rewrite E; eauto | assumption |].
    destruct (result_at_ok precip "precip_q90_mm" i _ Plen) as [hi ->];
      [apply Pq; try rewrite E; eauto | assumption |].
    simpl. eauto. }
  destruct Hp as [pr ->]. simpl. eauto.
Qed.

Lemma serve_aligned_ok wp pp df X now w weather precip forecast_rows :
  weather_predict wp X = Ok weather ->
  precip_predict pp X = Ok precip ->
  mapM (forecast_row df weather precip) (enumerate (rows df)) = Ok forecast_rows ->
  serve_aligned wp pp df X now w
  = (Done tt,
     {| files := files w;
        latest_forecast := Some {| generated_at := now; hourly := forecast_rows |};
        stdout := stdout w ++ [MsgWrote (length forecast_rows); MsgPreviewHeader]
                           ++ List.map MsgPreviewRow (firstn 24 forecast_rows) |}).
Proof.
  intros Hw Hp Hrows. unfold serve_aligned.
  unfold mbind, prog_bind, call, write_forecast, print, print_all.
  rewrite Hw, Hp, Hrows. simpl. now rewrite <- !List.app_assoc.
Qed.

(** A weather bundle that serves raises on a table without rows: the
    first of its models does. *)
Lemma weather_predict_empty n wp X :
  weather_serves n wp -> length (columns X) = n -> rows X = [] ->
  weather_predict wp X = Raise EMPTY_TABLE.
Proof.
  intros (Hmodels & Hthree & _) Hcols Hrows. unfold weather_predict.
  destruct (Hthree "temperature") as [e He]; [simpl; tauto|].
  destruct (models wp) as [|[target model] items] eqn:E; [destruct He|].
  simpl.
  rewrite (estimator_predict_empty n model X); [reflexivity | | assumption..].
  apply (Hmodels target). now left.
Qed.

(** Without a fitted regressor [PrecipitationPredictor.predict] raises. *)
Lemma precip_predict_unfitted pp X params :
  regressor pp = Unfitted params -> exists e, precip_predict pp X = Raise e.
Proof.
  intros Hreg. unfold precip_predict.
  destruct (estimator_predict (classifier pp) X) as [raw_probs|e]; simpl;
    [|eauto].
  rewrite Hreg. simpl. eauto.
Qed.

(** A run with bundles that serve, on a table with rows. *)
Lemma main_on_features_serves wp pp df now w names :
  trained_features_of wp = Ok names ->
  weather_serves (length names) wp ->
  precip_serves (length names) pp ->
  lead_hours_known df ->
  rows df <> [] ->
  let X := {| columns := names;
              rows := List.map (fun r => restrict_row names
                                           (fill_row (missing_features names df) r))
                               (rows df) |} in
  exists forecast_rows,
    is_ok (weather_predict wp X) = true
    /\ is_ok (precip_predict pp X) = true
    /\ length forecast_rows = len df
    /\ main_on_features wp pp df now w
       = (Done tt,
          {| files := files w;
             latest_forecast := Some {| generated_at := now;
                                        hourly := forecast_rows |};
             stdout := stdout w ++ report_messages (missing_features names df)
                                ++ [MsgWrote (length forecast_rows); MsgPreviewHeader]
                                ++ List.map MsgPreviewRow (firstn 24 forecast_rows) |}).
Proof.
  intros Hnames Hwp Hpp Hlead Hrows.
  set (missing := missing_features names df).
  intros X.
  set (df' := fill_missing missing df).
  assert (HlenX : length (rows X) = len df)
    by (unfold X, len; simpl; apply length_map).
  assert (HrowsX : rows X <> []).
  { unfold X. simpl. destruct (rows df); [contradiction | discriminate]. }
  assert (Hlen' : len df' = len df)
    by (unfold df', len; rewrite fill_missing_rows; apply length_map).
  destruct (weather_predict_serves _ wp X Hwp eq_refl HrowsX)
    as (weather & Hw & Wlen & Wthree & Wq).
  destruct (precip_predict_serves _ pp X Hpp eq_refl HrowsX)
    as (precip & Hp & Plen & Pprob & Pexp & Pq).
  assert (Hlead' : lead_hours_known df').
  { destruct Hlead as [Hcol Hcells]. split.
    - apply has_column_In, fill_missing_columns. left. now apply has_column_In.
    - intros r Hr. unfold df' in Hr. rewrite fill_missing_rows in Hr.
      apply in_map_iff in Hr. destruct Hr as [r0 [<- Hr0]].
      rewrite fill_row_cell.
      destruct (existsb (String.eqb "lead_hours") missing) eqn:E.
      + eauto.
      + now apply Hcells. }
  destruct (mapM_ok (forecast_row df' weather precip) (enumerate (rows df')))
    as [forecast_rows [Hfr Hcount]].
  { intros [i r] Hin. apply forecast_row_ok; try assumption.
    - apply enumerate_lookup in Hin. apply lookup_lt_Some in Hin. exact Hin.
    - intros k a Hk. rewrite Hlen', <- HlenX. eauto.
    - intros k a Hk. rewrite Hlen', <- HlenX. eauto. }
  exists forecast_rows.
  split; [now rewrite Hw|]. split; [now rewrite Hp|].
  split.
  - rewrite Hcount. unfold enumerate.
    rewrite length_combine, length_seq, Nat.min_id. exact Hlen'.
  - unfold main_on_features.
    unfold mbind at 1, prog_bind at 1, call at 1. rewrite Hnames.
    unfold mbind at 1, prog_bind at 1. rewrite align_spec. cbn [fst snd].
    fold missing. fold df'. fold X.
    rewrite (serve_aligned_ok wp pp df' X now _ weather precip forecast_rows
                              Hw Hp Hfr).
    unfold reported. simpl. now rewrite <- !List.app_assoc.
Qed.

(** A run with bundles that serve, on a table without rows: the first
    model refuses the table, after the gap was reported. *)
Lemma main_on_features_empty wp pp df now w names :
  trained_features_of wp = Ok names ->
  weather_serves (length names) wp ->
  rows df = [] ->
  main_on_features wp pp df now w
  = (Stop (Uncaught EMPTY_TABLE), reported (missing_features names df) w).
Proof.
  intros Hnames Hwp Hrows. unfold main_on_features.
  unfold mbind at 1, prog_bind at 1, call at 1. rewrite Hnames.
  unfold mbind at 1, prog_bind at 1. rewrite align_spec. cbn [fst snd].
  unfold serve_aligned. unfold mbind at 1, prog_bind at 1, call at 1.
  rewrite (weather_predict_empty (length names)); [reflexivity | assumption | |].
  - reflexivity.
  - simpl. now rewrite Hrows.
Qed.

(** Without a temperature model the run stops before anything is filled
    or reported. *)
Lemma main_on_features_no_temperature wp pp df now w :
  dict_get String.eqb "temperature" (models wp) = None ->
  main_on_features wp pp df now w = (Stop (Uncaught (KeyError "temperature")), w).
Proof.
  intros Hnone. unfold main_on_features, trained_features_of.
  unfold mbind, prog_bind, call. now rewrite Hnone.
Qed.

(** Without a fitted regressor the run stops before anything is written. *)
Lemma main_on_features_no_regressor wp pp df now w params :
  regressor pp = Unfitted params ->
  exists e w',
    main_on_features wp pp df now w = (Stop (Uncaught e), w')
    /\ files w' = files w /\ latest_forecast w' = latest_forecast w.
Proof.
  intros Hreg. unfold main_on_features.
  unfold mbind at 1, prog_bind at 1, call at 1.
  destruct (trained_features_of wp) as [names|e]; [|eauto].
  unfold mbind at 1, prog_bind at 1. rewrite align_spec. cbn [fst snd].
  unfold serve_aligned. unfold mbind at 1, prog_bind at 1, call at 1.
  destruct (weather_predict wp _) as [weather|e];
    [|exists e; eexists; split; [reflexivity | split; reflexivity]].
  unfold mbind at 1, prog_bind at 1, call at 1.
  destruct (precip_predict_unfitted pp
              {| columns := names;
                 rows := List.map (fun r => restrict_row names
                                              (fill_row (missing_features names df) r))
                                  (rows df) |} params Hreg) as [e ->].
  exists e. eexists. split; [reflexivity | split; reflexivity].
Qed.

End Serving.

(** ** C4: missing features at serve time *)

Section MissingFeatures.
Import Frame Models Features Runtime Predict.


End MissingFeatures.



(** ** What a training run persists *)

Section ProgFacts.
Import Frame Models Runtime.

Lemma prog_bind_Done {A B : Type} (m : prog A) (f : A -> prog B) w b w' :
  (m ≫= f) w = (Done b, w') ->
  exists a w1, m w = (Done a, w1) /\ f a w1 = (Done b, w').
Proof.
  unfold mbind, prog_bind. destruct (m w) as [[a|s] w1]; [eauto | discriminate].
Qed.

Lemma print_Done msg w u w' :
  print msg w = (Done u, w') -> files w' = files w.
Proof. unfold print. now intros [= _ <-]. Qed.

Lemma print_all_Done msgs w u w' :
  print_all msgs w = (Done u, w') -> files w' = files w.
Proof. unfold print_all. now intros [= _ <-]. Qed.

Lemma call_Done {A : Type} (r : result A) w a w' :
  call r w = (Done a, w') -> r = Ok a /\ w' = w.
Proof. unfold call. destruct r; [now intros [= -> ->] | discriminate]. Qed.

Lemma read_files_Done w fs w' :
  read_files w = (Done fs, w') -> fs = files w /\ w' = w.
Proof. unfold read_files. now intros [= <- <-]. Qed.

Lemma write_files_Done fs w u w' :
  write_files fs w = (Done u, w') -> files w' = fs.
Proof. unfold write_files. now intros [= _ <-]. Qed.

Lemma keeps_files_ret {A : Type} (a : A) : keeps_files (mret a : prog A).
Proof. now intros w. Qed.

Lemma keeps_files_bind {A B : Type} (m : prog A) (f : A -> prog B) :
  keeps_files m -> (forall a, keeps_files (f a)) -> keeps_files (m ≫= f).
Proof.
  intros Hm Hf w. unfold mbind, prog_bind.
  specialize (Hm w). destruct (m w) as [[a|s] w1]; simpl in *.
  - now rewrite Hf.
  - assumption.
Qed.

Lemma keeps_files_print msg : keeps_files (print msg).
Proof. now intros w. Qed.

Lemma keeps_files_call {A : Type} (r : result A) : keeps_files (call r).
Proof. intros w. unfold call. now destruct r. Qed.

Lemma keeps_files_read : keeps_files read_files.
Proof. now intros w. Qed.

Lemma prog_done_snd {A : Type} (m : prog A) (w : World) (a : A) :
  fst (m w) = Done a -> m w = (Done a, snd (m w)).
Proof. destruct (m w) as [r w1]. simpl. now intros ->. Qed.

End ProgFacts.

Section SummaryKeepsFiles.
Import Frame Models Features Runtime Train.
Context `{Toolkit} `{FeatureBuilder} `{Pandas}.

Lemma lead_time_line_keeps val_df preds lead :
  keeps_files (lead_time_line val_df preds lead).
Proof.
  unfold lead_time_line.
  apply keeps_files_bind; [apply keeps_files_call|]. intros leads.
  cbv zeta. destruct (_ <? 10)%nat; [apply keeps_files_ret|].
  apply keeps_files_bind; [apply keeps_files_call|]. intros temperature.
  apply keeps_files_bind; [apply keeps_files_call|]. intros obs_temp.
  apply keeps_files_bind; [apply keeps_files_call|]. intros fcst_temp.
  apply keeps_files_print.
Qed.

Lemma lead_time_lines_keeps val_df preds leads :
  keeps_files (lead_time_lines val_df preds leads).
Proof.
  induction leads as [|lead leads IH]; simpl; [apply keeps_files_ret|].
  apply keeps_files_bind; [apply lead_time_line_keeps | intros _; exact IH].
Qed.

Lemma lead_time_summary_keeps val_df X_val :
  keeps_files (lead_time_summary val_df X_val).
Proof.
  unfold lead_time_summary.
  apply keeps_files_bind; [apply keeps_files_print|]. intros _.
  destruct (has_column val_df "lead_hours"); [|apply keeps_files_ret].
  apply keeps_files_bind; [apply keeps_files_read|]. intros fs.
  apply keeps_files_bind; [apply keeps_files_call|]. intros wp.
  apply keeps_files_bind; [apply keeps_files_call|]. intros preds.
  apply lead_time_lines_keeps.
Qed.

End SummaryKeepsFiles.

Section TrainedFeatures.
Import Frame Models Features Runtime Train.
Context `{Toolkit}.

Lemma dict_set_In {K V : Type} (eqb : K -> K -> bool) k (v : V) d k' v' :
  In (k', v') (dict_set eqb k v d) -> (k', v') = (k, v) \/ In (k', v') d.
Proof.
  induction d as [|[k0 v0] d IH]; simpl.
  - intros [Heq|[]]. left. congruence.
  - destruct (eqb k k0); simpl.
    + intros [Heq|Hin]; [left; congruence | right; now right].
    + intros [Heq|Hin]; [right; now left|].
      destruct (IH Hin) as [?|?]; [now left | right; now right].
Qed.

Lemma fit_estimator_features params cols train eval_set early e :
  fit_estimator params cols train eval_set early = Ok e -> has_features cols e.
Proof.
  intros Hf. apply fit_estimator_inv in Hf. destruct Hf as [f [_ ->]].
  unfold has_features. eauto.
Qed.

Lemma fit_quantiles_features alphas cols train :
  forall acc qs,
    fit_quantiles alphas cols train acc = Ok qs ->
    forall a e, In (a, e) qs -> In (a, e) acc \/ has_features cols e.
Proof.
  induction alphas as [|b alphas IH]; intros acc qs Hfit a e Hin; simpl in Hfit.
  - inversion Hfit; subst. now left.
  - bind_ok Hfit qmodel Hq.
    destruct (IH _ _ Hfit a e Hin) as [Hacc|Hfeat]; [|now right].
    apply dict_set_In in Hacc. destruct Hacc as [Heq|Hacc]; [|now left].
    inversion Heq; subst. right. now apply fit_estimator_features in Hq.
Qed.

(** One turn of the loop of [WeatherPredictor.train] adds estimators fitted
    on the columns of the training table, and nothing else. *)
Lemma train_target_features X_train y_train X_val y_val st target info st' :
  train_target X_train y_train X_val y_val st target info = Ok st' ->
  (forall e, weather_estimator (wt_self st) e -> has_features (columns X_train) e) ->
  forall e, weather_estimator (wt_self st') e -> has_features (columns X_train) e.
Proof.
  unfold train_target. intros Ht Hst.
  destruct (dict_get String.eqb target target_to_obs_col) as [obs_col|];
    [|discriminate].
  destruct (negb (has_column y_train obs_col)); [now inversion Ht; subst|].
  bind_ok Ht yt Hyt.
  destruct (length (labelled X_train yt) <? 100)%nat;
    [now inversion Ht; subst|].
  bind_ok Ht yv Hyv. bind_ok Ht model Hmodel. bind_ok Ht preds Hpreds.
  bind_ok Ht qmodels Hq. inversion Ht; subst. clear Ht. simpl.
  intros e [[t Hin]|(t & qs & a & Hin & Hqe)]; simpl in Hin.
  - apply dict_set_In in Hin. destruct Hin as [Heq|Hin].
    + inversion Heq; subst. now apply fit_estimator_features in Hmodel.
    + apply Hst. left. eauto.
  - apply dict_set_In in Hin. destruct Hin as [Heq|Hin].
    + inversion Heq; subst.
      destruct (fit_quantiles_features _ _ _ _ _ Hq a e Hqe) as [[]|Hf].
      exact Hf.
    + apply Hst. right. eauto.
Qed.

Lemma train_targets_features X_train y_train X_val y_val ts :
  forall st st',
    train_targets X_train y_train X_val y_val ts st = Ok st' ->
    (forall e, weather_estimator (wt_self st) e -> has_features (columns X_train) e) ->
    forall e, weather_estimator (wt_self st') e -> has_features (columns X_train) e.
Proof.
  induction ts as [|[target info] ts IH]; intros st st' Ht Hst; simpl in Ht.
  - now inversion Ht; subst.
  - bind_ok Ht mid Hmid.
    apply (IH mid st' Ht).
    apply (train_target_features _ _ _ _ _ _ _ _ Hmid Hst).
Qed.

(** Every estimator of a freshly trained weather predictor is fitted on
    the columns of the training table. *)
Lemma weather_train_features X_train y_train X_val y_val trained :
  weather_train new_weather_predictor X_train y_train X_val y_val = Ok trained ->
  forall e, weather_estimator (wt_self trained) e ->
            has_features (columns X_train) e.
Proof.
  unfold weather_train. intros Ht.
  apply (train_targets_features _ _ _ _ _ _ _ Ht).
  simpl. intros e [[t []]|(t & qs & a & [] & _)].
Qed.

(** The estimators of a freshly trained precipitation predictor: the
    classifier is fitted on the columns of the training table; the
    regressor and the quantile models are fitted on them, or were never
    fitted. *)
Lemma precip_train_features X_train y_train X_val y_val pp scores log :
  precip_train new_precipitation_predictor X_train y_train X_val y_val
  = Ok (pp, scores, log) ->
  has_features (columns X_train) (classifier pp)
  /\ (has_features (columns X_train) (regressor pp)
      \/ regressor pp = Unfitted tweedie_params)
  /\ (forall a e, In (a, e) (precip_quantile_models pp) ->
                  has_features (columns X_train) e).
Proof.
  intros Ht. apply precip_train_inv in Ht.
  destruct Ht as (clf & raw & cal & stage2 & Hclf & _ & _ & Hst & ->). simpl.
  split; [now apply fit_estimator_features in Hclf|].
  unfold train_amount in Hst.
  destruct (100 <? mask_sum (rain_mask y_train))%nat.
  - bind_ok Hst reg Hreg. bind_ok Hst qs Hqs. inversion Hst; subst. simpl.
    split; [left; now apply fit_estimator_features in Hreg|].
    intros a e Hin.
    destruct (fit_quantiles_features _ _ _ _ _ Hqs a e Hin) as [[]|Hf]. exact Hf.
  - inversion Hst; subst. simpl. split; [now right|]. intros a e [].
Qed.

End TrainedFeatures.

(** ** C8: the feature names in the persisted bundles *)

Section PersistedBundles.
Import Train.
Context `{Toolkit}.

Lemma select_columns_eq df cols X : select df cols = Ok X -> columns X = cols.
Proof.
  unfold select. destruct (first_missing df cols); [discriminate|].
  now intros [= <-].
Qed.

(** One step of a run that ended normally. *)
Ltac run_step Hrun a w1 Ha :=
  apply prog_bind_Done in Hrun; destruct Hrun as (a & w1 & Ha & Hrun).

(** C8, as amended.  Neither bundle holds a list of feature names of its
    own: the weather bundle is the dictionary of the point models and the
    quantile models, the precipitation bundle the classifier, the regressor,
    the calibrator and the quantile models.  After a training run that
    ends normally, both files hold the bundles of that run, and the ordered
    feature names of the fit are persisted inside the estimators: every
    estimator of the weather bundle and the classifier of the precipitation
    bundle are fitted on exactly the feature columns of the run, in their
    order, and so are the regressor and the quantile models when the
    regression stage ran.  Serve-time alignment takes its list from the
    temperature model of the weather bundle: the list it reads is that of
    the run, and without a temperature model there is no list to read. *)
Theorem train_and_save_persists_feature_names (df : DataFrame) (w w' : World) :
  train_and_save df w = (Done tt, w') ->
  exists wp pp,
    files w' = precip_save pp Config.PRECIP_MODEL_PATH
                           (weather_save wp Config.MODEL_PATH (files w))
    /\ weather_load Config.MODEL_PATH (files w') = Ok wp
    /\ precip_load Config.PRECIP_MODEL_PATH (files w') = Ok pp
    /\ (forall e, weather_estimator wp e ->
                  has_features (get_feature_columns df) e)
    /\ has_features (get_feature_columns df) (classifier pp)
    /\ (has_features (get_feature_columns df) (regressor pp)
        \/ regressor pp = Unfitted tweedie_params)
    /\ (forall a e, In (a, e) (precip_quantile_models pp) ->
                    has_features (get_feature_columns df) e)
    /\ (forall names, Predict.trained_features_of wp = Ok names ->
                      names = get_feature_columns df)
    /\ (dict_get String.eqb "temperature" (models wp) = None ->
        Predict.trained_features_of wp = Raise (KeyError "temperature")).
Proof.
  intros Hrun. unfold train_and_save in Hrun. cbv zeta in Hrun.
  run_step Hrun u1 w1 H1. apply print_Done in H1.
  run_step Hrun u2 w2 H2. apply print_Done in H2.
  run_step Hrun u3 w3 H3. apply print_Done in H3.
  run_step Hrun u4 w4 H4. apply print_Done in H4.
  run_step Hrun X_train w5 H5. apply call_Done in H5. destruct H5 as [HXt ->].
  run_step Hrun X_val w6 H6. apply call_Done in H6. destruct H6 as [HXv ->].
  run_step Hrun u7 w7 H7. apply print_Done in H7.
  run_step Hrun y_train w8 H8. apply call_Done in H8. destruct H8 as [Hyt ->].
  run_step Hrun y_val w9 H9. apply call_Done in H9. destruct H9 as [Hyv ->].
  run_step Hrun trained w10 H10. apply call_Done in H10. destruct H10 as [Htr ->].
  run_step Hrun u11 w11 H11. apply print_all_Done in H11.
  run_step Hrun fs12 w12 H12. apply read_files_Done in H12. destruct H12 as [-> ->].
  run_step Hrun u13 w13 H13. apply write_files_Done in H13.
  run_step Hrun u14 w14 H14. apply print_Done in H14.
  run_step Hrun u15 w15 H15. apply print_Done in H15.
  run_step Hrun pt w16 H16. apply call_Done in H16. destruct H16 as [Hpt ->].
  run_step Hrun pv w17 H17. apply call_Done in H17. destruct H17 as [Hpv ->].
  run_step Hrun ptrained w18 H18. apply call_Done in H18. destruct H18 as [Hptr ->].
  run_step Hrun u19 w19 H19. apply print_all_Done in H19.
  run_step Hrun fs20 w20 H20. apply read_files_Done in H20. destruct H20 as [-> ->].
  run_step Hrun u21 w21 H21. apply write_files_Done in H21.
  run_step Hrun u22 w22 H22. apply print_Done in H22.
  run_step Hrun u23 w23 H23.
  pose proof (lead_time_summary_keeps (snd (time_split
                 (dropna_thresh (get_feature_columns df)
                                (length (get_feature_columns df) / 2) df)))
                 X_val w22) as H23'.
  rewrite H23 in H23'. simpl in H23'.
  apply print_Done in Hrun.
  destruct ptrained as [[pp scores] log]. simpl in *.
  pose proof (select_columns_eq _ _ _ HXt) as Hcols.
  set (wp := wt_self trained) in *.
  assert (Hfiles : files w'
                   = precip_save pp Config.PRECIP_MODEL_PATH
                                 (weather_save wp Config.MODEL_PATH (files w))).
  { rewrite Hrun, H23', H22, H21, H19, H15, H14, H13, H11, H7, H4, H3, H2, H1.
    reflexivity. }
  pose proof (weather_train_features _ _ _ _ _ Htr) as Hwf.
  rewrite Hcols in Hwf. fold wp in Hwf.
  apply precip_train_features in Hptr. simpl in Hptr. rewrite Hcols in Hptr.
  destruct Hptr as (Hclf & Hreg & Hqs).
  exists wp, pp. split; [exact Hfiles|]. rewrite Hfiles.
  split; [|split; [|split; [|split; [|split; [|split; [|split]]]]]];
    try assumption.
  - unfold weather_load, precip_save, weather_save.
    rewrite lookup_insert_ne by discriminate. rewrite lookup_insert_eq.
    now destruct wp.
  - unfold precip_load, precip_save. rewrite lookup_insert_eq. now destruct pp.
  - intros names Hn. unfold Predict.trained_features_of in Hn.
    destruct (dict_get String.eqb "temperature" (models wp)) as [e|] eqn:E;
      [|discriminate].
    destruct (dict_get_In _ _ _ _ E) as [t Hin].
    destruct (Hwf e) as (p & f & ->); [left; eauto|].
    now inversion Hn.
  - intros Hnone. unfold Predict.trained_features_of. now rewrite Hnone.
Qed.

End PersistedBundles.

(** The theorem at a training run on 150 observed hours, 120 of them to
    train on: the four targets are fitted, the temperature model holds the
    three feature columns of the run in their order, and so do the other
    estimators of both bundles. *)
Lemma train_and_save_persists_feature_names_witness :
  let run := train_and_save (H := Examples.toy_toolkit)
                            (Examples.engineered_table true 1 150)
                            Examples.fresh_world in
  fst run = Done tt
  /\ exists wp pp,
       weather_load Config.MODEL_PATH (files (snd run)) = Ok wp
       /\ precip_load Config.PRECIP_MODEL_PATH (files (snd run)) = Ok pp
       /\ List.map fst (models wp)
          = ["temperature"; "humidity"; "wind_speed"; "wind_direction"]
       /\ Predict.trained_features_of wp
          = Ok ["fcst_precip"; "fcst_temp"; "lead_hours"]
       /\ (forall e, weather_estimator wp e ->
                     has_features ["fcst_precip"; "fcst_temp"; "lead_hours"] e)
       /\ has_features ["fcst_precip"; "fcst_temp"; "lead_hours"] (classifier pp)
       /\ has_features ["fcst_precip"; "fcst_temp"; "lead_hours"] (regressor pp).
Proof.
  cbv zeta.
  assert (Hdone : fst (train_and_save (H := Examples.toy_toolkit)
                         (Examples.engineered_table true 1 150)
                         Examples.fresh_world) = Done tt)
    by (vm_compute; reflexivity).
  split; [exact Hdone|].
  assert (Hcols : get_feature_columns (Examples.engineered_table true 1 150)
                  = ["fcst_precip"; "fcst_temp"; "lead_hours"])
    by (vm_compute; reflexivity).
  assert (Hkeys : match weather_load Config.MODEL_PATH
                          (files (snd (train_and_save (H := Examples.toy_toolkit)
                                         (Examples.engineered_table true 1 150)
                                         Examples.fresh_world))) with
                  | Ok wp' => List.map fst (models wp')
                  | Raise _ => []
                  end
                  = ["temperature"; "humidity"; "wind_speed"; "wind_direction"])
    by (vm_compute; reflexivity).
  assert (Hnames : is_ok (weather_load Config.MODEL_PATH
                            (files (snd (train_and_save (H := Examples.toy_toolkit)
                                         (Examples.engineered_table true 1 150)
                                         Examples.fresh_world)))
                          ≫= Predict.trained_features_of) = true)
    by (vm_compute; reflexivity).
  assert (Hfit : match precip_load Config.PRECIP_MODEL_PATH
                         (files (snd (train_and_save (H := Examples.toy_toolkit)
                                         (Examples.engineered_table true 1 150)
                                         Examples.fresh_world))) with
                 | Ok pp' => match regressor pp' with
                             | Fitted _ _ => true
                             | Unfitted _ => false
                             end
                 | Raise _ => false
                 end = true)
    by (vm_compute; reflexivity).
  pose proof (prog_done_snd
                     (train_and_save (H := Examples.toy_toolkit)
                                     (Examples.engineered_table true 1 150))
                     Examples.fresh_world tt Hdone) as Hrun.
  pose proof (train_and_save_persists_feature_names
              (H := Examples.toy_toolkit) (Examples.engineered_table true 1 150)
              Examples.fresh_world _ Hrun) as Hthm.
  destruct Hthm
    as (wp & pp & _ & Hwl & Hpl & Hest & Hclf & Hreg & _ & Hlist & _).
  rewrite Hcols in Hest, Hclf, Hreg, Hlist.
  rewrite Hwl in Hkeys, Hnames. rewrite Hpl in Hfit.
  exists wp, pp. split; [exact Hwl|]. split; [exact Hpl|].
  split; [exact Hkeys|].
  split.
  - change (is_ok (Predict.trained_features_of wp) = true) in Hnames.
    destruct (Predict.trained_features_of wp) as [names|e] eqn:E;
      [|discriminate Hnames].
    now rewrite (Hlist names eq_refl).
  - split; [exact Hest|]. split; [exact Hclf|].
    destruct Hreg as [Hreg|Hreg]; [exact Hreg|].
    rewrite Hreg in Hfit. discriminate Hfit.
Defined.

(** C8, as stated, fails.  On 150 hours of which only the precipitation
    was observed, training ends normally with every weather target
    skipped, and the weather bundle it saves holds no estimator, hence no
    feature names: the alignment of the next prediction has no list to
    read. *)
Lemma weather_bundle_without_feature_names :
  (let run := Examples.precipitation_only_run in
   (fst run,
    files (snd run) !! Config.MODEL_PATH,
    weather_load Config.MODEL_PATH (files (snd run))
      ≫= Predict.trained_features_of))
  = (Done tt, Some (WeatherBundle [] []), Raise (KeyError "temperature")).
Proof. vm_compute. reflexivity. Qed.

(** * Further properties

    ** The order of TEXT values *)

Section TextOrder.

Lemma ascii_compare_lt_trans (a b c : ascii) :
  Ascii.compare a b = Lt -> Ascii.compare b c = Lt -> Ascii.compare a c = Lt.
Proof.
  unfold Ascii.compare. rewrite !N.compare_lt_iff. lia.
Qed.

Lemma compare_lt_trans (a b c : string) :
  String.compare a b = Lt -> String.compare b c = Lt -> String.compare a c = Lt.
Proof.
  revert b c. induction a as [|x a IH]; intros [|y b] [|z c]; simpl;
    try discriminate; try reflexivity.
  destruct (Ascii.compare x y) eqn:Exy; try discriminate;
    destruct (Ascii.compare y z) eqn:Eyz; try discriminate; intros H1 H2.
  - apply Ascii.compare_eq_iff in Exy, Eyz. subst.
    replace (Ascii.compare z z) with Eq; [now apply (IH b)|].
    symmetry. unfold Ascii.compare. apply N.compare_refl.
  - apply Ascii.compare_eq_iff in Exy. subst. now rewrite Eyz.
  - apply Ascii.compare_eq_iff in Eyz. subst. now rewrite Exy.
  - now rewrite (ascii_compare_lt_trans _ _ _ Exy Eyz).
Qed.

Lemma compare_refl (a : string) : String.compare a a = Eq.
Proof.
  induction a as [|x a IH]; simpl; [reflexivity|].
  replace (Ascii.compare x x) with Eq; [assumption|].
  symmetry. unfold Ascii.compare. apply N.compare_refl.
Qed.

Lemma leb_refl (a : string) : (a <=? a) = true.
Proof. unfold String.leb. now rewrite compare_refl. Qed.

Lemma ltb_irrefl (a : string) : (a <? a) = false.
Proof. unfold String.ltb. now rewrite compare_refl. Qed.

Lemma ltb_trans (a b c : string) :
  (a <? b) = true -> (b <? c) = true -> (a <? c) = true.
Proof.
  unfold String.ltb.
  destruct (String.compare a b) eqn:E1; try discriminate.
  destruct (String.compare b c) eqn:E2; try discriminate.
  now rewrite (compare_lt_trans _ _ _ E1 E2).
Qed.

Lemma leb_ltb_or_eq (a b : string) :
  (a <=? b) = true <-> (a <? b) = true \/ a = b.
Proof.
  unfold String.leb, String.ltb.
  destruct (String.compare a b) eqn:E; split; intros H; try discriminate; auto.
  - right. now apply String.compare_eq_iff.
  - destruct H as [H|H]; [discriminate|]. subst. now rewrite compare_refl in E.
Qed.

Lemma leb_trans (a b c : string) :
  (a <=? b) = true -> (b <=? c) = true -> (a <=? c) = true.
Proof.
  rewrite !leb_ltb_or_eq. intros [H1|H1] [H2|H2]; subst; auto.
  left. eapply ltb_trans; eauto.
Qed.

Lemma ltb_leb (a b : string) : (a <? b) = true -> (a <=? b) = true.
Proof. intros H. apply leb_ltb_or_eq. now left. Qed.

Lemma ltb_asym (a b : string) : (a <? b) = true -> (b <? a) = false.
Proof.
  intros H. destruct (b <? a) eqn:E; [|reflexivity].
  pose proof (ltb_trans _ _ _ H E) as Hc. now rewrite ltb_irrefl in Hc.
Qed.

Lemma leb_false_ltb (a b : string) : (a <=? b) = false -> (b <? a) = true.
Proof.
  unfold String.leb, String.ltb. rewrite (String.compare_antisym b a).
  destruct (String.compare a b); simpl; congruence.
Qed.

End TextOrder.

(** ** ORDER BY *)

Section OrderBy.
Context {A : Type} (leb : A -> A -> bool).
Hypothesis leb_total : forall a b, leb a b = true \/ leb b a = true.
Hypothesis leb_trans :
  forall a b c, leb a b = true -> leb b c = true -> leb a c = true.

Lemma insert_ordered_perm x l : Permutation (insert_ordered leb x l) (x :: l).
Proof.
  induction l as [|y l IH]; simpl; [reflexivity|].
  destruct (leb y x).
  - rewrite IH. apply perm_swap.
  - reflexivity.
Qed.

Lemma order_by_perm l : Permutation (order_by leb l) l.
Proof.
  unfold order_by.
  assert (G : forall acc, Permutation
                (fold_left (fun acc x => insert_ordered leb x acc) l acc) (acc ++ l)).
  { induction l as [|x l IH]; intros acc; simpl.
    - now rewrite List.app_nil_r.
    - rewrite IH, insert_ordered_perm.
      change (x :: acc) with ([x] ++ acc).
      rewrite (Permutation_app_comm [x] acc), <- List.app_assoc. reflexivity. }
  apply (G []).
Qed.

Lemma order_by_In x l : In x (order_by leb l) <-> In x l.
Proof.
  split; apply Permutation_in; [|symmetry]; apply order_by_perm.
Qed.

Lemma insert_ordered_sorted x l :
  StronglySorted (fun a b => leb a b = true) l ->
  StronglySorted (fun a b => leb a b = true) (insert_ordered leb x l).
Proof.
  induction l as [|y l IH]; intros Hs; simpl.
  - repeat constructor.
  - inversion Hs as [|? ? Hs' Hall]; subst.
    destruct (leb y x) eqn:E.
    + constructor; [now apply IH|].
      apply List.Forall_forall. intros z Hz.
      apply (Permutation_in _ (insert_ordered_perm x l)) in Hz.
      destruct Hz as [<-|Hz]; [assumption|].
      rewrite List.Forall_forall in Hall. now apply Hall.
    + assert (Hxy : leb x y = true)
        by (destruct (leb_total x y) as [H|H]; [assumption|congruence]).
      constructor; [assumption|].
      constructor; [assumption|].
      apply List.Forall_forall. intros z Hz.
      rewrite List.Forall_forall in Hall. eapply leb_trans; eauto.
Qed.

Lemma order_by_sorted l :
  StronglySorted (fun a b => leb a b = true) (order_by leb l).
Proof.
  unfold order_by.
  assert (G : forall acc, StronglySorted (fun a b => leb a b = true) acc ->
                StronglySorted (fun a b => leb a b = true)
                  (fold_left (fun acc x => insert_ordered leb x acc) l acc)).
  { induction l as [|x l IH]; intros acc Hacc; simpl; [assumption|].
    apply IH. now apply insert_ordered_sorted. }
  apply G. constructor.
Qed.

End OrderBy.

(** The paired join is ordered with the same sort. *)
Lemma order_by_time_order_by l :
  order_by_time l = order_by (fun y x => o_time (fst y) <=? o_time (fst x)) l.
Proof.
  unfold order_by_time, order_by.
  generalize (@nil (ObservationRow * ForecastRow)).
  induction l as [|x l IH]; intros acc; simpl; [reflexivity|].
  rewrite <- IH. f_equal.
  clear. induction acc as [|y acc IHa]; simpl; [reflexivity|].
  destruct (o_time (fst y) <=? o_time (fst x)); [now rewrite IHa | reflexivity].
Qed.

(** A sorted list read by position. *)
Lemma StronglySorted_lookup {A : Type} (R : A -> A -> Prop) (l : list A) :
  StronglySorted R l ->
  forall i j a b, (i < j)%nat -> l !! i = Some a -> l !! j = Some b -> R a b.
Proof.
  induction 1 as [|x l Hs IH Hall]; intros i j a b Hij Hi Hj.
  - destruct i; discriminate.
  - destruct j as [|j]; [lia|]. simpl in Hj.
    destruct i as [|i]; simpl in Hi.
    + inversion Hi; subst. rewrite List.Forall_forall in Hall.
      apply Hall. apply list_elem_of_In. eapply list_elem_of_lookup_2; eauto.
    + apply (IH i j); [lia|assumption|assumption].
Qed.

(** ** INSERT OR REPLACE, row after row *)

Section Replace.
Context {A : Type} (same : A -> A -> bool).

Lemma filter_filter_and (p q : A -> bool) (l : list A) :
  List.filter p (List.filter q l) = List.filter (fun x => q x && p x) l.
Proof.
  induction l as [|a l IH]; simpl; [reflexivity|].
  destruct (q a); simpl; [destruct (p a)|]; now rewrite IH.
Qed.

(** What a batch of writes leaves: the old rows whose key is not in the
    batch, then of each key of the batch the last row. *)
Lemma fold_replace (rs tbl : list A) :
  fold_left (fun t r => List.filter (fun x => negb (same x r)) t ++ [r]) rs tbl
  = List.filter (fun x => negb (existsb (same x) rs)) tbl ++ last_of_each same rs.
Proof.
  revert tbl. induction rs as [|r rs IH]; intros tbl; simpl.
  - rewrite List.app_nil_r. symmetry. apply List.forallb_filter_id.
    now apply forallb_forall.
  - rewrite IH, List.filter_app, filter_filter_and, <- List.app_assoc.
    f_equal.
    + apply List.filter_ext. intros x. now rewrite negb_orb.
    + simpl. now destruct (existsb (same r) rs).
Qed.

Lemma last_of_each_In (x : A) (rs : list A) :
  In x (last_of_each same rs)
  <-> exists pre post, rs = pre ++ x :: post /\ existsb (same x) post = false.
Proof.
  induction rs as [|r rs IH]; simpl.
  - split; [tauto|]. intros (pre & post & Heq & _). now destruct pre.
  - split.
    + destruct (existsb (same r) rs) eqn:E.
      * intros Hin. apply IH in Hin. destruct Hin as (pre & post & -> & Hp).
        exists (r :: pre), post. auto.
      * intros [<-|Hin]; [exists [], rs; auto|].
        apply IH in Hin. destruct Hin as (pre & post & -> & Hp).
        exists (r :: pre), post. auto.
    + intros (pre & post & Heq & Hp). destruct pre as [|p pre]; simpl in Heq.
      * inversion Heq; subst. rewrite Hp. now left.
      * inversion Heq; subst.
        assert (Hin : In x (last_of_each same (pre ++ x :: post)))
          by (apply IH; eauto).
        destruct (existsb (same p) (pre ++ x :: post)); [assumption|now right].
Qed.

Lemma last_of_each_incl (x : A) (rs : list A) :
  In x (last_of_each same rs) -> In x rs.
Proof.
  intros H. apply last_of_each_In in H. destruct H as (pre & post & -> & _).
  apply in_elt.
Qed.

Lemma filter_none (p : A -> bool) (l : list A) :
  (forall x, In x l -> p x = false) -> List.filter p l = [].
Proof.
  induction l as [|a l IH]; simpl; intros H; [reflexivity|].
  rewrite (H a) by now left. apply IH. intros x Hx. apply H. now right.
Qed.

Lemma existsb_same_In (x : A) (rs : list A) :
  same x x = true -> In x rs -> existsb (same x) rs = true.
Proof.
  intros Hr Hin. apply existsb_exists. eauto.
Qed.

Hypothesis same_refl : forall x, same x x = true.

(** Writing a batch a second time changes nothing. *)
Lemma fold_replace_idempotent (rs tbl : list A) :
  let write :=
    fold_left (fun t r => List.filter (fun x => negb (same x r)) t ++ [r]) rs in
  write (write tbl) = write tbl.
Proof.
  cbv zeta. rewrite !fold_replace, List.filter_app, filter_filter_and.
  rewrite <- List.app_assoc. f_equal.
  - apply List.filter_ext. intros x. now rewrite andb_diag.
  - rewrite filter_none; [reflexivity|].
    intros x Hx. apply last_of_each_incl in Hx.
    now rewrite existsb_same_In.
Qed.

End Replace.

(** ** db.py: what the two inserts leave in the tables *)

Section Writes.

Lemma fold_left_map {A B C : Type} (g : C -> B -> C) (h : A -> B) (l : list A) (c : C) :
  fold_left (fun acc a => g acc (h a)) l c = fold_left g (List.map h l) c.
Proof.
  revert c. induction l as [|a l IH]; intros c; simpl; [reflexivity|apply IH].
Qed.

Lemma insert_observations_eq rows db :
  observations (insert_observations rows db)
  = List.filter (fun o => negb (existsb (fun r => o_time o =? o_time r)
                                        (List.map observation_of_row rows)))
                (observations db)
    ++ last_of_each (fun x r => o_time x =? o_time r)
                    (List.map observation_of_row rows).
Proof.
  unfold insert_observations. cbn [observations].
  rewrite <- (fold_replace (fun x r => o_time x =? o_time r)).
  unfold replace_observation.
  apply (fold_left_map
           (fun t r => List.filter (fun x => negb (o_time x =? o_time r)) t ++ [r])
           observation_of_row).
Qed.

Lemma insert_forecasts_eq rows source fetched_at db :
  forecasts (insert_forecasts rows source fetched_at db)
  = List.filter (fun f => negb (existsb (same_forecast_key f)
                   (List.map (fun row => forecast_of_row row source fetched_at) rows)))
                (forecasts db)
    ++ last_of_each same_forecast_key
         (List.map (fun row => forecast_of_row row source fetched_at) rows).
Proof.
  unfold insert_forecasts. cbn [forecasts].
  rewrite <- (fold_replace same_forecast_key).
  unfold replace_forecast.
  apply (fold_left_map
           (fun t r => List.filter (fun x => negb (same_forecast_key x r)) t ++ [r])
           (fun row => forecast_of_row row source fetched_at)).
Qed.

Lemma same_forecast_key_refl f : same_forecast_key f f = true.
Proof. unfold same_forecast_key. now rewrite !String.eqb_refl. Qed.

Lemma same_forecast_key_eq f g :
  same_forecast_key f g = true <-> forecast_key f = forecast_key g.
Proof.
  unfold same_forecast_key, forecast_key.
  rewrite !andb_true_iff, !String.eqb_eq. split.
  - intros [[-> ->] ->]. reflexivity.
  - intros [= -> -> ->]. auto.
Qed.

(** The last row of a batch for a given key. *)
Lemma last_of_each_exists {A : Type} (same : A -> A -> bool) (rs : list A) (r : A) :
  (forall x, same x x = true) ->
  (forall x y z, same x y = true -> same y z = true -> same x z = true) ->
  In r rs -> exists r', In r' (last_of_each same rs) /\ same r r' = true.
Proof.
  intros Hrefl Htrans. revert r.
  induction rs as [|a rs IH]; intros r; simpl; [tauto|].
  intros [<-|Hin].
  - destruct (existsb (same a) rs) eqn:E.
    + apply existsb_exists in E. destruct E as [b [Hb Hab]].
      destruct (IH b Hb) as [r' [Hr' Hbr']]. exists r'. split; [assumption|].
      eapply Htrans; eauto.
    + exists a. split; [now left|apply Hrefl].
  - destruct (IH r Hin) as [r' [Hr' Hrr']].
    exists r'. split; [|assumption].
    destruct (existsb (same a) rs); [assumption|now right].
Qed.

Lemma same_forecast_key_trans f g h :
  same_forecast_key f g = true -> same_forecast_key g h = true ->
  same_forecast_key f h = true.
Proof.
  rewrite !same_forecast_key_eq. congruence.
Qed.

(** Every row after a batch is an earlier row or a row of the batch. *)
Lemma insert_forecasts_In_inv rows source fetched_at db f :
  In f (forecasts (insert_forecasts rows source fetched_at db)) ->
  In f (forecasts db)
  \/ exists row, In row rows /\ f = forecast_of_row row source fetched_at.
Proof.
  intros Hf. rewrite insert_forecasts_eq, in_app_iff in Hf.
  destruct Hf as [Hf|Hf].
  - left. now apply filter_In in Hf.
  - right. apply last_of_each_incl in Hf.
    apply in_map_iff in Hf. destruct Hf as [row [<- Hrow]]. eauto.
Qed.

(** Every row of the batch has its key in the table afterwards. *)
Lemma insert_forecasts_keys rows source fetched_at db row :
  In row rows ->
  In (fetched_at, r_time row, source)
     (List.map forecast_key (forecasts (insert_forecasts rows source fetched_at db))).
Proof.
  intros Hrow. rewrite insert_forecasts_eq, List.map_app, in_app_iff.
  right.
  destruct (last_of_each_exists same_forecast_key
              (List.map (fun row => forecast_of_row row source fetched_at) rows)
              (forecast_of_row row source fetched_at))
    as [g [Hg Hsame]].
  - apply same_forecast_key_refl.
  - apply same_forecast_key_trans.
  - apply in_map_iff. eauto.
  - apply same_forecast_key_eq in Hsame.
    change (fetched_at, r_time row, source)
      with (forecast_key (forecast_of_row row source fetched_at)).
    rewrite Hsame. now apply in_map.
Qed.

Lemma insert_observations_In_inv rows db o :
  In o (observations (insert_observations rows db)) ->
  In o (observations db)
  \/ exists row, In row rows /\ o = observation_of_row row.
Proof.
  intros Ho. rewrite insert_observations_eq, in_app_iff in Ho.
  destruct Ho as [Ho|Ho].
  - left. now apply filter_In in Ho.
  - right. apply last_of_each_incl in Ho.
    apply in_map_iff in Ho. destruct Ho as [row [<- Hrow]]. eauto.
Qed.

Lemma insert_observations_times rows db row :
  In row rows ->
  In (r_time row) (List.map o_time (observations (insert_observations rows db))).
Proof.
  intros Hrow. rewrite insert_observations_eq, List.map_app, in_app_iff.
  right.
  destruct (last_of_each_exists (fun x r => o_time x =? o_time r)
              (List.map observation_of_row rows) (observation_of_row row))
    as [o [Ho Hsame]].
  - intros x. apply String.eqb_refl.
  - intros x y z Hxy Hyz. apply String.eqb_eq in Hxy, Hyz.
    apply String.eqb_eq. congruence.
  - now apply in_map.
  - apply String.eqb_eq in Hsame. simpl in Hsame. rewrite Hsame.
    now apply in_map.
Qed.

End Writes.

(** X1.  [insert_observations] writes row after row with INSERT OR
    REPLACE.  After a batch the table holds the earlier rows whose time is
    not in the batch, in their order, followed by the rows of the batch,
    of each time the last one only: a later row of a time replaces an
    earlier one, inside the batch and in the table.  Every time of the batch
    and every time stored before is stored afterwards, the forecasts are not
    touched, and the primary key is kept. *)
Theorem insert_observations_last_write_wins (rows : list RowDict) (db : Database) :
  let batch := List.map observation_of_row rows in
  let same_time := fun x r : ObservationRow => o_time x =? o_time r in
  let db' := insert_observations rows db in
  observations db'
  = List.filter (fun o => negb (existsb (same_time o) batch)) (observations db)
    ++ last_of_each same_time batch
  /\ forecasts db' = forecasts db
  /\ (forall row, In row rows -> In (r_time row) (List.map o_time (observations db')))
  /\ (forall t, In t (List.map o_time (observations db)) ->
                In t (List.map o_time (observations db')))
  /\ (forall o, In o (last_of_each same_time batch) <->
                exists pre row post,
                  rows = pre ++ row :: post /\ o = observation_of_row row
                  /\ forall later, In later post -> r_time later <> r_time row)
  /\ (pk_observations db -> pk_observations db').
Proof.
  cbv zeta.
  assert (Hsrc : forall row, In row rows ->
                   In (r_time row)
                      (List.map o_time (observations (insert_observations rows db))))
    by (intros row; apply insert_observations_times).
  split; [apply insert_observations_eq|].
  split; [reflexivity|].
  split; [exact Hsrc|].
  split; [|split].
  - intros t Ht. apply in_map_iff in Ht. destruct Ht as [o [<- Ho]].
    destruct (existsb (fun r => o_time o =? o_time r)
                      (List.map observation_of_row rows)) eqn:E.
    + apply existsb_exists in E. destruct E as [r [Hr Heq]].
      apply in_map_iff in Hr. destruct Hr as [row [<- Hrow]].
      apply String.eqb_eq in Heq. rewrite Heq. now apply Hsrc.
    + rewrite insert_observations_eq, List.map_app, in_app_iff. left.
      apply in_map. apply filter_In. split; [assumption|].
      now rewrite E.
  - intros o. rewrite last_of_each_In. split.
    + intros (pre & post & Heq & Hlast).
      apply map_eq_app in Heq. destruct Heq as (pre' & rest & -> & <- & Heq).
      apply map_eq_cons in Heq. destruct Heq as (row & post' & -> & <- & <-).
      exists pre', row, post'. repeat split.
      intros later Hlater Heq.
      assert (Ht : existsb (fun r => o_time (observation_of_row row) =? o_time r)
                           (List.map observation_of_row post') = true).
      { apply existsb_exists. exists (observation_of_row later).
        split; [now apply in_map|]. simpl. rewrite Heq. apply String.eqb_refl. }
      congruence.
    + intros (pre & row & post & -> & -> & Hlast).
      exists (List.map observation_of_row pre), (List.map observation_of_row post).
      split; [now rewrite List.map_app|].
      destruct (existsb _ _) eqn:E; [|reflexivity].
      apply existsb_exists in E. destruct E as [r [Hr Heq]].
      apply in_map_iff in Hr. destruct Hr as [later [<- Hlater]].
      apply String.eqb_eq in Heq. simpl in Heq.
      exfalso. apply (Hlast later Hlater). now symmetry.
  - apply insert_observations_pk.
Qed.

(** X2.  [insert_forecasts] replaces by the key (fetched_at, valid_time,
    source).  After a batch the table holds the earlier rows whose key is
    not in the batch, then of each valid time of the batch its last row,
    stored under the given source and issue time.  A row of another issue
    or another source is never removed or changed, every row of the result
    is an earlier row or a row of the batch, the observations are not
    touched, and the primary key is kept. *)
Theorem insert_forecasts_keeps_other_issues
        (rows : list RowDict) (source fetched_at : string) (db : Database) :
  let batch := List.map (fun row => forecast_of_row row source fetched_at) rows in
  let db' := insert_forecasts rows source fetched_at db in
  forecasts db'
  = List.filter (fun f => negb (existsb (same_forecast_key f) batch)) (forecasts db)
    ++ last_of_each same_forecast_key batch
  /\ observations db' = observations db
  /\ (forall f, In f (forecasts db) ->
                f_fetched_at f <> fetched_at \/ f_source f <> source ->
                In f (forecasts db'))
  /\ (forall row, In row rows ->
                  In (fetched_at, r_time row, source)
                     (List.map forecast_key (forecasts db')))
  /\ (forall f, In f (forecasts db') ->
                In f (forecasts db)
                \/ exists row, In row rows /\ f = forecast_of_row row source fetched_at)
  /\ (pk_forecasts db -> pk_forecasts db').
Proof.
  cbv zeta. split; [apply insert_forecasts_eq|].
  split; [reflexivity|].
  split; [|split; [|split]].
  - intros f Hf Hother. rewrite insert_forecasts_eq, in_app_iff. left.
    apply filter_In. split; [assumption|].
    destruct (existsb _ _) eqn:E; [|reflexivity].
    apply existsb_exists in E. destruct E as [g [Hg Hsame]].
    apply in_map_iff in Hg. destruct Hg as [row [<- _]].
    apply same_forecast_key_eq in Hsame. unfold forecast_key in Hsame.
    simpl in Hsame. inversion Hsame. tauto.
  - intros row. apply insert_forecasts_keys.
  - intros f. apply insert_forecasts_In_inv.
  - apply insert_forecasts_pk.
Qed.

(** ** collector.py: storing a reply twice *)

Section StoreTwice.

Lemma insert_observations_twice rows db :
  insert_observations rows (insert_observations rows db)
  = insert_observations rows db.
Proof.
  unfold insert_observations. cbn [observations forecasts]. f_equal.
  unfold replace_observation.
  rewrite !(fold_left_map
              (fun t r => List.filter (fun x => negb (o_time x =? o_time r)) t ++ [r])
              observation_of_row).
  apply (fold_replace_idempotent (fun x r => o_time x =? o_time r)).
  intros x. apply String.eqb_refl.
Qed.

Lemma insert_forecasts_twice rows source fetched_at db :
  insert_forecasts rows source fetched_at
                   (insert_forecasts rows source fetched_at db)
  = insert_forecasts rows source fetched_at db.
Proof.
  unfold insert_forecasts. cbn [observations forecasts]. f_equal.
  unfold replace_forecast.
  rewrite !(fold_left_map
              (fun t r => List.filter (fun x => negb (same_forecast_key x r)) t ++ [r])
              (fun row => forecast_of_row row source fetched_at)).
  apply (fold_replace_idempotent same_forecast_key).
  apply same_forecast_key_refl.
Qed.

End StoreTwice.

(** X3.  The three storage helpers of the collector are idempotent: when a
    reply has been stored, storing the same reply again (for a live
    forecast: under the same issue time) succeeds and leaves both tables
    exactly as they are.  The backfill and the weekly refresh of the
    observations can be run again over hours that are stored already. *)
Theorem store_again_changes_nothing (hourly : Hourly) (db : Database) :
  (forall db', store_history hourly db = Some db' ->
               store_history hourly db' = Some db')
  /\ (forall db', store_historical_forecast_chunk hourly db = Some db' ->
                  store_historical_forecast_chunk hourly db' = Some db')
  /\ (forall now_iso db', store_forecast now_iso hourly db = Some db' ->
                          store_forecast now_iso hourly db' = Some db').
Proof.
  split; [|split].
  - intros db'. unfold store_history.
    destruct (mapM _ _) as [rows|]; simpl; [|discriminate].
    intros [= <-]. now rewrite insert_observations_twice.
  - intros db'. unfold store_historical_forecast_chunk. cbv zeta.
    destruct (mapM _ _) as [rows|]; simpl; [|discriminate].
    intros [= <-]. now rewrite insert_forecasts_twice.
  - intros now_iso db'. unfold store_forecast.
    destruct (mapM _ _) as [rows|]; simpl; [|discriminate].
    intros [= <-]. now rewrite insert_forecasts_twice.
Qed.

(** ** collector.py: the rows that the storage helpers write *)

Section CollectorRows.

Lemma lookup_enumerate {A : Type} (l : list A) i a :
  l !! i = Some a -> In (i, a) (enumerate l).
Proof.
  unfold enumerate.
  assert (G : forall s, l !! i = Some a ->
                        In ((s + i)%nat, a) (combine (seq s (length l)) l)).
  { revert i. induction l as [|x l IH]; intros i s Hi; [destruct i; discriminate|].
    destruct i as [|i]; simpl in *.
    - inversion Hi; subst. left. f_equal. lia.
    - right. replace (s + S i)%nat with (S s + i)%nat by lia. now apply IH. }
  intros Hi. apply (G 0%nat Hi).
Qed.

Lemma In_lookup {A : Type} (l : list A) a : In a l -> exists i, l !! i = Some a.
Proof.
  intros H. apply list_elem_of_In, list_elem_of_lookup in H. exact H.
Qed.

Lemma lookup_In {A : Type} (l : list A) i a : l !! i = Some a -> In a l.
Proof.
  intros H. apply list_elem_of_In. eapply list_elem_of_lookup_2; eauto.
Qed.

(** [fill_vars] writes, for each of the variables, the value of the reply
    at position [i], and leaves the other entries. *)
Lemma fill_vars_lookup hourly i vars :
  forall row row', fill_vars hourly i vars row = Some row' ->
  forall var,
    (In var vars -> exists v, hourly_get hourly var i = Some v
                              /\ row' !! var = Some v)
    /\ (~ In var vars -> row' !! var = row !! var).
Proof.
  induction vars as [|a vars IH]; intros row row' Hf var; simpl in Hf.
  - inversion Hf; subst. split; [intros []|reflexivity].
  - destruct (hourly_get hourly a i) as [v|] eqn:Ha; [|discriminate].
    destruct (IH _ _ Hf var) as [Hin Hout].
    destruct (in_dec string_dec var vars) as [Hv|Hv].
    + split; [intros _; now apply Hin|]. intros Hn. exfalso. apply Hn. now right.
    + split.
      * intros [<-|Hc]; [|contradiction].
        exists v. split; [assumption|].
        rewrite (Hout Hv). apply lookup_insert_eq.
      * intros Hn. rewrite (Hout Hv). apply lookup_insert_ne.
        intros ->. apply Hn. now left.
Qed.

Lemma fill_vars_None hourly i vars row :
  fill_vars hourly i vars row = None
  <-> exists var, In var vars /\ hourly_get hourly var i = None.
Proof.
  revert row. induction vars as [|a vars IH]; intros row; simpl.
  - split; [discriminate|]. intros (var & [] & _).
  - destruct (hourly_get hourly a i) as [v|] eqn:Ha.
    + rewrite IH. split.
      * intros (var & Hin & Hn). exists var. auto.
      * intros (var & [<-|Hin] & Hn); [congruence|]. exists var. auto.
    + split; [|reflexivity]. intros _. exists a. auto.
Qed.

(** A position of the time list has no value exactly when the reply holds
    the series and the series is too short. *)
Lemma hourly_get_None hourly var i :
  (i < length (h_time hourly))%nat ->
  hourly_get hourly var i = None
  <-> exists values, h_series hourly !! var = Some values
                     /\ (length values <= i)%nat.
Proof.
  intros Hi. unfold hourly_get.
  destruct (h_series hourly !! var) as [values|].
  - rewrite lookup_ge_None. split; [eauto|]. now intros (vs & [= <-] & H).
  - apply Nat.ltb_lt in Hi. rewrite Hi. split; [discriminate|].
    now intros (vs & Hc & _).
Qed.

(** The rows that a storage helper builds from a reply. *)
Lemma built_rows (vars : list string) (post : gmap string cell -> gmap string cell)
      (lead : nat -> option Z) (hourly : Hourly) (rows : list RowDict) :
  mapM (fun '(i, t) =>
          v ← fill_vars hourly i vars ∅;
          Some {| r_time := t; r_lead_hours := lead i; r_vars := post v |})
       (enumerate (h_time hourly)) = Some rows ->
  (forall row, In row rows ->
     exists i v, h_time hourly !! i = Some (r_time row)
                 /\ r_lead_hours row = lead i
                 /\ fill_vars hourly i vars ∅ = Some v
                 /\ r_vars row = post v)
  /\ (forall t, In t (h_time hourly) -> exists row, In row rows /\ r_time row = t).
Proof.
  intros Hm. apply mapM_Some_1 in Hm. split.
  - intros row Hrow. apply In_lookup in Hrow. destruct Hrow as [k Hk].
    destruct (Forall2_lookup_r _ _ _ _ _ Hm Hk) as [[i t] [Hit Hb]].
    apply lookup_In, enumerate_lookup in Hit.
    destruct (fill_vars hourly i vars ∅) as [v|] eqn:Hv; simpl in Hb; [|discriminate].
    inversion Hb; subst. simpl. exists i, v. auto.
  - intros t Ht. apply In_lookup in Ht. destruct Ht as [i Hi].
    apply lookup_enumerate, In_lookup in Hi. destruct Hi as [k Hk].
    destruct (Forall2_lookup_l _ _ _ _ _ Hm Hk) as [row [Hrow Hb]].
    destruct (fill_vars hourly i vars ∅) as [v|] eqn:Hv; simpl in Hb; [|discriminate].
    inversion Hb; subst. exists {| r_time := t; r_lead_hours := lead i; r_vars := post v |}.
    split; [eapply lookup_In; eauto | reflexivity].
Qed.

(** Building the rows raises exactly when a series of the reply is shorter
    than the list of times. *)
Lemma built_rows_None (vars : list string) (post : gmap string cell -> gmap string cell)
      (lead : nat -> option Z) (hourly : Hourly) :
  mapM (fun '(i, t) =>
          v ← fill_vars hourly i vars ∅;
          Some {| r_time := t; r_lead_hours := lead i; r_vars := post v |})
       (enumerate (h_time hourly)) = None
  <-> exists var values, In var vars /\ h_series hourly !! var = Some values
                         /\ (length values < length (h_time hourly))%nat.
Proof.
  rewrite mapM_None, List.Exists_exists. split.
  - intros ([i t] & Hin & Hn).
    apply enumerate_lookup in Hin.
    pose proof (lookup_lt_Some _ _ _ Hin) as Hlt.
    destruct (fill_vars hourly i vars ∅) as [v|] eqn:Hv; simpl in Hn; [discriminate|].
    apply fill_vars_None in Hv. destruct Hv as (var & Hvar & Hg).
    apply hourly_get_None in Hg; [|assumption].
    destruct Hg as (values & Hs & Hlen). exists var, values.
    repeat split; [assumption|assumption|lia].
  - intros (var & values & Hvar & Hs & Hlen).
    destruct (lookup_lt_is_Some_2 (h_time hourly) (length values) Hlen) as [t Ht].
    exists (length values, t). split; [now apply lookup_enumerate|].
    assert (Hf : fill_vars hourly (length values) vars ∅ = None).
    { apply fill_vars_None. exists var. split; [assumption|].
      apply hourly_get_None; [assumption|]. exists values. auto. }
    now rewrite Hf.
Qed.

Lemma forecast_of_row_column row source fetched_at var :
  In var Config.HOURLY_FORECAST_VARS ->
  column_of forecast_columns var (forecast_of_row row source fetched_at)
  = row_get row var.
Proof.
  intros Hin. simpl in Hin.
  repeat (destruct Hin as [<-|Hin]; [reflexivity|]). contradiction.
Qed.

Lemma observation_of_row_column row var :
  In var Config.HOURLY_HISTORY_VARS ->
  column_of observation_columns var (observation_of_row row) = row_get row var.
Proof.
  intros Hin. simpl in Hin.
  repeat (destruct Hin as [<-|Hin]; [reflexivity|]). contradiction.
Qed.

End CollectorRows.

Section StoredRows.

Lemma default_vars_lookup vars (row : gmap string cell) var :
  default_vars vars row !! var
  = match row !! var with
    | Some c => Some c
    | None => if in_dec string_dec var vars then Some None else None
    end.
Proof.
  unfold default_vars, cell in *. revert row.
  induction vars as [|a vars IH]; intros row; simpl.
  - now destruct (row !! var).
  - rewrite IH. destruct (row !! a) as [c|] eqn:Ha.
    + destruct (row !! var) eqn:Hv; [reflexivity|].
      destruct (string_dec a var) as [->|Hne]; [congruence|].
      now destruct (in_dec string_dec var vars).
    + destruct (string_dec a var) as [->|Hne].
      * rewrite lookup_insert_eq, Ha. reflexivity.
      * rewrite lookup_insert_ne by assumption.
        destruct (row !! var); [reflexivity|].
        now destruct (in_dec string_dec var vars).
Qed.

(** The cells of a built row are the values of the reply at the position
    of the row. *)
Lemma built_row_cell hourly i vars v (row : RowDict) var :
  fill_vars hourly i vars ∅ = Some v ->
  r_vars row = v \/ r_vars row = default_vars Config.HOURLY_FORECAST_VARS v ->
  In var vars ->
  hourly_get hourly var i = Some (row_get row var).
Proof.
  intros Hv Hrow Hin.
  destruct (fill_vars_lookup _ _ _ _ _ Hv var) as [Hl _].
  destruct (Hl Hin) as [c [Hg Hc]]. rewrite Hg. f_equal.
  unfold row_get.
  destruct Hrow as [->| ->].
  - unfold cell in *. now rewrite Hc.
  - pose proof (default_vars_lookup Config.HOURLY_FORECAST_VARS v var) as Hd.
    unfold cell in *. rewrite Hd, Hc. reflexivity.
Qed.

End StoredRows.

(** X4.  [store_forecast] raises exactly when the reply holds a series of
    one of the forecast variables that is shorter than its list of times,
    and then nothing is written.  Otherwise every time of the reply is
    stored under the issue time of the run, and every row that was not in
    the table before is a best_match row of this issue whose lead time is
    its position in the reply and whose columns hold the values of the
    reply at that position (NULL for a variable that the reply lacks).
    The observations are not touched. *)
Theorem store_forecast_rows (now_iso : string) (hourly : Hourly) (db : Database) :
  (store_forecast now_iso hourly db = None
   <-> exists var values,
         In var Config.HOURLY_FORECAST_VARS
         /\ h_series hourly !! var = Some values
         /\ (length values < length (h_time hourly))%nat)
  /\ (forall db', store_forecast now_iso hourly db = Some db' ->
        observations db' = observations db
        /\ (forall t, In t (h_time hourly) ->
                      In (now_iso, t, "best_match")
                         (List.map forecast_key (forecasts db')))
        /\ (forall f, In f (forecasts db') ->
              In f (forecasts db)
              \/ (f_fetched_at f = now_iso /\ f_source f = "best_match"
                  /\ exists i,
                       h_time hourly !! i = Some (f_valid_time f)
                       /\ f_lead_hours f = Some (Z.of_nat i)
                       /\ forall var, In var Config.HOURLY_FORECAST_VARS ->
                            hourly_get hourly var i
                            = Some (column_of forecast_columns var f)))).
Proof.
  unfold store_forecast. split.
  - rewrite <- (built_rows_None Config.HOURLY_FORECAST_VARS (fun v => v)
                                (fun i => Some (Z.of_nat i)) hourly).
    destruct (mapM _ _); simpl; split; congruence.
  - intros db'.
    destruct (mapM _ _) as [rows|] eqn:Hm; simpl; [|discriminate].
    intros [= <-].
    destruct (built_rows Config.HOURLY_FORECAST_VARS (fun v => v)
                         (fun i => Some (Z.of_nat i)) hourly rows Hm)
      as [Hrows Htimes].
    split; [reflexivity|]. split.
    + intros t Ht. destruct (Htimes t Ht) as (row & Hrow & <-).
      now apply insert_forecasts_keys.
    + intros f Hf. apply insert_forecasts_In_inv in Hf.
      destruct Hf as [Hf|(row & Hrow & ->)]; [now left|]. right.
      destruct (Hrows row Hrow) as (i & v & Hi & Hlead & Hv & Hvars).
      repeat split. exists i. repeat split; [assumption|assumption|].
      intros var Hvar. rewrite forecast_of_row_column by assumption.
      eapply built_row_cell; eauto.
Qed.

(** X5.  [store_historical_forecast_chunk] stores every time of the reply
    under the marker 'backfill'.  Every row that was not in the table
    before is a best_match row with that marker, a NULL lead time, NULL
    precipitation probability and NULL visibility (whatever the reply
    holds for them) and, in the columns of the eleven historical
    variables, the values of the reply at the position of its time.  The
    call raises exactly when a series of one of those variables is shorter
    than the list of times. *)
Theorem store_historical_forecast_chunk_rows (hourly : Hourly) (db : Database) :
  (store_historical_forecast_chunk hourly db = None
   <-> exists var values,
         In var Config.HOURLY_HISTORICAL_FORECAST_VARS
         /\ h_series hourly !! var = Some values
         /\ (length values < length (h_time hourly))%nat)
  /\ (forall db', store_historical_forecast_chunk hourly db = Some db' ->
        observations db' = observations db
        /\ (forall t, In t (h_time hourly) ->
                      In ("backfill", t, "best_match")
                         (List.map forecast_key (forecasts db')))
        /\ (forall f, In f (forecasts db') ->
              In f (forecasts db)
              \/ (f_fetched_at f = "backfill" /\ f_source f = "best_match"
                  /\ f_lead_hours f = None
                  /\ f_precipitation_probability f = None
                  /\ f_visibility f = None
                  /\ exists i,
                       h_time hourly !! i = Some (f_valid_time f)
                       /\ forall var,
                            In var Config.HOURLY_HISTORICAL_FORECAST_VARS ->
                            hourly_get hourly var i
                            = Some (column_of forecast_columns var f)))).
Proof.
  unfold store_historical_forecast_chunk. cbv zeta. split.
  - rewrite <- (built_rows_None Config.HOURLY_HISTORICAL_FORECAST_VARS
                  (default_vars Config.HOURLY_FORECAST_VARS)
                  (fun _ => None) hourly).
    destruct (mapM _ _); simpl; split; congruence.
  - intros db'.
    destruct (mapM _ _) as [rows|] eqn:Hm; simpl; [|discriminate].
    intros [= <-].
    destruct (built_rows Config.HOURLY_HISTORICAL_FORECAST_VARS
                (default_vars Config.HOURLY_FORECAST_VARS)
                (fun _ => None) hourly rows Hm)
      as [Hrows Htimes].
    split; [reflexivity|]. split.
    + intros t Ht. destruct (Htimes t Ht) as (row & Hrow & <-).
      now apply insert_forecasts_keys.
    + intros f Hf. apply insert_forecasts_In_inv in Hf.
      destruct Hf as [Hf|(row & Hrow & ->)]; [now left|]. right.
      destruct (Hrows row Hrow) as (i & v & Hi & Hlead & Hv & Hvars).
      assert (Hnull : forall var,
                 ~ In var Config.HOURLY_HISTORICAL_FORECAST_VARS ->
                 row_get row var = None).
      { intros var Hn. unfold row_get. rewrite Hvars.
        pose proof (default_vars_lookup Config.HOURLY_FORECAST_VARS v var) as Hd.
        destruct (fill_vars_lookup _ _ _ _ _ Hv var) as [_ Hout].
        specialize (Hout Hn). rewrite lookup_empty in Hout.
        unfold cell in *. rewrite Hd, Hout.
        now destruct (in_dec string_dec var Config.HOURLY_FORECAST_VARS). }
      split; [reflexivity|]. split; [reflexivity|]. split; [assumption|].
      split; [|split].
      * cbn [forecast_of_row f_precipitation_probability]. apply Hnull.
        simpl. intuition discriminate.
      * cbn [forecast_of_row f_visibility]. apply Hnull.
        simpl. intuition discriminate.
      * exists i. split; [assumption|].
        intros var Hvar. rewrite forecast_of_row_column.
        -- eapply built_row_cell; eauto.
        -- simpl in Hvar. simpl. intuition.
Qed.

(** ** db.py: which hours the paired join returns, and in which order *)

Section PairedComplete.

Lemma same_partition_refl f : same_partition f f = true.
Proof. unfold same_partition. now rewrite !String.eqb_refl. Qed.

Lemma same_partition_eq f g :
  same_partition f g = true
  <-> f_valid_time f = f_valid_time g /\ f_source f = f_source g.
Proof.
  unfold same_partition. now rewrite andb_true_iff, !String.eqb_eq.
Qed.

Lemma numbered_before_eq i f j g :
  numbered_before i f (j, g) = true
  <-> (f_valid_time f = f_valid_time g /\ f_source f = f_source g)
      /\ ((f_fetched_at f <? f_fetched_at g) = true
          \/ (f_fetched_at g = f_fetched_at f /\ (j < i)%nat)).
Proof.
  unfold numbered_before. cbn [fst snd].
  rewrite andb_true_iff, orb_true_iff, andb_true_iff, same_partition_eq,
    String.eqb_eq, Nat.ltb_lt.
  reflexivity.
Qed.

Lemma numbered_before_irrefl i f : numbered_before i f (i, f) = false.
Proof.
  destruct (numbered_before i f (i, f)) eqn:E; [|reflexivity].
  apply numbered_before_eq in E. destruct E as [_ [E|[_ E]]]; [|lia].
  now rewrite ltb_irrefl in E.
Qed.

Lemma numbered_before_trans i f j g k h :
  numbered_before i f (j, g) = true -> numbered_before j g (k, h) = true ->
  numbered_before i f (k, h) = true.
Proof.
  rewrite !numbered_before_eq.
  intros [[Hv1 Hs1] H1] [[Hv2 Hs2] H2].
  split; [split; congruence|].
  destruct H1 as [H1|[H1 L1]], H2 as [H2|[H2 L2]].
  - left. eapply ltb_trans; eauto.
  - left. now rewrite H2.
  - left. now rewrite <- H1.
  - right. split; [congruence|lia].
Qed.

(** A list of candidates that is not empty has a row that no other row is
    numbered before. *)
Lemma exists_first (cands : list (nat * ForecastRow)) :
  cands <> [] ->
  exists x, In x cands
            /\ forall y, In y cands -> numbered_before (fst x) (snd x) y = false.
Proof.
  induction cands as [|x rest IH]; intros Hne; [congruence|].
  destruct rest as [|x' rest'].
  - exists x. split; [now left|]. intros y [<-|[]].
    destruct x. apply numbered_before_irrefl.
  - destruct IH as [m [Hm Hmin]]; [discriminate|].
    destruct (numbered_before (fst m) (snd m) x) eqn:E.
    + exists x. split; [now left|]. intros y [<-|Hy].
      * destruct x. apply numbered_before_irrefl.
      * destruct (numbered_before (fst x) (snd x) y) eqn:Ey; [|reflexivity].
        destruct x as [j g], y as [k h], m as [i f]. cbn [fst snd] in *.
        pose proof (numbered_before_trans _ _ _ _ _ _ E Ey) as Hc.
        specialize (Hmin (k, h) Hy). cbn [fst snd] in Hmin. congruence.
    + exists m. split; [now right|]. intros y [<-|Hy]; [assumption|].
      now apply Hmin.
Qed.

(** Every partition that holds a row holds a row numbered 1. *)
Lemma has_first tbl f :
  In f tbl ->
  exists i g, In (i, g) (enumerate tbl) /\ same_partition f g = true
              /\ row_number tbl i g = 1%nat.
Proof.
  intros Hf.
  destruct (exists_first
              (List.filter (fun jg => same_partition f (snd jg)) (enumerate tbl)))
    as [[i g] [Hin Hmin]].
  - apply In_enumerate in Hf. destruct Hf as [i0 Hi0].
    intros Hnil.
    assert (Hc : In (i0, f) (List.filter (fun jg => same_partition f (snd jg))
                                         (enumerate tbl))).
    { apply filter_In. split; [assumption|]. apply same_partition_refl. }
    rewrite Hnil in Hc. contradiction.
  - apply filter_In in Hin. destruct Hin as [Hin Hp]. cbn [snd] in Hp.
    exists i, g. repeat split; [assumption|assumption|].
    unfold row_number. rewrite filter_none; [reflexivity|].
    intros [j h] Hj. cbn [fst snd] in Hmin.
    destruct (same_partition f h) eqn:Eh.
    + apply Hmin. apply filter_In. auto.
    + destruct (numbered_before i g (j, h)) eqn:E; [|reflexivity].
      apply numbered_before_eq in E. destruct E as [[Hv Hs] _].
      apply same_partition_eq in Hp. destruct Hp as [Hv' Hs'].
      assert (Hc : same_partition f h = true)
        by (apply same_partition_eq; split; congruence).
      congruence.
Qed.

(** The times of the paired table: the times of the observations for which
    a best_match forecast is stored. *)
Lemma paired_times_iff db t :
  In t (List.map time (load_paired_data db))
  <-> In t (List.map o_time (observations db))
      /\ exists g, In g (forecasts db) /\ f_source g = "best_match"
                   /\ f_valid_time g = t.
Proof.
  rewrite load_paired_data_times, !in_map_iff. split.
  - intros [[o f] [<- Hin]]. cbn [fst].
    pose proof (paired_join_latest _ _ _ Hin) as (Hf & Hs & Hv & _).
    apply paired_join_In in Hin. destruct Hin as [Ho _].
    split; [eauto|]. exists f. auto.
  - intros [[o [<- Ho]] [g (Hg & Hs & Hv)]].
    assert (Hgc : In g (best_match_rows (forecasts db)))
      by (apply best_match_rows_In; auto).
    destruct (has_first _ _ Hgc) as (i & f & Hi & Hp & Hrn).
    apply same_partition_eq in Hp. destruct Hp as [Hpv Hps].
    exists (o, f). split; [reflexivity|].
    apply paired_join_In. split; [assumption|].
    exists i. repeat split; [assumption|congruence|assumption].
Qed.

Lemma StronglySorted_map {A B : Type} (R : A -> A -> Prop) (R' : B -> B -> Prop)
      (h : A -> B) (l : list A) :
  (forall a b, R a b -> R' (h a) (h b)) ->
  StronglySorted R l -> StronglySorted R' (List.map h l).
Proof.
  intros HR. induction 1 as [|a l Hs IH Hall]; simpl; constructor; [assumption|].
  apply List.Forall_forall. intros b Hb.
  apply in_map_iff in Hb. destruct Hb as [x [<- Hx]].
  rewrite List.Forall_forall in Hall. auto.
Qed.

Lemma load_paired_data_sorted db :
  StronglySorted (fun p q => (time p <=? time q) = true) (load_paired_data db).
Proof.
  unfold load_paired_data, paired_join. rewrite order_by_time_order_by.
  apply (StronglySorted_map
           (fun y x => (o_time (fst y) <=? o_time (fst x)) = true)).
  - now intros [o f] [o' f'].
  - apply order_by_sorted.
    + intros a b. apply String.leb_total.
    + intros a b c. apply leb_trans.
Qed.

Lemma inner_join_length obs lf :
  (forall o, (length (List.filter (join_on o) lf) <= 1)%nat) ->
  (length (inner_join obs lf) <= length obs)%nat.
Proof.
  intros H. unfold inner_join. induction obs as [|o obs IH]; simpl; [lia|].
  rewrite length_app, length_map. specialize (H o). lia.
Qed.

Lemma load_paired_data_length db :
  (length (load_paired_data db) <= length (observations db))%nat.
Proof.
  unfold load_paired_data, paired_join. rewrite length_map.
  rewrite (Permutation_length (order_by_time_perm _)).
  apply inner_join_length. intros o. apply join_on_at_most_one.
Qed.

End PairedComplete.

(** X6.  [load_paired_data] drops no hour that it could pair and returns
    the hours in order: a time is in the result exactly when an observation
    of that time is stored and at least one best_match forecast is stored
    for it, whatever its issue; the rows come in ascending order of the
    time text; there are at most as many rows as observations. *)
Theorem load_paired_data_complete_and_ordered (db : Database) :
  (forall t, In t (List.map time (load_paired_data db))
             <-> In t (List.map o_time (observations db))
                 /\ exists g, In g (forecasts db) /\ f_source g = "best_match"
                              /\ f_valid_time g = t)
  /\ StronglySorted (fun p q => (time p <=? time q) = true) (load_paired_data db)
  /\ (forall i j p q, (i < j)%nat -> load_paired_data db !! i = Some p ->
                      load_paired_data db !! j = Some q ->
                      (time p <=? time q) = true)
  /\ (length (load_paired_data db) <= length (observations db))%nat.
Proof.
  split; [intros t; apply paired_times_iff|].
  split; [apply load_paired_data_sorted|].
  split; [|apply load_paired_data_length].
  apply (StronglySorted_lookup _ _ (load_paired_data_sorted db)).
Qed.

(** ** collector.py: the archive fallback *)

Section ArchiveFallback.

Lemma backfill_forecasts_from_archive_eq db :
  forecasts (backfill_forecasts_from_archive db)
  = List.filter (fun f => negb (existsb (same_forecast_key f)
                                        (List.map archive_forecast (observations db))))
                (forecasts db)
    ++ last_of_each same_forecast_key (List.map archive_forecast (observations db)).
Proof.
  unfold backfill_forecasts_from_archive. cbn [forecasts].
  rewrite <- (fold_replace same_forecast_key).
  unfold replace_forecast.
  apply (fold_left_map
           (fun t r => List.filter (fun x => negb (same_forecast_key x r)) t ++ [r])
           archive_forecast).
Qed.

Lemma backfill_forecasts_from_archive_pk db :
  pk_forecasts db -> pk_forecasts (backfill_forecasts_from_archive db).
Proof.
  unfold pk_forecasts, backfill_forecasts_from_archive. cbn [forecasts].
  generalize (forecasts db).
  induction (observations db) as [|o obs IH]; intros tbl Hnd; simpl; [assumption|].
  apply IH. now apply replace_forecast_pk.
Qed.

Lemma NoDup_map_In_inj {A K : Type} (key : A -> K) (l : list A) x y :
  List.NoDup (List.map key l) -> In x l -> In y l -> key x = key y -> x = y.
Proof.
  induction l as [|a l IH]; simpl; [tauto|].
  intros Hnd Hx Hy Hk. inversion Hnd as [|? ? Hnotin Hnd']; subst.
  destruct Hx as [<-|Hx], Hy as [<-|Hy]; auto.
  - exfalso. apply Hnotin. rewrite Hk. now apply in_map.
  - exfalso. apply Hnotin. rewrite <- Hk. now apply in_map.
Qed.

(** The copy of every observation is in the forecasts table after the
    fallback. *)
Lemma archive_forecast_stored db o :
  pk_observations db -> In o (observations db) ->
  In (archive_forecast o) (forecasts (backfill_forecasts_from_archive db)).
Proof.
  intros Hpk Ho. rewrite backfill_forecasts_from_archive_eq, in_app_iff. right.
  destruct (last_of_each_exists same_forecast_key
              (List.map archive_forecast (observations db)) (archive_forecast o))
    as [a [Ha Hsame]].
  - apply same_forecast_key_refl.
  - apply same_forecast_key_trans.
  - now apply in_map.
  - pose proof (last_of_each_incl _ _ _ Ha) as Hin.
    apply in_map_iff in Hin. destruct Hin as [o' [Heq Ho']].
    subst a. apply same_forecast_key_eq in Hsame.
    unfold forecast_key in Hsame. simpl in Hsame. inversion Hsame as [Ht].
    assert (o = o') by (eapply (NoDup_map_In_inj o_time); eauto).
    now subst o'.
Qed.

(** Every issue time that the collector writes sorts at or before the
    marker of the fallback. *)
Lemma collector_marker_leb (s : string) :
  is_live s = true \/ s = "backfill" \/ s = "backfill-archive" ->
  (s <=? "backfill-archive") = true.
Proof.
  intros [H|[->| ->]]; [|reflexivity|reflexivity].
  destruct s as [|c s]; simpl in H; [discriminate|].
  unfold is_digit in H. apply andb_true_iff in H. destruct H as [_ H].
  apply Nat.leb_le in H.
  unfold String.leb. simpl. unfold Ascii.compare.
  assert (Hc : (N_of_ascii c ?= N_of_ascii "b")%N = Lt).
  { apply N.compare_lt_iff. unfold nat_of_ascii in H.
    change (N_of_ascii "b") with 98%N. lia. }
  now rewrite Hc.
Qed.

Lemma archive_rows_leb db f :
  (forall g, In g (forecasts db) ->
             is_live (f_fetched_at g) = true \/ f_fetched_at g = "backfill"
             \/ f_fetched_at g = "backfill-archive") ->
  In f (forecasts (backfill_forecasts_from_archive db)) ->
  (f_fetched_at f <=? "backfill-archive") = true.
Proof.
  intros Hw Hf. rewrite backfill_forecasts_from_archive_eq, in_app_iff in Hf.
  destruct Hf as [Hf|Hf].
  - apply filter_In in Hf. destruct Hf as [Hf _].
    apply collector_marker_leb. now apply Hw.
  - apply last_of_each_incl, in_map_iff in Hf.
    destruct Hf as [o [<- _]]. reflexivity.
Qed.

(** After the fallback, the forecast side of every paired row is the copy
    of its observation. *)
Lemma archive_paired_join db o f :
  pk_observations db -> pk_forecasts db ->
  (forall g, In g (forecasts db) ->
             is_live (f_fetched_at g) = true \/ f_fetched_at g = "backfill"
             \/ f_fetched_at g = "backfill-archive") ->
  In (o, f) (paired_join (backfill_forecasts_from_archive db)) ->
  In o (observations db) /\ f = archive_forecast o.
Proof.
  intros Hpk Hpkf Hw Hin.
  pose proof (paired_join_latest _ _ _ Hin) as (Hf & Hs & Hv & Hmax).
  apply paired_join_In in Hin. destruct Hin as [Ho _].
  cbn [backfill_forecasts_from_archive observations] in Ho.
  split; [assumption|].
  pose proof (archive_forecast_stored db o Hpk Ho) as Ha.
  assert (Hle : (f_fetched_at (archive_forecast o) <=? f_fetched_at f) = true).
  { apply Hmax; [assumption| |]; simpl; congruence. }
  pose proof (archive_rows_leb db f Hw Hf) as Hge.
  assert (Hfa : f_fetched_at f = "backfill-archive")
    by (apply String.leb_antisym; assumption).
  apply (NoDup_map_In_inj forecast_key
           (forecasts (backfill_forecasts_from_archive db)));
    [now apply backfill_forecasts_from_archive_pk | assumption | assumption |].
  unfold forecast_key. simpl. now rewrite Hfa, Hv, Hs.
Qed.

End ArchiveFallback.

(** X7.  The archive fallback takes precedence over every forecast.  In a
    database whose issue times are those that the collector writes (live
    ISO times and the two markers), after
    [backfill_forecasts_from_archive] the paired table holds every
    observation once, and each of them paired with its own copy: the
    forecast columns for temperature, dew point, humidity, pressure, wind
    and precipitation and cloud cover equal the observed columns, and
    gusts, precipitation probability, CAPE, visibility and the lead time
    are NULL, also for the hours for which a live or a backfilled forecast
    is stored. *)
Theorem archive_fallback_pairs_observations_with_themselves (db : Database) :
  pk_observations db -> pk_forecasts db ->
  (forall g, In g (forecasts db) ->
             is_live (f_fetched_at g) = true \/ f_fetched_at g = "backfill"
             \/ f_fetched_at g = "backfill-archive") ->
  let db' := backfill_forecasts_from_archive db in
  observations db' = observations db
  /\ Permutation (List.map time (load_paired_data db'))
                 (List.map o_time (observations db))
  /\ forall p, In p (load_paired_data db') ->
       (exists o, In o (observations db)
                  /\ p = select_columns (o, archive_forecast o))
       /\ fcst_temp p = obs_temp p /\ fcst_dewpoint p = obs_dewpoint p
       /\ fcst_humidity p = obs_humidity p /\ fcst_pressure p = obs_pressure p
       /\ fcst_wind_speed p = obs_wind_speed p /\ fcst_wind_dir p = obs_wind_dir p
       /\ fcst_precip p = obs_precip p /\ fcst_cloud p = obs_cloud p
       /\ fcst_wind_gust p = None /\ fcst_precip_prob p = None
       /\ fcst_cape p = None /\ fcst_visibility p = None /\ lead_hours p = None.
Proof.
  intros Hpk Hpkf Hw. cbv zeta.
  split; [reflexivity|]. split.
  - apply Permutation.NoDup_Permutation.
    + now apply paired_times_NoDup.
    + exact Hpk.
    + intros t. rewrite paired_times_iff.
      cbn [backfill_forecasts_from_archive observations]. split; [tauto|].
      intros Ht. split; [assumption|].
      apply in_map_iff in Ht. destruct Ht as [o [<- Ho]].
      exists (archive_forecast o). split; [|split; reflexivity].
      now apply archive_forecast_stored.
  - intros p Hp. unfold load_paired_data in Hp.
    apply in_map_iff in Hp. destruct Hp as [[o f] [<- Hin]].
    destruct (archive_paired_join db o f Hpk Hpkf Hw Hin) as [Ho ->].
    split; [eauto|]. simpl. repeat split.
Qed.

(** The theorem at the state reached by storing one observation, a live
    forecast and a backfilled forecast of the same hour: after the archive
    fallback the hour is paired with the observed 22 degrees, not with the
    20 or the 23 degrees of the two forecasts. *)
Lemma archive_fallback_pairs_observations_with_themselves_witness :
  pk_observations Examples.db_mixed
  /\ pk_forecasts Examples.db_mixed
  /\ forall p, In p (load_paired_data
                       (backfill_forecasts_from_archive Examples.db_mixed)) ->
               fcst_temp p = obs_temp p.
Proof.
  assert (Hpo : pk_observations Examples.db_mixed).
  { unfold pk_observations. vm_compute. repeat constructor. intros []. }
  assert (Hpf : pk_forecasts Examples.db_mixed).
  { unfold pk_forecasts. vm_compute. repeat constructor.
    - intros [Heq|[]]. discriminate Heq.
    - intros []. }
  assert (Hw : forall g, In g (forecasts Examples.db_mixed) ->
             is_live (f_fetched_at g) = true \/ f_fetched_at g = "backfill"
             \/ f_fetched_at g = "backfill-archive").
  { intros g Hg. vm_compute in Hg. destruct Hg as [<-|[<-|[]]].
    - left. reflexivity.
    - right. left. reflexivity. }
  split; [exact Hpo|]. split; [exact Hpf|].
  intros p Hp.
  destruct (archive_fallback_pairs_observations_with_themselves
              Examples.db_mixed Hpo Hpf Hw) as (_ & _ & Hall).
  exact (proj1 (proj2 (Hall p Hp))).
Defined.

(** ** db.py: load_observations and load_forecasts *)

Section Loads.

Lemma ltb_total (a b : string) :
  (a <? b) = true \/ a = b \/ (b <? a) = true.
Proof.
  destruct (String.leb_total a b) as [H|H]; apply leb_ltb_or_eq in H;
    destruct H as [H|H]; auto.
Qed.

Lemma by_valid_time_fetched_at_eq f g :
  by_valid_time_fetched_at f g = true
  <-> (f_valid_time f <? f_valid_time g) = true
      \/ (f_valid_time f = f_valid_time g
          /\ (f_fetched_at f <=? f_fetched_at g) = true).
Proof.
  unfold by_valid_time_fetched_at.
  now rewrite orb_true_iff, andb_true_iff, String.eqb_eq.
Qed.

Lemma by_valid_time_fetched_at_total f g :
  by_valid_time_fetched_at f g = true \/ by_valid_time_fetched_at g f = true.
Proof.
  rewrite !by_valid_time_fetched_at_eq.
  destruct (ltb_total (f_valid_time f) (f_valid_time g)) as [H|[H|H]]; auto.
  destruct (String.leb_total (f_fetched_at f) (f_fetched_at g)); auto.
Qed.

Lemma by_valid_time_fetched_at_trans f g h :
  by_valid_time_fetched_at f g = true -> by_valid_time_fetched_at g h = true ->
  by_valid_time_fetched_at f h = true.
Proof.
  rewrite !by_valid_time_fetched_at_eq.
  intros [H1|[E1 L1]] [H2|[E2 L2]].
  - left. eapply ltb_trans; eauto.
  - left. now rewrite <- E2.
  - left. now rewrite E1.
  - right. split; [congruence|]. eapply leb_trans; eauto.
Qed.

Lemma load_observations_In start end_ db o :
  In o (load_observations start end_ db)
  <-> In o (observations db)
      /\ time_from start (o_time o) = true /\ time_to end_ (o_time o) = true.
Proof.
  unfold load_observations.
  rewrite order_by_In, filter_In, andb_true_iff. reflexivity.
Qed.

Lemma load_observations_sorted start end_ db :
  StronglySorted (fun a b => (o_time a <=? o_time b) = true)
                 (load_observations start end_ db).
Proof.
  unfold load_observations. apply order_by_sorted.
  - intros a b. apply String.leb_total.
  - intros a b c. apply leb_trans.
Qed.

Lemma load_forecasts_sorted source start end_ db :
  StronglySorted (fun f g => by_valid_time_fetched_at f g = true)
                 (load_forecasts source start end_ db).
Proof.
  unfold load_forecasts. apply order_by_sorted.
  - apply by_valid_time_fetched_at_total.
  - apply by_valid_time_fetched_at_trans.
Qed.

(** Of the rows of a batch with one time, one is stored. *)
Lemma insert_observations_stored rows db row :
  In row rows ->
  exists row', In row' rows /\ r_time row' = r_time row
               /\ In (observation_of_row row')
                     (observations (insert_observations rows db)).
Proof.
  intros Hrow.
  destruct (last_of_each_exists (fun x r => o_time x =? o_time r)
              (List.map observation_of_row rows) (observation_of_row row))
    as [o [Ho Hsame]].
  - intros x. apply String.eqb_refl.
  - intros x y z Hxy Hyz. apply String.eqb_eq in Hxy, Hyz.
    apply String.eqb_eq. congruence.
  - now apply in_map.
  - pose proof (last_of_each_incl _ _ _ Ho) as Hin.
    apply in_map_iff in Hin. destruct Hin as [row' [<- Hrow']].
    apply String.eqb_eq in Hsame. simpl in Hsame.
    exists row'. repeat split; [assumption|congruence|].
    rewrite insert_observations_eq, in_app_iff. now right.
Qed.

End Loads.

(** X8.  [load_observations] returns exactly the stored observations whose
    time lies within the bounds, in ascending order of the time text; a
    bound that is [None] or the empty text is no bound.  It reads back what
    [store_history] wrote: after a reply has been stored, every time of the
    reply is returned with a row whose columns hold the values of the reply
    at a position of that time. *)
Theorem load_observations_reads_back_store_history :
  (forall (start end_ : option string) (db : Database),
      (forall o, In o (load_observations start end_ db)
                 <-> In o (observations db)
                     /\ time_from start (o_time o) = true
                     /\ time_to end_ (o_time o) = true)
      /\ (forall i j a b, (i < j)%nat ->
            load_observations start end_ db !! i = Some a ->
            load_observations start end_ db !! j = Some b ->
            (o_time a <=? o_time b) = true)
      /\ load_observations (Some "") end_ db = load_observations None end_ db
      /\ load_observations start (Some "") db = load_observations start None db
      /\ Permutation (load_observations None None db) (observations db))
  /\ (forall (hourly : Hourly) (db db' : Database),
        store_history hourly db = Some db' ->
        forall t, In t (h_time hourly) ->
          exists o i,
            In o (load_observations None None db') /\ o_time o = t
            /\ h_time hourly !! i = Some t
            /\ forall var, In var Config.HOURLY_HISTORY_VARS ->
                 hourly_get hourly var i
                 = Some (column_of observation_columns var o)).
Proof.
  split.
  - intros start end_ db.
    split; [intros o; apply load_observations_In|].
    split; [apply (StronglySorted_lookup _ _ (load_observations_sorted _ _ _))|].
    split; [reflexivity|]. split; [reflexivity|].
    unfold load_observations. rewrite order_by_perm.
    rewrite List.forallb_filter_id; [reflexivity|].
    now apply forallb_forall.
  - intros hourly db db'. unfold store_history.
    destruct (mapM _ _) as [rows|] eqn:Hm; simpl; [|discriminate].
    intros [= <-] t Ht.
    destruct (built_rows Config.HOURLY_HISTORY_VARS (fun v => v)
                         (fun _ => None) hourly rows Hm) as [Hrows Htimes].
    destruct (Htimes t Ht) as (row & Hrow & <-).
    destruct (insert_observations_stored rows db row Hrow)
      as (row' & Hrow' & Htime & Hin).
    destruct (Hrows row' Hrow') as (i & v & Hi & _ & Hv & Hvars).
    exists (observation_of_row row'), i.
    split; [|split; [assumption|split; [congruence|]]].
    + apply load_observations_In. auto.
    + intros var Hvar. rewrite observation_of_row_column by assumption.
      eapply built_row_cell; eauto.
Qed.

(** X9.  [load_forecasts] returns exactly the stored rows of the source
    whose valid time lies within the bounds, ordered by valid time and,
    for one valid time, by issue time: the issues of an hour come oldest
    first, and its backfilled row comes after every live issue. *)
Theorem load_forecasts_ordered_by_valid_time_then_issue
        (source : string) (start end_ : option string) (db : Database) :
  let result := load_forecasts source start end_ db in
  (forall f, In f result
             <-> In f (forecasts db) /\ f_source f = source
                 /\ time_from start (f_valid_time f) = true
                 /\ time_to end_ (f_valid_time f) = true)
  /\ (forall i j f g, (i < j)%nat -> result !! i = Some f -> result !! j = Some g ->
        (f_valid_time f <=? f_valid_time g) = true
        /\ (f_valid_time f = f_valid_time g ->
            (f_fetched_at f <=? f_fetched_at g) = true))
  /\ (forall i j f g, result !! i = Some f -> result !! j = Some g ->
        f_valid_time f = f_valid_time g ->
        is_live (f_fetched_at f) = true -> f_fetched_at g = "backfill" ->
        (i < j)%nat).
Proof.
  cbv zeta.
  assert (Hpos : forall i j f g, (i < j)%nat ->
            load_forecasts source start end_ db !! i = Some f ->
            load_forecasts source start end_ db !! j = Some g ->
            (f_valid_time f <=? f_valid_time g) = true
            /\ (f_valid_time f = f_valid_time g ->
                (f_fetched_at f <=? f_fetched_at g) = true)).
  { intros i j f g Hij Hi Hj.
    pose proof (StronglySorted_lookup _ _ (load_forecasts_sorted source start end_ db)
                  i j f g Hij Hi Hj) as H.
    apply by_valid_time_fetched_at_eq in H. destruct H as [H|[E L]].
    - split; [now apply ltb_leb|]. intros E. rewrite E, ltb_irrefl in H.
      discriminate.
    - split; [rewrite E; apply leb_refl | auto]. }
  split; [|split; [exact Hpos|]].
  - intros f. unfold load_forecasts.
    rewrite order_by_In, filter_In, !andb_true_iff, String.eqb_eq. tauto.
  - intros i j f g Hi Hj Hv Hlive Hback.
    destruct (Nat.lt_trichotomy i j) as [H|[H|H]]; [assumption| |].
    + subst j. rewrite Hi in Hj. inversion Hj; subst g.
      rewrite Hback in Hlive. discriminate.
    + destruct (Hpos j i g f H Hj Hi) as [_ Hle].
      specialize (Hle (eq_sym Hv)). rewrite Hback in Hle.
      apply live_before_backfill in Hlive.
      apply ltb_false_leb in Hle. congruence.
Qed.

(** ** collector.py: the chunks of the backfill *)

Section Chunks.
Import Collector.
Local Open Scope Z_scope.

Ltac zdiv :=
  unfold requests_day, date_of, timedelta_days, day in *; cbn [fst snd] in *;
  Z.to_euclidean_division_equations; lia.

Lemma chunk_bounds_cons fuel cs e W c rest :
  chunk_bounds fuel cs e W = c :: rest ->
  cs < e /\ c = (cs, Z.min (cs + timedelta_days W) e)
  /\ exists fuel', fuel = S fuel'
                   /\ rest = chunk_bounds fuel' (snd c + timedelta_days 1) e W.
Proof.
  destruct fuel as [|fuel']; simpl; [discriminate|].
  destruct (cs <? e) eqn:E; [|discriminate].
  apply Z.ltb_lt in E. intros [= <- <-]. eauto.
Qed.

Lemma chunk_bounds_Forall fuel cs e W :
  0 <= W ->
  List.Forall (fun c => cs <= fst c < e /\ fst c <= snd c <= e
                        /\ snd c - fst c <= timedelta_days W)
              (chunk_bounds fuel cs e W).
Proof.
  intros HW. revert cs. induction fuel as [|fuel IH]; intros cs; simpl;
    [constructor|].
  destruct (cs <? e) eqn:E; [|constructor]. apply Z.ltb_lt in E.
  constructor.
  - cbn [fst snd]. unfold timedelta_days, day. lia.
  - eapply List.Forall_impl; [|apply IH].
    intros c Hc. cbn beta in *. unfold timedelta_days, day in *. lia.
Qed.

(** The loop has ended before the fuel is used up. *)
Lemma chunk_bounds_fuel fuel fuel' cs e W :
  0 <= W -> (turns cs e <= fuel)%nat -> (turns cs e <= fuel')%nat ->
  chunk_bounds fuel cs e W = chunk_bounds fuel' cs e W.
Proof.
  intros HW. revert fuel' cs.
  induction fuel as [|fuel IH]; intros fuel' cs Hf Hf'.
  - assert (Hge : e <= cs) by (unfold turns, day in *; zdiv).
    destruct fuel'; simpl; [reflexivity|].
    apply Z.ltb_ge in Hge. now rewrite Hge.
  - simpl. destruct (cs <? e) eqn:E.
    + apply Z.ltb_lt in E.
      destruct fuel' as [|fuel']; [unfold turns, day in *; zdiv|].
      simpl. apply Z.ltb_lt in E. rewrite E. apply Z.ltb_lt in E.
      f_equal. apply IH; unfold turns, timedelta_days, day in *; zdiv.
    + destruct fuel'; simpl; [reflexivity|]. now rewrite E.
Qed.

Lemma chunk_bounds_next fuel cs e W i a b :
  chunk_bounds fuel cs e W !! i = Some a ->
  chunk_bounds fuel cs e W !! S i = Some b ->
  fst b = snd a + timedelta_days 1.
Proof.
  revert fuel cs. induction i as [|i IH]; intros fuel cs Ha Hb.
  - destruct (chunk_bounds fuel cs e W) as [|c rest] eqn:Hl; [discriminate|].
    simpl in Ha, Hb. inversion Ha; subst c.
    apply chunk_bounds_cons in Hl. destruct Hl as (_ & _ & fuel' & _ & ->).
    destruct (chunk_bounds fuel' _ e W) as [|c' rest'] eqn:Hl'; [discriminate|].
    simpl in Hb. inversion Hb; subst c'.
    apply chunk_bounds_cons in Hl'. destruct Hl' as (_ & -> & _). reflexivity.
  - destruct (chunk_bounds fuel cs e W) as [|c rest] eqn:Hl; [discriminate|].
    apply chunk_bounds_cons in Hl. destruct Hl as (_ & _ & fuel' & _ & ->).
    simpl in Ha, Hb. eapply IH; eauto.
Qed.

(** A later chunk starts on a later day than an earlier chunk ends. *)
Lemma chunk_bounds_apart fuel cs e W i j a b :
  0 <= W -> (i < j)%nat ->
  chunk_bounds fuel cs e W !! i = Some a ->
  chunk_bounds fuel cs e W !! j = Some b ->
  date_of (snd a) < date_of (fst b).
Proof.
  intros HW. revert fuel cs j. induction i as [|i IH]; intros fuel cs j Hij Ha Hb.
  - destruct (chunk_bounds fuel cs e W) as [|c rest] eqn:Hl; [discriminate|].
    simpl in Ha. inversion Ha; subst c.
    apply chunk_bounds_cons in Hl. destruct Hl as (_ & _ & fuel' & _ & ->).
    destruct j as [|j]; [lia|]. simpl in Hb.
    pose proof (chunk_bounds_Forall fuel' (snd a + timedelta_days 1) e W HW) as Hall.
    rewrite List.Forall_forall in Hall.
    specialize (Hall b (lookup_In _ _ _ Hb)). zdiv.
  - destruct (chunk_bounds fuel cs e W) as [|c rest] eqn:Hl; [discriminate|].
    apply chunk_bounds_cons in Hl. destruct Hl as (_ & _ & fuel' & _ & ->).
    destruct j as [|j]; [lia|]. simpl in Ha, Hb.
    apply (IH fuel' (snd c + timedelta_days 1) j); [lia|assumption|assumption].
Qed.

(** Every day before the day of the end is asked for. *)
Lemma chunk_bounds_cover fuel cs e W d :
  0 <= W -> (turns cs e <= fuel)%nat ->
  date_of cs <= d < date_of e ->
  exists c, In c (chunk_bounds fuel cs e W) /\ requests_day c d.
Proof.
  intros HW. revert cs. induction fuel as [|fuel IH]; intros cs Hf Hd.
  - unfold turns in Hf. zdiv.
  - assert (E : cs < e) by zdiv.
    simpl. apply Z.ltb_lt in E. rewrite E. apply Z.ltb_lt in E.
    destruct (Z_le_gt_dec d (date_of (Z.min (cs + timedelta_days W) e)))
      as [Hle|Hgt].
    + exists (cs, Z.min (cs + timedelta_days W) e). split; [now left|].
      unfold requests_day. cbn [fst snd]. lia.
    + destruct (IH (Z.min (cs + timedelta_days W) e + timedelta_days 1))
        as [c [Hc Hr]].
      * unfold turns in *. zdiv.
      * zdiv.
      * exists c. split; [now right|assumption].
Qed.

Lemma mod_step (N W : Z) :
  0 <= W -> W < N -> (N - (W + 1)) mod (W + 1) = N mod (W + 1).
Proof.
  intros HW HN.
  replace (N - (W + 1)) with (N + (-1) * (W + 1)) by lia.
  apply Z.mod_add. lia.
Qed.

(** The day of the end, for a span of whole days. *)
Lemma chunk_bounds_last_day fuel cs W N :
  0 <= W -> 0 < N -> (turns cs (cs + timedelta_days N) <= fuel)%nat ->
  (exists c, In c (chunk_bounds fuel cs (cs + timedelta_days N) W)
             /\ requests_day c (date_of (cs + timedelta_days N)))
  <-> N mod (W + 1) <> 0.
Proof.
  intros HW. revert cs N.
  induction fuel as [|fuel IH]; intros cs N HN Hf.
  - unfold turns in Hf. zdiv.
  - assert (E : cs < cs + timedelta_days N) by (unfold timedelta_days, day; lia).
    simpl. apply Z.ltb_lt in E. rewrite E. apply Z.ltb_lt in E.
    destruct (Z_le_gt_dec N W) as [Hle|Hgt].
    + rewrite Z.mod_small by lia. split; [lia|]. intros _.
      exists (cs, Z.min (cs + timedelta_days W) (cs + timedelta_days N)).
      split; [now left|].
      replace (Z.min (cs + timedelta_days W) (cs + timedelta_days N))
        with (cs + timedelta_days N) by (unfold timedelta_days, day; lia).
      zdiv.
    + replace (Z.min (cs + timedelta_days W) (cs + timedelta_days N))
        with (cs + timedelta_days W) by (unfold timedelta_days, day; lia).
      rewrite <- (mod_step N W) by lia.
      destruct (Z.eq_dec N (W + 1)) as [->|Hne].
      * replace (W + 1 - (W + 1)) with 0 by lia. rewrite Z.mod_0_l by lia.
        split; [|congruence]. intros [c [[<-|Hc] Hr]].
        -- revert Hr. zdiv.
        -- exfalso.
           replace (cs + timedelta_days W + timedelta_days 1)
             with (cs + timedelta_days (W + 1)) in Hc
             by (unfold timedelta_days; lia).
           destruct fuel; simpl in Hc; [assumption|].
           rewrite Z.ltb_irrefl in Hc. assumption.
      * replace (cs + timedelta_days N)
          with ((cs + timedelta_days W + timedelta_days 1)
                + timedelta_days (N - (W + 1)))
          by (unfold timedelta_days; lia).
        rewrite <- (IH (cs + timedelta_days W + timedelta_days 1) (N - (W + 1)));
          [|lia|unfold turns in *; zdiv].
        split.
        -- intros [c [[<-|Hc] Hr]]; [exfalso; revert Hr; zdiv|eauto].
        -- intros [c [Hc Hr]]. exists c. split; [now right|assumption].
Qed.

End Chunks.

(** X10.  The loop of [_chunked_fetch] (for a [chunk_days] that is not
    negative; the callers use 30).  The loop ends.  Every chunk starts
    before the end, ends at the end at the latest and spans at most
    [chunk_days] days, a chunk starts one day after the chunk before it
    ended, and no day is asked for by two chunks.  Every day from the day
    of the start up to the day before the day of the end is asked for, and
    no day outside the two bounds.  For a span of a whole number N of days,
    as the backfill uses, the day of the end is asked for exactly when N is
    not a multiple of [chunk_days + 1]. *)
Theorem chunked_fetch_asks_for_each_day_once (start end_ chunk_days : Z) :
  (0 <= chunk_days)%Z ->
  let chunks := Collector.chunk_bounds (Collector.turns start end_)
                                       start end_ chunk_days in
  (forall fuel, (Collector.turns start end_ <= fuel)%nat ->
                Collector.chunk_bounds fuel start end_ chunk_days = chunks)
  /\ (forall c, In c chunks ->
        (start <= fst c < end_)%Z /\ (fst c <= snd c <= end_)%Z
        /\ (snd c - fst c <= Collector.timedelta_days chunk_days)%Z)
  /\ (forall i a b, chunks !! i = Some a -> chunks !! S i = Some b ->
                    fst b = (snd a + Collector.timedelta_days 1)%Z)
  /\ (forall i j a b d, (i < j)%nat -> chunks !! i = Some a -> chunks !! j = Some b ->
        Collector.requests_day a d -> ~ Collector.requests_day b d)
  /\ (forall d, (Collector.date_of start <= d < Collector.date_of end_)%Z ->
                exists c, In c chunks /\ Collector.requests_day c d)
  /\ (forall c d, In c chunks -> Collector.requests_day c d ->
                  (Collector.date_of start <= d <= Collector.date_of end_)%Z)
  /\ (forall N, (0 < N)%Z -> end_ = (start + Collector.timedelta_days N)%Z ->
        (exists c, In c chunks /\ Collector.requests_day c (Collector.date_of end_))
        <-> (N mod (chunk_days + 1))%Z <> 0%Z).
Proof.
  intros HW. cbv zeta.
  split; [intros fuel Hf; now apply chunk_bounds_fuel|].
  split; [|split; [|split; [|split; [|split]]]].
  - intros c Hc.
    pose proof (chunk_bounds_Forall (Collector.turns start end_) start end_
                                    chunk_days HW) as Hall.
    rewrite List.Forall_forall in Hall. now apply Hall.
  - intros i a b. apply chunk_bounds_next.
  - intros i j a b d Hij Ha Hb Hra Hrb.
    pose proof (chunk_bounds_apart _ _ _ _ _ _ _ _ HW Hij Ha Hb) as Hlt.
    unfold Collector.requests_day in *. lia.
  - intros d Hd. now apply chunk_bounds_cover.
  - intros c d Hc Hr.
    pose proof (chunk_bounds_Forall (Collector.turns start end_) start end_
                                    chunk_days HW) as Hall.
    rewrite List.Forall_forall in Hall. specialize (Hall c Hc).
    unfold Collector.requests_day, Collector.date_of, Collector.day in *.
    Z.to_euclidean_division_equations. lia.
  - intros N HN ->. now apply chunk_bounds_last_day.
Qed.

(** ** collector.py: what a backfill leaves in the observations *)

Section Backfill.
Import Collector.

Lemma insert_observations_keeps_times rows db t :
  In t (List.map o_time (observations db)) ->
  In t (List.map o_time (observations (insert_observations rows db))).
Proof.
  intros Ht. apply in_map_iff in Ht. destruct Ht as [o [<- Ho]].
  destruct (existsb (fun r => o_time o =? o_time r)
                    (List.map observation_of_row rows)) eqn:E.
  - apply existsb_exists in E. destruct E as [r [Hr Heq]].
    apply in_map_iff in Hr. destruct Hr as [row [<- Hrow]].
    apply String.eqb_eq in Heq. rewrite Heq. now apply insert_observations_times.
  - rewrite insert_observations_eq, List.map_app, in_app_iff. left.
    apply in_map. apply filter_In. split; [assumption|]. now rewrite E.
Qed.

(** Whether [store_history] raises depends on the reply only. *)
Lemma store_history_rows data db0 db1 :
  store_history data db0 = Some db1 ->
  exists rows,
    (forall db, store_history data db = Some (insert_observations rows db))
    /\ (forall t, In t (h_time data) -> exists row, In row rows /\ r_time row = t)
    /\ (forall row, In row rows -> In (r_time row) (h_time data)).
Proof.
  unfold store_history.
  destruct (mapM _ _) as [rows|] eqn:Hm; simpl; [|discriminate].
  intros _. exists rows. split; [reflexivity|].
  destruct (built_rows Config.HOURLY_HISTORY_VARS (fun v => v)
                       (fun _ => None) data rows Hm) as [Hrows Htimes].
  split; [assumption|].
  intros row Hrow. destruct (Hrows row Hrow) as (i & v & Hi & _).
  eapply lookup_In; eauto.
Qed.

(** One turn of the loop with [store_history]. *)
Lemma try_chunk_store_history fetch c db :
  try_chunk fetch store_history c db = db
  \/ exists data rows,
       fetch (date_of (fst c)) (date_of (snd c)) = Ok data
       /\ (forall db, store_history data db = Some (insert_observations rows db))
       /\ (forall row, In row rows -> In (r_time row) (h_time data))
       /\ try_chunk fetch store_history c db = insert_observations rows db.
Proof.
  unfold try_chunk.
  destruct (fetch _ _) as [data|err]; [|now left].
  destruct (store_history data db) as [db'|] eqn:Hs; [|now left].
  right. destruct (store_history_rows _ _ _ Hs) as (rows & Hall & _ & Hin).
  exists data, rows. repeat split; try assumption.
  rewrite Hall in Hs. now inversion Hs.
Qed.

Lemma chunks_keep fetch (l : list (Z * Z)) db :
  let db' := fold_left (fun db c => try_chunk fetch store_history c db) l db in
  forecasts db' = forecasts db
  /\ (pk_observations db -> pk_observations db')
  /\ (forall t, In t (List.map o_time (observations db)) ->
                In t (List.map o_time (observations db')))
  /\ (forall o, In o (observations db') ->
        In o (observations db)
        \/ exists c data, In c l
             /\ fetch (date_of (fst c)) (date_of (snd c)) = Ok data
             /\ In (o_time o) (h_time data)).
Proof.
  cbv zeta. revert db. induction l as [|c l IH]; intros db; simpl.
  - repeat split; auto.
  - destruct (IH (try_chunk fetch store_history c db)) as (Hf & Hpk & Ht & Ho).
    destruct (try_chunk_store_history fetch c db)
      as [Heq|(data & rows & Hfetch & Hstore & Hrows & Heq)].
    + rewrite Heq in *. repeat split; try assumption.
      intros o Hin. destruct (Ho o Hin) as [H|(c' & data & Hc' & H)]; [now left|].
      right. exists c', data. auto.
    + rewrite Heq in *. repeat split.
      * now rewrite Hf.
      * intros H. apply Hpk. now apply insert_observations_pk.
      * intros t H. apply Ht. now apply insert_observations_keeps_times.
      * intros o Hin. destruct (Ho o Hin) as [H|(c' & data' & Hc' & H)].
        -- apply insert_observations_In_inv in H.
           destruct H as [H|(row & Hrow & ->)]; [now left|].
           right. exists c, data. repeat split; [now left|assumption|].
           now apply Hrows.
        -- right. exists c', data'. auto.
Qed.

Lemma chunks_store fetch (l : list (Z * Z)) db c data db0 db1 t :
  In c l -> fetch (date_of (fst c)) (date_of (snd c)) = Ok data ->
  store_history data db0 = Some db1 -> In t (h_time data) ->
  In t (List.map o_time
          (observations
             (fold_left (fun db c => try_chunk fetch store_history c db) l db))).
Proof.
  intros Hc Hfetch Hstore Ht. revert db.
  induction l as [|c' l IH]; intros db; simpl; [contradiction|].
  destruct Hc as [->|Hc]; [|now apply IH].
  destruct (chunks_keep fetch l (try_chunk fetch store_history c db))
    as (_ & _ & Hkeep & _).
  apply Hkeep.
  destruct (store_history_rows _ _ _ Hstore) as (rows & Hall & Htimes & _).
  unfold try_chunk. rewrite Hfetch, Hall.
  destruct (Htimes t Ht) as (row & Hrow & <-).
  now apply insert_observations_times.
Qed.

End Backfill.

(** X11.  A backfill of the observations never loses data and never stops
    at a chunk that fails.  After [backfill_history] every time that was
    stored before is still stored, the forecasts are as before and the
    primary key is kept; for every chunk whose request succeeded and whose
    reply could be stored, every hour of the reply is stored at the end,
    whatever happened to the other chunks; and every row of the table is a
    row from before or holds an hour of the reply to one of the chunks. *)
Theorem backfill_history_keeps_every_good_chunk
        (now years : Z) (fetch_history : Z -> Z -> result Hourly) (db : Database) :
  let end_ := (now - Collector.timedelta_days 5)%Z in
  let start := (end_ - Collector.timedelta_days (365 * years))%Z in
  let chunks := Collector.chunk_bounds (Collector.turns start end_) start end_ 30 in
  let db' := Collector.backfill_history now years fetch_history db in
  forecasts db' = forecasts db
  /\ (pk_observations db -> pk_observations db')
  /\ (forall t, In t (List.map o_time (observations db)) ->
                In t (List.map o_time (observations db')))
  /\ (forall c data db0 db1,
        In c chunks ->
        fetch_history (Collector.date_of (fst c)) (Collector.date_of (snd c))
        = Ok data ->
        store_history data db0 = Some db1 ->
        forall t, In t (h_time data) -> In t (List.map o_time (observations db')))
  /\ (forall o, In o (observations db') ->
        In o (observations db)
        \/ exists c data,
             In c chunks
             /\ fetch_history (Collector.date_of (fst c)) (Collector.date_of (snd c))
                = Ok data
             /\ In (o_time o) (h_time data)).
Proof.
  cbv zeta. unfold Collector.backfill_history, Collector._chunked_fetch. cbv zeta.
  set (l := Collector.chunk_bounds _ _ _ _).
  destruct (chunks_keep fetch_history l db) as (Hf & Hpk & Ht & Ho).
  repeat split; try assumption.
  intros c data db0 db1 Hc Hfetch Hstore t Hin.
  eapply chunks_store; eauto.
Qed.

(** The theorem at the span of the backfill, 15 years of 365 days in
    chunks of 30 days: 5475 is not a multiple of 31, so the last day is
    asked for. *)
Lemma chunked_fetch_asks_for_each_day_once_witness :
  (0 <= 30)%Z
  /\ exists c,
       In c (Collector.chunk_bounds
               (Collector.turns 0 (Collector.timedelta_days 5475))
               0 (Collector.timedelta_days 5475) 30)
       /\ Collector.requests_day c (Collector.date_of (Collector.timedelta_days 5475)).
Proof.
  split; [lia|].
  destruct (chunked_fetch_asks_for_each_day_once
              0 (Collector.timedelta_days 5475) 30 ltac:(lia))
    as (_ & _ & _ & _ & _ & _ & Hlast).
  apply (Hlast 5475%Z); [lia | reflexivity | vm_compute; discriminate].
Defined.

(** ** features.py: get_feature_columns *)

Section FeatureColumns.
Import Frame Features.

Lemma ltb_compare (a b : string) : (a <? b) = true <-> String.compare a b = Lt.
Proof. unfold String.ltb. destruct (String.compare a b); split; congruence. Qed.

Lemma compare_Gt_ltb (a b : string) : String.compare a b = Gt -> (b <? a) = true.
Proof.
  intros H. apply ltb_compare. rewrite String.compare_antisym, H. reflexivity.
Qed.

Lemma insert_sorted_In c l x : In x (insert_sorted c l) <-> x = c \/ In x l.
Proof.
  induction l as [|d l IH]; simpl; [intuition|].
  destruct (String.compare c d) eqn:E; simpl.
  - apply String.compare_eq_iff in E. subst. intuition.
  - intuition.
  - rewrite IH. intuition.
Qed.

Lemma sorted_set_In l x : In x (sorted_set l) <-> In x l.
Proof.
  unfold sorted_set. induction l as [|c l IH]; simpl; [reflexivity|].
  rewrite insert_sorted_In, IH. intuition.
Qed.

Lemma insert_sorted_sorted c l :
  StronglySorted (fun a b => (a <? b) = true) l ->
  StronglySorted (fun a b => (a <? b) = true) (insert_sorted c l).
Proof.
  induction l as [|d l IH]; intros Hs; simpl.
  - repeat constructor.
  - inversion Hs as [|? ? Hs' Hall]; subst.
    destruct (String.compare c d) eqn:E.
    + assumption.
    + apply ltb_compare in E. constructor; [assumption|].
      constructor; [assumption|].
      rewrite List.Forall_forall in Hall. apply List.Forall_forall.
      intros x Hx. eapply ltb_trans; eauto.
    + apply compare_Gt_ltb in E. constructor; [now apply IH|].
      apply List.Forall_forall. intros x Hx. apply insert_sorted_In in Hx.
      destruct Hx as [->|Hx]; [assumption|].
      rewrite List.Forall_forall in Hall. now apply Hall.
Qed.

Lemma sorted_set_sorted l :
  StronglySorted (fun a b => (a <? b) = true) (sorted_set l).
Proof.
  unfold sorted_set. induction l as [|c l IH]; simpl; [constructor|].
  now apply insert_sorted_sorted.
Qed.

(** Two strictly ascending lists with the same elements are one list. *)
Lemma sorted_same_elements (l k : list string) :
  StronglySorted (fun a b => (a <? b) = true) l ->
  StronglySorted (fun a b => (a <? b) = true) k ->
  (forall x, In x l <-> In x k) -> l = k.
Proof.
  intros Hl. revert k. induction Hl as [|a l Hs IH Hall]; intros k Hk Hsame.
  - destruct k as [|b k]; [reflexivity|].
    exfalso. apply (Hsame b). now left.
  - destruct k as [|b k]; [exfalso; apply (Hsame a); now left|].
    inversion Hk as [|? ? Hk' Hallk]; subst.
    rewrite List.Forall_forall in Hall, Hallk.
    assert (Hab : a = b).
    { destruct (proj1 (Hsame a) (or_introl eq_refl)) as [->|Ha]; [reflexivity|].
      destruct (proj2 (Hsame b) (or_introl eq_refl)) as [->|Hb]; [reflexivity|].
      pose proof (Hallk a Ha) as H1. pose proof (Hall b Hb) as H2.
      apply ltb_asym in H1. congruence. }
    subst b. f_equal. apply IH; [assumption|].
    intros x. split; intros Hx.
    + destruct (proj1 (Hsame x) (or_intror Hx)) as [->|H]; [|assumption].
      pose proof (Hall x Hx) as Hc. now rewrite ltb_irrefl in Hc.
    + destruct (proj2 (Hsame x) (or_intror Hx)) as [->|H]; [|assumption].
      pose proof (Hallk x Hx) as Hc. now rewrite ltb_irrefl in Hc.
Qed.

Lemma get_feature_columns_In df c :
  In c (get_feature_columns df)
  <-> In c (columns df)
      /\ (include_even_if_obs c = true \/ String.prefix "obs_" c = false).
Proof.
  unfold get_feature_columns. cbv zeta. rewrite sorted_set_In.
  set (keep := fun col : string =>
                 if include_even_if_obs col then true
                 else if String.prefix "obs_" col then false
                 else if String.eqb col "lead_hours" then false else true).
  assert (Hkeep : forall x, In x (List.filter keep (columns df)) ->
                    In x (columns df)
                    /\ (include_even_if_obs x = true \/ String.prefix "obs_" x = false)).
  { intros x Hx. apply filter_In in Hx. destruct Hx as [Hx Hk].
    split; [assumption|]. unfold keep in Hk.
    destruct (include_even_if_obs x); [now left|].
    destruct (String.prefix "obs_" x); [discriminate|now right]. }
  split.
  - intros Hin.
    destruct (has_column df "lead_hours"
              && negb (existsb (String.eqb "lead_hours")
                               (List.filter keep (columns df)))) eqn:E.
    + apply in_app_iff in Hin. destruct Hin as [Hin|[<-|[]]]; [now apply Hkeep|].
      apply andb_true_iff in E. destruct E as [E _].
      apply has_column_In in E. split; [assumption|now right].
    + now apply Hkeep.
  - intros [Hc Hwhy].
    assert (Hcases : keep c = true \/ c = "lead_hours").
    { unfold keep. destruct Hwhy as [->| ->]; [now left|].
      destruct (include_even_if_obs c); [now left|].
      destruct (String.eqb c "lead_hours") eqn:E; [|now left].
      right. now apply String.eqb_eq. }
    destruct (has_column df "lead_hours"
              && negb (existsb (String.eqb "lead_hours")
                               (List.filter keep (columns df)))) eqn:E.
    + apply in_app_iff. destruct Hcases as [Hk| ->]; [|right; now left].
      left. apply filter_In. auto.
    + destruct Hcases as [Hk| ->]; [apply filter_In; auto|].
      apply andb_false_iff in E. destruct E as [E|E].
      * apply has_column_In in Hc. congruence.
      * apply negb_false_iff, existsb_exists in E. destruct E as [x [Hx Heq]].
        apply String.eqb_eq in Heq. now subst.
Qed.

End FeatureColumns.

(** X12.  On a table whose columns all hold numbers,
    [get_feature_columns] returns the names of the columns that are not
    observations, together with the lag, rolling and bias columns: a
    name is returned exactly when it is a column and holds "lag_", "roll_"
    or "bias_" or does not start with "obs_".  So "lead_hours" is a feature
    whenever it is a column (the set of exact exclusions has no effect).
    The list is strictly ascending in the order of the text, without
    duplicates, and depends on the set of the column names only: two tables
    with the same columns in any order give the same list, so training and
    serving agree on the feature order. *)
Theorem get_feature_columns_by_name (df : Frame.DataFrame) :
  (forall c, In c (Features.get_feature_columns df)
             <-> In c (Frame.columns df)
                 /\ (Features.include_even_if_obs c = true
                     \/ String.prefix "obs_" c = false))
  /\ (In "lead_hours" (Features.get_feature_columns df)
      <-> In "lead_hours" (Frame.columns df))
  /\ StronglySorted (fun a b => (a <? b) = true) (Features.get_feature_columns df)
  /\ List.NoDup (Features.get_feature_columns df)
  /\ (forall df', (forall c, In c (Frame.columns df') <-> In c (Frame.columns df)) ->
                  Features.get_feature_columns df' = Features.get_feature_columns df).
Proof.
  assert (Hsorted : forall d, StronglySorted (fun a b => (a <? b) = true)
                                (Features.get_feature_columns d))
    by (intros d; apply sorted_set_sorted).
  split; [intros c; apply get_feature_columns_In|].
  split; [|split; [apply Hsorted|split]].
  - rewrite get_feature_columns_In. split; [tauto|]. intros H. split; [assumption|].
    now right.
  - induction (Hsorted df) as [|a l Hs IH Hall]; constructor; [|assumption].
    intros Hin. rewrite List.Forall_forall in Hall.
    pose proof (Hall a Hin) as Hc. now rewrite ltb_irrefl in Hc.
  - intros df' Hsame. apply sorted_same_elements; [apply Hsorted|apply Hsorted|].
    intros x. rewrite !get_feature_columns_In, Hsame. reflexivity.
Qed.

(** ** models.py: what a trained precipitation predictor serves *)

Section PrecipServes.
Import Frame Models.

(** The three arrays that [PrecipitationPredictor.predict] always
    returns. *)
Lemma precip_predict_base self X results :
  precip_predict self X = Ok results ->
  exists raw_probs raw_amount,
    estimator_predict (classifier self) X = Ok raw_probs
    /\ estimator_predict (regressor self) X = Ok raw_amount
    /\ results !! "precip_probability" = Some (calibrate self raw_probs)
    /\ results !! "precip_if_rain_mm"
       = Some (List.map (fun v => np_maximum v 0) raw_amount)
    /\ results !! "precip_expected_mm"
       = Some (np_multiply (calibrate self raw_probs)
                           (List.map (fun v => np_maximum v 0) raw_amount))
    /\ (forall k a, results !! k = Some a ->
          In k ["precip_probability"; "precip_if_rain_mm"; "precip_expected_mm"]
          \/ exists alpha qmodel raw,
               In (alpha, qmodel) (precip_quantile_models self)
               /\ k = quantile_key alpha
               /\ estimator_predict qmodel X = Ok raw
               /\ a = np_multiply (List.map (fun v => np_maximum v 0) raw)
                                  (calibrate self raw_probs))
    /\ (forall alpha qmodel, In (alpha, qmodel) (precip_quantile_models self) ->
                             is_Some (results !! quantile_key alpha)).
Proof.
  intros Hp. unfold precip_predict in Hp.
  bind_ok Hp raw_probs Hprobs. bind_ok Hp raw_amount Hamount.
  exists raw_probs, raw_amount. split; [assumption|]. split; [assumption|].
  destruct (predict_quantiles_spec _ _ _ _ _ Hp) as (Hin & Hout & Hserved).
  assert (Hbase : forall k, k = "precip_probability" \/ k = "precip_if_rain_mm"
                            \/ k = "precip_expected_mm" ->
                            forall alpha (qmodel : Estimator),
                              In (alpha, qmodel) (precip_quantile_models self) ->
                              quantile_key alpha <> k).
  { intros k Hk alpha qmodel _.
    destruct (quantile_key_not_base alpha) as (H1 & H2 & H3).
    destruct Hk as [->| [->| ->]]; assumption. }
  split; [|split; [|split; [|split]]].
  - rewrite Hout by (apply Hbase; auto).
    rewrite lookup_insert_ne by discriminate.
    rewrite lookup_insert_ne by discriminate.
    apply lookup_insert_eq.
  - rewrite Hout by (apply Hbase; auto). apply lookup_insert_eq.
  - rewrite Hout by (apply Hbase; auto).
    rewrite lookup_insert_ne by discriminate. apply lookup_insert_eq.
  - intros k a Hk.
    destruct (Hin k a Hk) as [Hprev|(al & qm & rw & Hi & Hkey & Hrw & Hband)].
    + left.
      destruct (decide (k = "precip_if_rain_mm")) as [->|H1]; [simpl; auto|].
      rewrite lookup_insert_ne in Hprev by congruence.
      destruct (decide (k = "precip_expected_mm")) as [->|H2]; [simpl; auto|].
      rewrite lookup_insert_ne in Hprev by congruence.
      destruct (decide (k = "precip_probability")) as [->|H3]; [simpl; auto|].
      rewrite lookup_insert_ne in Hprev by congruence.
      rewrite lookup_empty in Hprev. discriminate.
    + right. exists al, qm, rw. auto.
  - intros alpha qmodel Hi. apply (Hserved alpha qmodel Hi).
Qed.

Lemma calibrate_unit self X raw_probs :
  serves_probabilities self ->
  estimator_predict (classifier self) X = Ok raw_probs ->
  List.Forall (fun v => 0 <= v /\ v <= 1)%Q (calibrate self raw_probs).
Proof.
  unfold serves_probabilities, calibrate. intros Hs Hraw.
  destruct (calibrator self) as [cal|].
  - apply List.Forall_forall. intros v Hv.
    apply in_map_iff in Hv. destruct Hv as [x [<- _]]. apply Hs.
  - unfold estimator_predict in Hraw.
    destruct (classifier self) as [p|p b] eqn:Hc; [discriminate|].
    destruct (length (columns X) =? length (feature_name_ b))%nat; [|discriminate].
    destruct (rows X); [discriminate|].
    inversion Hraw; subst.
    apply List.Forall_forall. intros v Hv.
    apply in_map_iff in Hv. destruct Hv as [x [<- _]]. now apply (Hs p b).
Qed.

(** A product with a probability is at most the other factor. *)
Lemma np_multiply_le (prob amount : list Q) i e a :
  List.Forall (fun v => 0 <= v /\ v <= 1)%Q prob ->
  List.Forall (fun v => 0 <= v)%Q amount ->
  np_multiply prob amount !! i = Some e -> amount !! i = Some a ->
  (0 <= e /\ e <= a)%Q.
Proof.
  intros Hp Ha He Hai.
  apply np_multiply_lookup in He. destruct He as (p & a' & Hpi & Hai' & ->).
  rewrite Hai in Hai'. inversion Hai'; subst a'.
  rewrite List.Forall_forall in Hp, Ha.
  destruct (Hp p (lookup_In _ _ _ Hpi)) as [Hp0 Hp1].
  pose proof (Ha a (lookup_In _ _ _ Hai)) as Ha0.
  split; [now apply Qmult_le_0_compat|].
  rewrite <- (Qmult_1_l a) at 2. now apply Qmult_le_compat_r.
Qed.

End PrecipServes.

Section PrecipTrainServes.
Import Frame Models Predict.
Context `{Toolkit}.

Lemma has_features_fitted_on cols e :
  has_features cols e -> fitted_on (length cols) e.
Proof.
  intros (p & f & ->). unfold fitted_on. eauto.
Qed.

(** The two outcomes of the regression stage of a fresh predictor. *)
Lemma train_amount_new X_train y_train X_val y_val stage2 :
  train_amount new_precipitation_predictor X_train y_train X_val y_val = Ok stage2 ->
  ((100 < mask_sum (rain_mask y_train))%nat
   /\ fitted_on (length (columns X_train)) (fst stage2)
   /\ List.map fst (snd stage2) = [1 # 10; 25 # 100; 5 # 10; 75 # 100; 9 # 10]
   /\ (forall a e, In (a, e) (snd stage2) ->
                   fitted_on (length (columns X_train)) e))
  \/ ((mask_sum (rain_mask y_train) <= 100)%nat
      /\ stage2 = (Unfitted tweedie_params, [])).
Proof.
  unfold train_amount. cbv zeta.
  destruct (100 <? mask_sum (rain_mask y_train))%nat eqn:E.
  - apply Nat.ltb_lt in E. intros Hst. left. split; [assumption|].
    bind_ok Hst reg Hreg. bind_ok Hst qs Hqs. inversion Hst; subst. clear Hst.
    cbn [fst snd].
    split; [apply has_features_fitted_on; now apply fit_estimator_features in Hreg|].
    cbn [new_precipitation_predictor precip_quantile_models] in Hqs.
    split.
    + simpl in Hqs.
      bind_ok Hqs q1 H1. bind_ok Hqs q2 H2. bind_ok Hqs q3 H3.
      bind_ok Hqs q4 H4. bind_ok Hqs q5 H5.
      inversion Hqs; subst. reflexivity.
    + intros a e Hin.
      destruct (fit_quantiles_features _ _ _ _ _ Hqs a e Hin) as [[]|Hf].
      now apply has_features_fitted_on.
  - apply Nat.ltb_ge in E. intros [= <-]. right. auto.
Qed.

(** X13.  What a precipitation predictor serves after
    [PrecipitationPredictor.train] has returned on a fresh predictor.  The
    calibrator is set, so the served probability lies in [0, 1].  On a table
    with the number of columns of the training table and at least one row,
    [predict] returns exactly when the regression stage ran (more than 100
    rainy training rows).  When it returns, it returns eight arrays, named
    precip_probability, precip_expected_mm, precip_if_rain_mm and
    precip_q10_mm, precip_q25_mm, precip_q50_mm, precip_q75_mm,
    precip_q90_mm, each with one entry for each row of the table and no
    negative entry; no probability exceeds 1, and no expected amount
    exceeds the conditional amount of its row. *)
Theorem precip_train_then_predict
        (X_train : DataFrame) (y_train : list Q) (X_val : DataFrame) (y_val : list Q)
        (pp : PrecipitationPredictor) (scores : list (string * Q))
        (log : list message) :
  precip_train new_precipitation_predictor X_train y_train X_val y_val
  = Ok (pp, scores, log) ->
  serves_probabilities pp
  /\ (forall X, length (columns X) = length (columns X_train) -> rows X <> [] ->
        (is_ok (precip_predict pp X) = true
         <-> (100 < mask_sum (rain_mask y_train))%nat))
  /\ (forall X results, precip_predict pp X = Ok results ->
        (forall k, is_Some (results !! k)
                   <-> In k ["precip_probability"; "precip_expected_mm";
                             "precip_if_rain_mm"; "precip_q10_mm"; "precip_q25_mm";
                             "precip_q50_mm"; "precip_q75_mm"; "precip_q90_mm"])
        /\ (forall k a, results !! k = Some a ->
              length a = len X /\ List.Forall (fun v => 0 <= v)%Q a)
        /\ (forall prob, results !! "precip_probability" = Some prob ->
              List.Forall (fun v => v <= 1)%Q prob)
        /\ (forall expected amount i e a,
              results !! "precip_expected_mm" = Some expected ->
              results !! "precip_if_rain_mm" = Some amount ->
              expected !! i = Some e -> amount !! i = Some a -> (e <= a)%Q)).
Proof.
  intros Ht. apply precip_train_inv in Ht.
  destruct Ht as (clf & raw & cal & stage2 & Hclf & _ & Hcal & Hst & ->).
  assert (Hserves : serves_probabilities
                      {| classifier := clf; regressor := fst stage2;
                         precip_quantile_models := snd stage2;
                         calibrator := Some cal |}).
  { intros x. cbn [calibrator]. eapply isotonic_range; eauto. }
  apply fit_estimator_features, has_features_fitted_on in Hclf.
  apply train_amount_new in Hst.
  split; [exact Hserves|]. split.
  - intros X Hcols Hrows.
    destruct Hst as [(Hgt & Hreg & Hkeys & Hqs)|(Hle & ->)].
    + split; [intros _; assumption|]. intros _.
      destruct (precip_predict_serves (length (columns X_train))
                  {| classifier := clf; regressor := fst stage2;
                     precip_quantile_models := snd stage2;
                     calibrator := Some cal |} X) as [precip [Hp _]];
        [|assumption|assumption|now rewrite Hp].
      repeat split; cbn [classifier regressor precip_quantile_models]; auto.
    + split; [|lia]. unfold precip_predict. cbn [classifier regressor fst].
      destruct (estimator_predict clf X); simpl; discriminate.
  - intros X results Hp.
    destruct (precip_predict_base _ _ _ Hp)
      as (raw_probs & raw_amount & Hprobs & Hamount & Rp & Ra & Re & Hin & Hserved).
    cbn [classifier regressor precip_quantile_models] in *.
    destruct Hst as [(Hgt & Hreg & Hkeys & Hqs)|(Hle & ->)];
      [|cbn [fst] in Hamount; discriminate].
    pose proof (estimator_predict_length _ _ _ Hprobs) as Lp.
    pose proof (estimator_predict_length _ _ _ Hamount) as La.
    pose proof (calibrate_unit _ _ _ Hserves Hprobs) as Hunit.
    set (prob := calibrate {| classifier := clf; regressor := fst stage2;
                              precip_quantile_models := snd stage2;
                              calibrator := Some cal |} raw_probs) in *.
    assert (Hprob0 : List.Forall (fun v => 0 <= v)%Q prob).
    { eapply List.Forall_impl; [|exact Hunit]. now intros v [? _]. }
    assert (Lprob : length prob = length (rows X))
      by (unfold prob; now rewrite calibrate_length).
    split; [|split; [|split]].
    + intros k. split.
      * intros [a Ha]. destruct (Hin k a Ha) as [Hb|(al & qm & rw & Hi & -> & _)].
        -- simpl in Hb. simpl. intuition.
        -- apply (in_map fst) in Hi. rewrite Hkeys in Hi. simpl in Hi.
           destruct Hi as [<-|[<-|[<-|[<-|[<-|[]]]]]]; vm_compute; tauto.
      * intros Hk.
        assert (Hq : forall al, In al (List.map fst (snd stage2)) ->
                                is_Some (results !! quantile_key al)).
        { intros al Hal. apply in_map_iff in Hal.
          destruct Hal as [[al' e] [<- Hi]]. apply (Hserved _ _ Hi). }
        rewrite Hkeys in Hq.
        simpl in Hk.
        destruct Hk as [<-|[<-|[<-|[<-|[<-|[<-|[<-|[<-|[]]]]]]]]]; eauto.
        -- apply (Hq (1 # 10)). simpl. tauto.
        -- apply (Hq (25 # 100)). simpl. tauto.
        -- apply (Hq (5 # 10)). simpl. tauto.
        -- apply (Hq (75 # 100)). simpl. tauto.
        -- apply (Hq (9 # 10)). simpl. tauto.
    + intros k a Ha. destruct (Hin k a Ha) as [Hb|(al & qm & rw & Hi & -> & Hrw & ->)].
      * simpl in Hb. destruct Hb as [<-|[<-|[<-|[]]]].
        -- rewrite Rp in Ha. inversion Ha; subst a. auto.
        -- rewrite Ra in Ha. inversion Ha; subst a.
           split; [now rewrite length_map|apply floor_nonneg].
        -- rewrite Re in Ha. inversion Ha; subst a.
           split; [rewrite np_multiply_length, length_map; unfold len; lia|].
           apply np_multiply_nonneg; [assumption|apply floor_nonneg].
      * split.
        -- rewrite np_multiply_length, length_map.
           rewrite (estimator_predict_length _ _ _ Hrw). unfold len. lia.
        -- apply np_multiply_nonneg; [apply floor_nonneg|assumption].
    + intros pr Hpr. rewrite Rp in Hpr. inversion Hpr; subst pr.
      eapply List.Forall_impl; [|exact Hunit]. now intros v [_ ?].
    + intros expected amount i e a Hexp Ham Hei Hai.
      rewrite Re in Hexp. rewrite Ra in Ham.
      inversion Hexp; subst expected. inversion Ham; subst amount.
      exact (proj2 (np_multiply_le _ _ i e a Hunit (floor_nonneg raw_amount)
                                   Hei Hai)).
Qed.

End PrecipTrainServes.

(** The theorem at 101 hours of rain and 20 dry hours to train on: the
    trained predictor serves the table of one hour. *)
Lemma precip_train_then_predict_witness :
  exists pp scores log,
    Examples.trained_on_rain 101 = Ok (pp, scores, log)
    /\ is_ok (precip_predict pp Examples.one_row_table) = true.
Proof.
  assert (Hok : is_ok (Examples.trained_on_rain 101) = true)
    by (vm_compute; reflexivity).
  pose proof (is_ok_get_ok (new_precipitation_predictor, [], []) _ Hok) as Ht.
  destruct (get_ok (new_precipitation_predictor, [], [])
                   (Examples.trained_on_rain 101)) as [[pp scores] log].
  exists pp, scores, log. split; [exact Ht|].
  destruct (precip_train_then_predict (H := Examples.toy_toolkit)
              _ _ _ _ _ _ _ Ht) as (_ & Hserves & _).
  apply (Hserves Examples.one_row_table eq_refl); [discriminate|].
  vm_compute. lia.
Defined.

(** ** models.py: which targets WeatherPredictor.train fits *)

Section WeatherTrainKeys.
Import Frame Models Predict.
Context `{Toolkit}.

(** [d[k] = v] for a key that [d] does not hold appends the item. *)
Lemma dict_set_new {V : Type} (k : string) (v : V) (d : list (string * V)) :
  ~ In k (List.map fst d) -> dict_set String.eqb k v d = d ++ [(k, v)].
Proof.
  induction d as [|[k' v'] d IH]; simpl; intros Hn; [reflexivity|].
  destruct (String.eqb_spec k k') as [->|Hne]; [exfalso; apply Hn; now left|].
  rewrite IH; [reflexivity|]. intros Hin. apply Hn. now right.
Qed.

Lemma fit_quantiles_two cols train qs :
  fit_quantiles [1 # 10; 9 # 10] cols train [] = Ok qs ->
  exists q10 q90,
    qs = [(1 # 10, q10); (9 # 10, q90)]
    /\ has_features cols q10 /\ has_features cols q90.
Proof.
  simpl. intros Hq. bind_ok Hq q10 H10. bind_ok Hq q90 H90.
  inversion Hq; subst. exists q10, q90.
  split; [reflexivity|]. split; eapply fit_estimator_features; eauto.
Qed.

(** One turn of the loop: the target is added at the end of the three
    dictionaries when it is fitted, and nothing changes when it is
    skipped. *)
Lemma train_target_keys X_train y_train X_val y_val st target info st' :
  train_target X_train y_train X_val y_val st target info = Ok st' ->
  ~ In target (List.map fst (models (wt_self st))) ->
  ~ In target (List.map fst (quantile_models (wt_self st))) ->
  ~ In target (List.map fst (wt_scores st)) ->
  if trains X_train y_train target
  then exists model q10 q90 mae,
         has_features (columns X_train) model
         /\ has_features (columns X_train) q10
         /\ has_features (columns X_train) q90
         /\ models (wt_self st') = models (wt_self st) ++ [(target, model)]
         /\ quantile_models (wt_self st')
            = quantile_models (wt_self st)
              ++ [(target, [(1 # 10, q10); (9 # 10, q90)])]
         /\ wt_scores st' = wt_scores st ++ [(target, mae)]
         /\ wt_log st' = wt_log st ++ [MsgValMAE target mae]
  else wt_self st' = wt_self st /\ wt_scores st' = wt_scores st.
Proof.
  unfold train_target, trains. intros Ht Hm Hq Hs.
  destruct (dict_get String.eqb target target_to_obs_col) as [obs_col|];
    [|discriminate].
  unfold column in *.
  destruct (has_column y_train obs_col) eqn:Hc; simpl in Ht;
    [|inversion Ht; subst; auto].
  destruct (length (labelled X_train (List.map (row_cell obs_col) (rows y_train)))
            <? 100)%nat eqn:E.
  - apply Nat.ltb_lt in E.
    replace (100 <=? _)%nat with false by (symmetry; apply Nat.leb_gt; exact E).
    inversion Ht; subst. auto.
  - apply Nat.ltb_ge in E.
    replace (100 <=? _)%nat with true by (symmetry; apply Nat.leb_le; exact E).
    destruct (has_column y_val obs_col); simpl in Ht; [|discriminate].
    bind_ok Ht model Hmodel. bind_ok Ht preds Hpreds. bind_ok Ht qmodels Hqm.
    inversion Ht; subst. clear Ht. cbn [wt_self wt_scores wt_log models quantile_models].
    apply fit_quantiles_two in Hqm. destruct Hqm as (q10 & q90 & -> & H10 & H90).
    exists model, q10, q90.
    eexists. split; [eapply fit_estimator_features; eauto|].
    split; [assumption|]. split; [assumption|].
    rewrite !dict_set_new by assumption. repeat split.
Qed.

(** The loop over the targets. *)
Lemma train_targets_keys X_train y_train X_val y_val ts :
  List.NoDup (List.map fst ts) ->
  forall st st',
    train_targets X_train y_train X_val y_val ts st = Ok st' ->
    (forall t, In t (List.map fst ts) ->
               ~ In t (List.map fst (models (wt_self st)))
               /\ ~ In t (List.map fst (quantile_models (wt_self st)))
               /\ ~ In t (List.map fst (wt_scores st))) ->
    exists new_models new_quantiles new_scores,
      models (wt_self st') = models (wt_self st) ++ new_models
      /\ quantile_models (wt_self st') = quantile_models (wt_self st) ++ new_quantiles
      /\ wt_scores st' = wt_scores st ++ new_scores
      /\ List.map fst new_models
         = List.filter (trains X_train y_train) (List.map fst ts)
      /\ List.map fst new_quantiles
         = List.filter (trains X_train y_train) (List.map fst ts)
      /\ List.map fst new_scores
         = List.filter (trains X_train y_train) (List.map fst ts)
      /\ (forall t e, In (t, e) new_models -> has_features (columns X_train) e)
      /\ (forall t qs, In (t, qs) new_quantiles ->
            exists q10 q90, qs = [(1 # 10, q10); (9 # 10, q90)]
                            /\ has_features (columns X_train) q10
                            /\ has_features (columns X_train) q90).
Proof.
  induction ts as [|[target info] ts IH]; intros Hnd st st' Ht Hfresh.
  - simpl in Ht. inversion Ht; subst. exists [], [], [].
    rewrite !List.app_nil_r. repeat split; intros ? ? [].
  - simpl in Ht. bind_ok Ht mid Hmid.
    simpl in Hnd. inversion Hnd as [|? ? Hnotin Hnd']; subst.
    destruct (Hfresh target) as (F1 & F2 & F3); [now left|].
    pose proof (train_target_keys _ _ _ _ _ _ _ _ Hmid F1 F2 F3) as Hstep.
    cbn [List.map fst List.filter].
    destruct (trains X_train y_train target) eqn:Etr.
    + destruct Hstep as (model & q10 & q90 & mae & Hf & H10 & H90 & Em & Eq & Es & _).
      destruct (IH Hnd' mid st' Ht) as (nm & nq & ns & Rm & Rq & Rs & Km & Kq & Ks & Fm & Fq).
      { intros t Hin. destruct (Hfresh t) as (G1 & G2 & G3); [now right|].
        rewrite Em, Eq, Es, !List.map_app, !in_app_iff. simpl.
        repeat split; intros [?|[<-|[]]]; tauto. }
      exists ((target, model) :: nm),
             ((target, [(1 # 10, q10); (9 # 10, q90)]) :: nq),
             ((target, mae) :: ns).
      rewrite Rm, Rq, Rs, Em, Eq, Es, <- !List.app_assoc. simpl.
      rewrite Km, Kq, Ks. repeat split.
      * intros t e [[= <- <-]|Hin]; [assumption|eapply Fm; eauto].
      * intros t qs [[= <- <-]|Hin]; [eauto|eapply Fq; eauto].
    + destruct Hstep as [Eself Escores].
      destruct (IH Hnd' mid st' Ht) as (nm & nq & ns & Rm & Rq & Rs & Km & Kq & Ks & Fm & Fq).
      { intros t Hin. rewrite Eself, Escores. apply Hfresh. now right. }
      exists nm, nq, ns. rewrite Rm, Rq, Rs, Eself, Escores.
      repeat split; assumption.
Qed.

End WeatherTrainKeys.

Section WeatherServesAfterTraining.
Import Frame Models Predict.

Lemma dict_get_key {V : Type} (k : string) (d : list (string * V)) :
  In k (List.map fst d) -> is_Some (dict_get String.eqb k d).
Proof.
  induction d as [|[k' v] d IH]; simpl; [tauto|].
  destruct (String.eqb_spec k k') as [->|Hne]; [eauto|].
  intros [E|Hin]; [congruence|auto].
Qed.

(** The keys of the results after the constraints are those before. *)
Lemma constraints_keys (raw : gmap string (list Q)) k :
  is_Some (floor_wind_speed (clip_humidity raw) !! k) <-> is_Some (raw !! k).
Proof.
  rewrite floor_wind_speed_lookup.
  destruct (decide (k = "wind_speed")) as [->|_].
  - rewrite clip_humidity_lookup.
    destruct (decide ("wind_speed" = "humidity")) as [E|_]; [discriminate E|].
    now rewrite fmap_is_Some.
  - rewrite clip_humidity_lookup.
    destruct (decide (k = "humidity")) as [->|_]; [|reflexivity].
    now rewrite fmap_is_Some.
Qed.

Lemma constraints_length (raw : gmap string (list Q)) n :
  (forall k a, raw !! k = Some a -> length a = n) ->
  forall k a, floor_wind_speed (clip_humidity raw) !! k = Some a -> length a = n.
Proof.
  intros Hlen k a. rewrite floor_wind_speed_lookup.
  destruct (decide (k = "wind_speed")) as [->|_].
  - destruct (clip_humidity raw !! "wind_speed") as [b|] eqn:E; simpl;
      [|discriminate].
    intros [= <-]. rewrite length_map.
    rewrite clip_humidity_lookup in E.
    destruct (decide ("wind_speed" = "humidity")) as [E'|_]; [discriminate E'|].
    eauto.
  - rewrite clip_humidity_lookup.
    destruct (decide (k = "humidity")) as [->|_]; [|apply Hlen].
    destruct (raw !! "humidity") as [b|] eqn:E; simpl; [|discriminate].
    intros [= <-]. rewrite length_map. eauto.
Qed.

(** The loop of [predict] returns when every estimator is fitted on the
    number of columns of the table and every set of quantile models holds
    the two alphas. *)
Lemma predict_targets_fitted n wp X :
  (forall t e, In (t, e) (models wp) -> fitted_on n e) ->
  (forall t qs, In (t, qs) (quantile_models wp) ->
     exists q10 q90, dict_get Qeq_bool (1 # 10) qs = Some q10
                     /\ dict_get Qeq_bool (9 # 10) qs = Some q90
                     /\ fitted_on n q10 /\ fitted_on n q90) ->
  length (columns X) = n -> rows X <> [] ->
  forall items r,
    (forall te, In te items -> In te (models wp)) ->
    exists r', predict_targets wp X items r = Ok r'.
Proof.
  intros Hmodels Hq Hcols Hrows items.
  induction items as [|[target model] items IH]; intros r Hsub; simpl; [eauto|].
  assert (Hfit : fitted_on n model) by (apply (Hmodels target); apply Hsub; now left).
  destruct (estimator_predict_fitted n model X Hfit Hcols Hrows) as [point ->].
  simpl.
  assert (Hmid : exists mid, predict_interval wp X target (<[target := point]> r)
                             = Ok mid).
  { unfold predict_interval.
    destruct (dict_get String.eqb target (quantile_models wp)) as [qs|] eqn:E;
      [|eauto].
    destruct (dict_get_In _ _ _ _ E) as [t' Hin].
    destruct (Hq t' qs Hin) as (q10 & q90 & -> & -> & H10 & H90).
    destruct (estimator_predict_fitted n q10 X H10 Hcols Hrows) as [lo ->].
    destruct (estimator_predict_fitted n q90 X H90 Hcols Hrows) as [hi ->].
    simpl. eauto. }
  destruct Hmid as [mid ->]. simpl.
  apply IH. intros te Hte. apply Hsub. now right.
Qed.

(** The keys that the loop of [predict] stores. *)
Lemma predict_targets_present wp X items :
  forall r r',
    predict_targets wp X items r = Ok r' ->
    (forall k, is_Some (r !! k) -> is_Some (r' !! k))
    /\ (forall t m, In (t, m) items ->
          is_Some (r' !! t)
          /\ (is_Some (dict_get String.eqb t (quantile_models wp)) ->
              is_Some (r' !! (t ++ "_q10")%string)
              /\ is_Some (r' !! (t ++ "_q90")%string))).
Proof.
  induction items as [|[t m] items IH]; intros r r' Hp.
  - simpl in Hp. inversion Hp; subst. split; [auto|]. intros ? ? [].
  - simpl in Hp. bind_ok Hp point Hpt. bind_ok Hp mid Hmid.
    destruct (IH _ _ Hp) as [Hkeep Hitems].
    assert (Hstep : (forall k, is_Some (r !! k) -> is_Some (mid !! k))
                    /\ is_Some (mid !! t)
                    /\ (is_Some (dict_get String.eqb t (quantile_models wp)) ->
                        is_Some (mid !! (t ++ "_q10")%string)
                        /\ is_Some (mid !! (t ++ "_q90")%string))).
    { revert Hmid. unfold predict_interval.
      destruct (dict_get String.eqb t (quantile_models wp)) as [qs|].
      - destruct (dict_get Qeq_bool (1 # 10) qs) as [q10|]; [|discriminate].
        intros Hmid. bind_ok Hmid lo Hlo.
        destruct (dict_get Qeq_bool (9 # 10) qs) as [q90|]; [|discriminate].
        bind_ok Hmid hi Hhi. inversion Hmid; subst.
        split; [|split].
        + intros k Hk. rewrite !lookup_insert_is_Some'. auto.
        + rewrite !lookup_insert_is_Some'. auto.
        + intros _. split.
          * rewrite lookup_insert_is_Some'. right.
            rewrite lookup_insert_eq. eauto.
          * rewrite lookup_insert_eq. eauto.
      - intros [= <-]. split; [|split].
        + intros k Hk. rewrite lookup_insert_is_Some'. auto.
        + rewrite lookup_insert_eq. eauto.
        + intros [? ?]. discriminate. }
    destruct Hstep as (S1 & S2 & S3).
    split; [auto|].
    intros t' m' [Heq|Hin]; [|now apply (Hitems t' m')].
    inversion Heq; subst t' m'. split; [auto|].
    intros Hq. destruct (S3 Hq). auto.
Qed.

Lemma weather_predict_fitted n wp X :
  (forall t e, In (t, e) (models wp) -> fitted_on n e) ->
  (forall t qs, In (t, qs) (quantile_models wp) ->
     exists q10 q90, dict_get Qeq_bool (1 # 10) qs = Some q10
                     /\ dict_get Qeq_bool (9 # 10) qs = Some q90
                     /\ fitted_on n q10 /\ fitted_on n q90) ->
  length (columns X) = n -> rows X <> [] ->
  exists results,
    weather_predict wp X = Ok results
    /\ (forall k a, results !! k = Some a -> length a = length (rows X))
    /\ (forall t, In t (List.map fst (models wp)) -> is_Some (results !! t))
    /\ (forall t, In t (List.map fst (models wp)) ->
                  In t (List.map fst (quantile_models wp)) ->
                  is_Some (results !! (t ++ "_q10")%string)
                  /\ is_Some (results !! (t ++ "_q90")%string)).
Proof.
  intros Hmodels Hq Hcols Hrows.
  destruct (predict_targets_fitted n wp X Hmodels Hq Hcols Hrows (models wp) ∅)
    as [raw Hraw]; [auto|].
  exists (floor_wind_speed (clip_humidity raw)).
  split; [unfold weather_predict; now rewrite Hraw|].
  destruct (predict_targets_present _ _ _ _ _ Hraw) as [_ Hitems].
  split; [|split].
  - apply constraints_length.
    apply (predict_targets_raw wp X (fun a => length a = length (rows X)))
      with (items := models wp) (results := ∅); auto.
    + intros e a _. apply estimator_predict_length.
    + intros k a Hk. rewrite lookup_empty in Hk. discriminate.
  - intros t Ht. apply constraints_keys.
    apply in_map_iff in Ht. destruct Ht as [[t' m] [<- Hin]].
    now apply (Hitems t' m).
  - intros t Ht Hqt. rewrite !constraints_keys.
    apply in_map_iff in Ht. destruct Ht as [[t' m] [<- Hin]]. cbn [fst] in *.
    apply (Hitems t' m Hin). now apply dict_get_key.
Qed.

End WeatherServesAfterTraining.

Section WeatherTrainTheorem.
Import Frame Models Predict.
Context `{Toolkit}.

Lemma weather_train_keys X_train y_train X_val y_val st :
  weather_train new_weather_predictor X_train y_train X_val y_val = Ok st ->
  List.map fst (models (wt_self st))
  = List.filter (trains X_train y_train) (List.map fst targets)
  /\ List.map fst (quantile_models (wt_self st))
     = List.filter (trains X_train y_train) (List.map fst targets)
  /\ List.map fst (wt_scores st)
     = List.filter (trains X_train y_train) (List.map fst targets)
  /\ (forall t e, In (t, e) (models (wt_self st)) ->
                  has_features (columns X_train) e)
  /\ (forall t qs, In (t, qs) (quantile_models (wt_self st)) ->
        exists q10 q90, qs = [(1 # 10, q10); (9 # 10, q90)]
                        /\ has_features (columns X_train) q10
                        /\ has_features (columns X_train) q90).
Proof.
  unfold weather_train. intros Ht.
  destruct (train_targets_keys X_train y_train X_val y_val targets) with
      (st := {| wt_self := new_weather_predictor; wt_scores := []; wt_log := [] |})
      (st' := st)
    as (nm & nq & ns & Rm & Rq & Rs & Km & Kq & Ks & Fm & Fq).
  - simpl. repeat constructor; simpl; intuition discriminate.
  - exact Ht.
  - intros t _. simpl. tauto.
  - simpl in Rm, Rq, Rs. rewrite Rm, Rq, Rs. auto.
Qed.

(** X14.  [WeatherPredictor.train] on a fresh predictor fits a target
    exactly when the column of its observations is among the labels and at
    least 100 training rows carry the observation; the other targets are
    skipped without an error.  The fitted targets, in the order
    temperature, humidity, wind_speed, wind_direction, are the keys of the
    point models, of the quantile models and of the scores; each has a
    point model and the quantile models of 0.1 and 0.9, all fitted on the
    columns of the training table.  The trained predictor returns on every
    table with that number of columns and at least one row: for each fitted
    target the point estimate and the two bounds, each with one entry for
    each row. *)
Theorem weather_train_fits_targets_with_100_rows
        (X_train y_train X_val y_val : DataFrame) (st : WeatherTraining) :
  weather_train new_weather_predictor X_train y_train X_val y_val = Ok st ->
  let fitted := List.filter (trains X_train y_train)
                  ["temperature"; "humidity"; "wind_speed"; "wind_direction"] in
  List.map fst (models (wt_self st)) = fitted
  /\ List.map fst (quantile_models (wt_self st)) = fitted
  /\ List.map fst (wt_scores st) = fitted
  /\ (forall t e, In (t, e) (models (wt_self st)) ->
                  has_features (columns X_train) e)
  /\ (forall t qs, In (t, qs) (quantile_models (wt_self st)) ->
        exists q10 q90, qs = [(1 # 10, q10); (9 # 10, q90)]
                        /\ has_features (columns X_train) q10
                        /\ has_features (columns X_train) q90)
  /\ (forall X, length (columns X) = length (columns X_train) -> rows X <> [] ->
        exists results,
          weather_predict (wt_self st) X = Ok results
          /\ (forall k a, results !! k = Some a -> length a = len X)
          /\ (forall t, In t fitted ->
                is_Some (results !! t)
                /\ is_Some (results !! (t ++ "_q10")%string)
                /\ is_Some (results !! (t ++ "_q90")%string))).
Proof.
  intros Ht. cbv zeta.
  destruct (weather_train_keys _ _ _ _ _ Ht) as (Km & Kq & Ks & Fm & Fq).
  change (List.map fst targets)
    with ["temperature"; "humidity"; "wind_speed"; "wind_direction"] in *.
  split; [assumption|]. split; [assumption|]. split; [assumption|].
  split; [assumption|]. split; [assumption|].
  intros X Hcols Hrows.
  destruct (weather_predict_fitted (length (columns X_train)) (wt_self st) X)
    as (results & Hp & Hlen & Hpoint & Hint).
  - intros t e Hin. apply has_features_fitted_on. eauto.
  - intros t qs Hin. destruct (Fq t qs Hin) as (q10 & q90 & -> & H10 & H90).
    exists q10, q90. repeat split; try reflexivity;
      now apply has_features_fitted_on.
  - assumption.
  - assumption.
  - exists results. split; [assumption|]. split; [assumption|].
    intros t Hfit. rewrite <- Km in Hfit.
    split; [now apply Hpoint|].
    apply Hint; [assumption|]. now rewrite Kq, <- Km.
Qed.

End WeatherTrainTheorem.

(** The theorem at 100 training hours and 20 validation hours whose labels
    hold the temperature only: the temperature is the one fitted target. *)
Lemma weather_train_fits_targets_with_100_rows_witness :
  exists st,
    Examples.trained_on_temperature = Ok st
    /\ List.map fst (models (wt_self st)) = ["temperature"].
Proof.
  assert (Hok : is_ok Examples.trained_on_temperature = true)
    by (vm_compute; reflexivity).
  pose proof (is_ok_get_ok {| wt_self := new_weather_predictor;
                              wt_scores := []; wt_log := [] |} _ Hok) as Ht.
  destruct (get_ok _ Examples.trained_on_temperature) as [wp scores log].
  eexists. split; [exact Ht|].
  destruct (weather_train_fits_targets_with_100_rows (H := Examples.toy_toolkit)
              _ _ _ _ _ Ht) as (Hkeys & _).
  rewrite Hkeys. vm_compute. reflexivity.
Defined.

(** ** train.py and predict.py: serving with the bundles of a training run *)

Section TrainThenServe.
Import Frame Models Features Runtime Predict.
Context `{Toolkit}.

Ltac run_done Hrun a w1 Ha :=
  apply prog_bind_Done in Hrun; destruct Hrun as (a & w1 & Ha & Hrun).

(** What a training run that ends normally has done. *)
Lemma train_and_save_inv df w w' :
  Train.train_and_save df w = (Done tt, w') ->
  exists X_train y_train X_val y_val trained pX py pvX pvy pp scores log,
    columns X_train = get_feature_columns df
    /\ weather_train new_weather_predictor X_train y_train X_val y_val = Ok trained
    /\ columns pX = get_feature_columns df
    /\ precip_train new_precipitation_predictor pX py pvX pvy = Ok (pp, scores, log)
    /\ files w' = precip_save pp Config.PRECIP_MODEL_PATH
                    (weather_save (wt_self trained) Config.MODEL_PATH (files w)).
Proof.
  intros Hrun. unfold Train.train_and_save in Hrun. cbv zeta in Hrun.
  run_done Hrun u1 w1 H1. apply print_Done in H1.
  run_done Hrun u2 w2 H2. apply print_Done in H2.
  run_done Hrun u3 w3 H3. apply print_Done in H3.
  run_done Hrun u4 w4 H4. apply print_Done in H4.
  run_done Hrun X_train w5 H5. apply call_Done in H5. destruct H5 as [HXt ->].
  run_done Hrun X_val w6 H6. apply call_Done in H6. destruct H6 as [HXv ->].
  run_done Hrun u7 w7 H7. apply print_Done in H7.
  run_done Hrun y_train w8 H8. apply call_Done in H8. destruct H8 as [Hyt ->].
  run_done Hrun y_val w9 H9. apply call_Done in H9. destruct H9 as [Hyv ->].
  run_done Hrun trained w10 H10. apply call_Done in H10. destruct H10 as [Htr ->].
  run_done Hrun u11 w11 H11. apply print_all_Done in H11.
  run_done Hrun fs12 w12 H12. apply read_files_Done in H12. destruct H12 as [-> ->].
  run_done Hrun u13 w13 H13. apply write_files_Done in H13.
  run_done Hrun u14 w14 H14. apply print_Done in H14.
  run_done Hrun u15 w15 H15. apply print_Done in H15.
  run_done Hrun pt w16 H16. apply call_Done in H16. destruct H16 as [Hpt ->].
  run_done Hrun pv w17 H17. apply call_Done in H17. destruct H17 as [Hpv ->].
  run_done Hrun ptrained w18 H18. apply call_Done in H18. destruct H18 as [Hptr ->].
  run_done Hrun u19 w19 H19. apply print_all_Done in H19.
  run_done Hrun fs20 w20 H20. apply read_files_Done in H20. destruct H20 as [-> ->].
  run_done Hrun u21 w21 H21. apply write_files_Done in H21.
  run_done Hrun u22 w22 H22. apply print_Done in H22.
  run_done Hrun u23 w23 H23.
  pose proof (lead_time_summary_keeps (snd (Train.time_split
                 (dropna_thresh (get_feature_columns df)
                                (length (get_feature_columns df) / 2) df)))
                 X_val w22) as H23'.
  rewrite H23 in H23'. simpl in H23'.
  apply print_Done in Hrun.
  destruct ptrained as [[pp scores] log]. simpl in *.
  pose proof (select_columns_eq _ _ _ HXt) as Hcols.
  do 12 eexists.
  split; [exact Hcols|]. split; [exact Htr|].
  split; [|split; [exact Hptr|]].
  - simpl. exact Hcols.
  - rewrite Hrun, H23', H22, H21, H19, H15, H14, H13, H11, H7, H4, H3, H2, H1.
    reflexivity.
Qed.

Context `{FeatureBuilder}.

(** [predict.main] up to the engineered table. *)
Lemma predict_main_loaded wp pp fetched served now w :
  weather_load Config.MODEL_PATH (files w) = Ok wp ->
  precip_load Config.PRECIP_MODEL_PATH (files w) = Ok pp ->
  build_feature_set fetched = Ok served ->
  Predict.main (Ok fetched) now w
  = main_on_features wp pp served now
      {| files := files w; latest_forecast := latest_forecast w;
         stdout := stdout w ++ [MsgLoadingModels; MsgFetching] |}.
Proof.
  intros Hwp Hpp Hb. unfold Predict.main.
  unfold mbind, prog_bind, print, read_files, call. cbn [files].
  rewrite Hwp, Hpp, Hb. cbn [files latest_forecast stdout].
  now rewrite <- List.app_assoc.
Qed.


End TrainThenServe.


